(** * TF-MoDISco workflow orchestrator

    A shallow embedding of [modisco/tfmodisco_workflow/workflow.py]:
    the classes [TfModiscoResults], [SubMetaclusterResults] and
    [TfModiscoWorkflow], with the behaviour of [TfModiscoWorkflow.__call__]
    and of the two [save_hdf5] methods.

    Conventions of the embedding.
    - Python integers are [Z]; floating-point thresholds and scores are
      idealised as rationals [Q] (the program only divides, subtracts and
      compares them).
    - A NumPy 2-D array is a list of rows; arrays live in a heap and are
      passed by location, as Python passes them by reference.
    - Exceptions are an error type; standard output, the heap and the two
      attributes that [__call__] assigns on [self] form the state that is
      threaded through the call. *)

From Stdlib Require Import ZArith QArith Qminmax List String Ascii Bool Lia.
From Stdlib Require Import Permutation Sorted DecimalString DecimalZ.
From Stdlib Require Import RelationClasses Lqa.
Import ListNotations.

Local Open Scope string_scope.
Local Open Scope list_scope.
Local Open Scope Z_scope.

(* ================================================================== *)
(** ** Python values and built-ins used by the workflow *)
(* ================================================================== *)

Module Py.

(** Exceptions that the modelled code can raise. *)
Inductive exn : Type :=
| AssertionError (msg : string)
| ZeroDivisionError
| ValueError (msg : string)
| KeyError (key : string)
| CollaboratorError (who : string).

Inductive result (A : Type) : Type :=
| Ok (a : A)
| Raise (e : exn).
Arguments Ok {A} a.
Arguments Raise {A} e.

Definition rbind {A B} (r : result A) (k : A -> result B) : result B :=
  match r with
  | Ok a => k a
  | Raise e => Raise e
  end.

(** [str(n)] for an integer. *)
Definition str_int (z : Z) : string := NilZero.string_of_int (Z.to_int z).

(** [s.split(sep)] for a one-character separator: always at least one
    token, empty tokens kept. *)
Fixpoint split (sep : ascii) (s : string) : list string :=
  match s with
  | EmptyString => [EmptyString]
  | String c s' =>
      if Ascii.eqb c sep then EmptyString :: split sep s'
      else match split sep s' with
           | [] => [String c EmptyString]
           | t :: ts => String c t :: ts
           end
  end.

Definition is_space (c : ascii) : bool :=
  let n := nat_of_ascii c in
  (Nat.eqb n 32 || (Nat.leb 9 n && Nat.leb n 13))%bool.

Fixpoint lstrip (s : string) : string :=
  match s with
  | String c s' => if is_space c then lstrip s' else s
  | EmptyString => EmptyString
  end.

Fixpoint rstrip (s : string) : string :=
  match s with
  | EmptyString => EmptyString
  | String c s' =>
      match rstrip s' with
      | EmptyString => if is_space c then EmptyString else String c EmptyString
      | t => String c t
      end
  end.

Definition strip (s : string) : string := rstrip (lstrip s).

(** [int(s)] on a string: surrounding blanks, an optional sign and
    decimal digits.  (Digit-group underscores, which Python 3.6 and later
    also accept, are not modelled.) *)
Definition parse_int (s : string) : result Z :=
  let t := strip s in
  let parsed :=
    match t with
    | String "+" t' =>
        match t' with
        | String "-" _ => None
        | _ => option_map Z.of_int (NilZero.int_of_string t')
        end
    | _ => option_map Z.of_int (NilZero.int_of_string t)
    end in
  match parsed with
  | Some z => Ok z
  | None => Raise (ValueError (String.append "invalid literal for int() with base 10: " s))
  end.

(** [sum(l)] on integers: left to right from 0. *)
Definition sum (l : list Z) : Z := fold_left Z.add l 0.

(** [max(l)] on a non-empty sequence; [ValueError] on the empty one. *)
Definition max_seq (l : list Z) : result Z :=
  match l with
  | [] => Raise (ValueError "max() arg is an empty sequence")
  | x :: l' => Ok (fold_left Z.max l' x)
  end.

(** [min(a, b)] and [max(a, b)] on numbers: the first argument wins a tie. *)
Definition min2 (a b : Q) : Q := if Qlt_le_dec b a then b else a.
Definition max2 (a b : Q) : Q := if Qlt_le_dec a b then b else a.

(** [range(n)]: empty when [n <= 0]. *)
Definition range (n : Z) : list Z := map Z.of_nat (seq 0 (Z.to_nat n)).

(** [enumerate(l)]. *)
Definition enumerate {A} (l : list A) : list (Z * A) :=
  combine (map Z.of_nat (seq 0 (List.length l))) l.

(** [sorted(l, key=lambda x: x[1])] on (index, size) pairs.  Python's sort
    is stable; insertion in front of the first element that is not
    smaller, from the right end of the list, is stable too, and a stable
    sort has only one possible output. *)
Fixpoint insert_by_snd {A} (x : A * Z) (l : list (A * Z)) : list (A * Z) :=
  match l with
  | [] => [x]
  | y :: l' => if snd x <=? snd y then x :: l else y :: insert_by_snd x l'
  end.

Definition sorted_by_snd {A} (l : list (A * Z)) : list (A * Z) :=
  fold_right insert_by_snd [] l.

(** A [dict] with string keys, as an association list; [d[k]] raises
    [KeyError] on a missing key. *)
Fixpoint dict_get {V} (d : list (string * V)) (k : string) : result V :=
  match d with
  | [] => Raise (KeyError k)
  | (k', v) :: d' => if String.eqb k k' then Ok v else dict_get d' k
  end.

(** A [dict] with integer keys. *)
Fixpoint zdict_get {V} (d : list (Z * V)) (k : Z) : result V :=
  match d with
  | [] => Raise (KeyError (str_int k))
  | (k', v) :: d' => if k =? k' then Ok v else zdict_get d' k
  end.

(** [OrderedDict.__setitem__]: an existing key keeps its position, a new
    key goes to the end. *)
Fixpoint odict_set {K V} (eqb : K -> K -> bool) (d : list (K * V))
    (k : K) (v : V) : list (K * V) :=
  match d with
  | [] => [(k, v)]
  | (k', v') :: d' =>
      if eqb k k' then (k', v) :: d' else (k', v') :: odict_set eqb d' k v
  end.

(** [OrderedDict(pairs)]. *)
Definition OrderedDict {K V} (eqb : K -> K -> bool) (pairs : list (K * V))
  : list (K * V) :=
  fold_left (fun d kv => odict_set eqb d (fst kv) (snd kv)) pairs [].

End Py.

Import Py.

(* ================================================================== *)
(** ** Data model *)
(* ================================================================== *)

(** A 2-D numeric array, position axis first, channel axis second. *)
Definition array : Type := list (list Q).

(** Arrays are objects on a heap; a location is an index into it. *)
Abbreviation loc := nat (only parsing).
Definition heap : Type := list array.

Definition deref (h : heap) (l : loc) : array := nth l h [].

(** [len(x)]: the extent of the first axis. *)
Definition len (h : heap) (x : loc) : Z := Z.of_nat (List.length (deref h x)).

(** [x[::-1, ::-1]]: both axes reversed. *)
Definition reverse_both (a : array) : array := rev (map (@rev Q) a).

(** Modelled from the spec: [core.DataTrack] and [core.TrackSet] are not
    part of the file; section 3 of the specification gives a track as a
    name, a forward list, a reverse list and the position-axis flag, and a
    track set as the collection of tracks it was built from. *)
Record DataTrack : Type := mkDataTrack {
  name : string;
  fwd_tracks : list loc;
  rev_tracks : list loc;
  has_pos_axis : bool
}.

Record TrackSet : Type := mkTrackSet { data_tracks : list DataTrack }.

(** Modelled from the spec: a seqlet (core.Seqlet is not part of the file)
    is a coordinate and a mapping from attribute key to scalar. *)
Record SeqletCoordinates : Type := mkCoor {
  example_idx : Z;
  start : Z;
  end_ : Z;
  is_revcomp : bool;
  score : Q
}.

Record Seqlet : Type := mkSeqlet {
  coor : SeqletCoordinates;
  attributes : list (string * Q)
}.

(** [seqlet[key]]. *)
Definition seqlet_getitem (s : Seqlet) (key : string) : result Q :=
  dict_get (attributes s) key.

(** Objects that [build] and [__call__] construct and hand over to the
    collaborators; each records the constructor arguments. *)
Record OverlapResolver : Type := mkOverlapResolver { overlap_detector_portion : Q }.

Record LaplaceCdfFactory : Type := mkLaplaceCdfFactory { flank_to_ignore : Z }.

Record ThresholdTransformer : Type := mkThresholdTransformer {
  tt_factory : LaplaceCdfFactory;
  tt_name : string;
  tt_track_name : string
}.

Record CoordProducer : Type := mkCoordProducer {
  cp_sliding : Z;
  cp_flank : Z;
  cp_threshold_cdf : Q;
  cp_verbose : bool
}.

Record Metaclusterer : Type := mkMetaclusterer {
  mc_min_cluster_size : Z;
  mc_threshold_for_counting_sign : Q;
  mc_weak_threshold_for_counting_sign : Q
}.

Record SeqletsToPatternsArgs : Type := mkSeqletsToPatternsArgs {
  stp_track_set : TrackSet;
  stp_onehot_track_name : string;
  stp_contrib_scores_track_names : list string;
  stp_hypothetical_contribs_track_names : list string;
  stp_track_signs : list Z;
  stp_other_comparison_track_names : list string
}.

(** A persisted tree (h5py): a group has scalar attributes, named datasets
    and named subgroups; datasets and subgroups share one name space. *)
Inductive h5data : Type :=
| H5Strings (l : list string)
| H5Ints (l : list Z)
| H5Coords (l : list SeqletCoordinates).

#[local] Set Warnings "-register-all".
Inductive h5group : Type :=
| H5Group (attrs : list (string * Z))
          (datasets : list (string * h5data))
          (groups : list (string * h5group)).

Definition empty_group : h5group := H5Group [] [] [].

Definition h5_attrs (g : h5group) : list (string * Z) :=
  match g with H5Group a _ _ => a end.
Definition h5_datasets (g : h5group) : list (string * h5data) :=
  match g with H5Group _ d _ => d end.
Definition h5_groups (g : h5group) : list (string * h5group) :=
  match g with H5Group _ _ s => s end.

(** The collaborators of the orchestrator: the stages whose algorithms
    live in other modules ([core], [coordproducers], [metaclusterers],
    [seqlets_to_patterns], [util]) and NumPy's axis sum.  Each may raise.
    What they print is not recorded. *)
Class Collaborators : Type := {
  SeqletCreationResults : Type;
  final_seqlets : SeqletCreationResults -> list Seqlet;
  MetaclusteringResults : Type;
  metacluster_indices : MetaclusteringResults -> list Z;
  metacluster_idx_to_activity_pattern :
    MetaclusteringResults -> list (Z * string);
  PatternsResult : Type;
  (** [np.sum(arrays, axis=2)] *)
  np_sum_axis2 : heap -> list loc -> result (list (list Q));
  (** [core.MultiTaskSeqletCreation(...)(...)] *)
  multitask_seqlet_creation :
    CoordProducer -> TrackSet -> OverlapResolver -> heap ->
    list (string * list (list Q)) -> list (string * ThresholdTransformer) ->
    result SeqletCreationResults;
  (** [metaclusterers.SignBasedPatternClustering(...)(attribute_vectors)] *)
  run_metaclusterer :
    Metaclusterer -> list (list Q) -> result MetaclusteringResults;
  (** [seqlets_to_patterns_factory(...)(seqlets)] *)
  seqlets_to_patterns :
    SeqletsToPatternsArgs -> heap -> list Seqlet -> result PatternsResult;
  (** the [save_hdf5] methods of the three opaque results: each fills the
      group it is handed *)
  seqlet_creation_save_hdf5 :
    SeqletCreationResults -> h5group -> result h5group;
  metaclustering_save_hdf5 :
    MetaclusteringResults -> h5group -> result h5group;
  patterns_save_hdf5 : PatternsResult -> h5group -> result h5group
}.

(* ================================================================== *)
(** ** State threaded through a call *)
(* ================================================================== *)

(** What the orchestrator itself prints, one constructor per [print]. *)
Inductive output : Type :=
| UsingLaplaceThreshold (t : Q)
| ReducingWeakThreshold (from to : Q)
| MetaclusterSizes (sizes : list Z)
| IdxToActivities (m : list (Z * string))
| OnMetacluster (idx : Z)
| MetaclusterSize (size : Z)
| RelevantTasks (names : list string)
| RelevantSigns (signs : list Z)
| NoTasksFoundRelevantSkipping.

Record world : Type := mkWorld {
  w_heap : heap;
  w_stdout : list output;
  self_coord_producer : option CoordProducer;
  self_metaclusterer : option Metaclusterer
}.

Definition M (A : Type) : Type := world -> result A * world.

Definition ret {A} (a : A) : M A := fun w => (Ok a, w).

Definition raise {A} (e : exn) : M A := fun w => (Raise e, w).

Definition bind {A B} (m : M A) (k : A -> M B) : M B :=
  fun w =>
    match m w with
    | (Ok a, w') => k a w'
    | (Raise e, w') => (Raise e, w')
    end.

Declare Scope py_scope.
Delimit Scope py_scope with py.
Notation "x <- m ;; k" := (bind m (fun x => k))
  (at level 61, m at next level, right associativity) : py_scope.
Notation "m ;; k" := (bind m (fun _ => k))
  (at level 61, right associativity) : py_scope.
Local Open Scope py_scope.

Definition lift {A} (r : result A) : M A := fun w => (r, w).

Definition get_heap : M heap := fun w => (Ok (w_heap w), w).

Definition print (o : output) : M unit :=
  fun w => (Ok tt, mkWorld (w_heap w) (w_stdout w ++ [o])
                           (self_coord_producer w) (self_metaclusterer w)).

(** A new array object; its location is the next free one. *)
Definition alloc (a : array) : M loc :=
  fun w => (Ok (List.length (w_heap w)),
            mkWorld (w_heap w ++ [a]) (w_stdout w)
                    (self_coord_producer w) (self_metaclusterer w)).

(** The world after new array objects [fresh] have been created. *)
Definition grown (w : world) (fresh : list array) : world :=
  mkWorld (w_heap w ++ fresh) (w_stdout w)
          (self_coord_producer w) (self_metaclusterer w).

Definition set_coord_producer (c : CoordProducer) : M unit :=
  fun w => (Ok tt, mkWorld (w_heap w) (w_stdout w) (Some c)
                           (self_metaclusterer w)).

Definition set_metaclusterer (c : Metaclusterer) : M unit :=
  fun w => (Ok tt, mkWorld (w_heap w) (w_stdout w)
                           (self_coord_producer w) (Some c)).

Definition assert (b : bool) (msg : string) : M unit :=
  if b then ret tt else raise (AssertionError msg).

(** A list comprehension whose element expression has effects. *)
Fixpoint mapM {A B} (f : A -> M B) (l : list A) : M (list B) :=
  match l with
  | [] => ret []
  | x :: l' => (y <- f x ;; ys <- mapM f l' ;; ret (y :: ys))
  end.

(** A [for] loop that updates one variable and stops at an exception. *)
Fixpoint foldM {A S} (f : S -> A -> M S) (s : S) (l : list A) : M S :=
  match l with
  | [] => ret s
  | x :: l' => (s' <- f s x ;; foldM f s' l')
  end.

(* ================================================================== *)
(** ** Results and configuration *)
(* ================================================================== *)

Inductive threshold_setting : Type :=
| Auto
| Given (t : Q).

(** The attributes [__init__] stores; [overlap_resolver] and
    [threshold_score_transformer_factory] are what [build] derives. *)
Record TfModiscoWorkflow : Type := mkWorkflow {
  sliding_window_size : Z;
  flank_size : Z;
  histogram_bins : Z;
  percentiles_in_bandwidth : Z;
  overlap_portion : Q;
  min_cluster_size : Z;
  laplace_threshold_cdf : threshold_setting;
  weak_threshold_for_counting_sign : option Q;
  verbose : bool
}.

Definition overlap_resolver (self : TfModiscoWorkflow) : OverlapResolver :=
  mkOverlapResolver (overlap_portion self).

Definition threshold_score_transformer_factory (self : TfModiscoWorkflow)
  : LaplaceCdfFactory :=
  mkLaplaceCdfFactory (flank_size self).

Section Workflow.

Context {C : Collaborators}.

Record SubMetaclusterResults : Type := mkSubMetaclusterResults {
  metacluster_size : Z;
  activity_pattern : list Z;
  seqlets : list Seqlet;
  seqlets_to_patterns_result : PatternsResult
}.

Record TfModiscoResults : Type := mkTfModiscoResults {
  task_names : list string;
  multitask_seqlet_creation_results : SeqletCreationResults;
  seqlet_attribute_vectors : list (list Q);
  metaclustering_results : MetaclusteringResults;
  metacluster_idx_to_submetacluster_results : list (Z * SubMetaclusterResults)
}.

(* ================================================================== *)
(** ** [TfModiscoWorkflow.__call__] *)
(* ================================================================== *)

(** *** Threshold derivation (lines 109-131) *)

Definition total_num (self : TfModiscoWorkflow) (h : heap)
    (one_hot : list loc) : Z :=
  Py.sum (map (fun x => 1 + len h x - sliding_window_size self) one_hot).

Definition auto_threshold (mcs total : Z) : Q :=
  max2 (min2 0.99 (1 - (inject_Z mcs / inject_Z total)))
       (1 - (inject_Z 500 / inject_Z total)).

Definition derive_laplace_threshold (self : TfModiscoWorkflow)
    (one_hot : list loc) : M Q :=
  match laplace_threshold_cdf self with
  | Auto =>
      h <- get_heap ;;
      let total := total_num self h one_hot in
      assert (total >? min_cluster_size self)
             (String.append "Increase min_cluster_size "
                            (str_int (min_cluster_size self))) ;;
      if total =? 0 then raise ZeroDivisionError
      else ret (auto_threshold (min_cluster_size self) total)
  | Given t => ret t
  end.

Definition resolve_weak_threshold (self : TfModiscoWorkflow) (laplace : Q)
  : M Q :=
  let weak := match weak_threshold_for_counting_sign self with
              | None => laplace
              | Some w => w
              end in
  if Qlt_le_dec laplace weak
  then (print (ReducingWeakThreshold weak laplace) ;; ret laplace)
  else ret weak.

(** *** Track construction (lines 148-171) *)

(** [[x[::-1, ::-1] for x in xs]]: one new array object per element. *)
Definition reversed (xs : list loc) : M (list loc) :=
  mapM (fun x => h <- get_heap ;; alloc (reverse_both (deref h x))) xs.

Definition scores_track (suffix : string)
    (scores : list (string * list loc)) (key : string) : M DataTrack :=
  fwd <- lift (dict_get scores key) ;;
  xs <- lift (dict_get scores key) ;;
  rev_ <- reversed xs ;;
  ret (mkDataTrack (String.append key suffix) fwd rev_ true).

Definition build_track_set (task_names : list string)
    (contrib_scores hypothetical_contribs : list (string * list loc))
    (one_hot : list loc) : M TrackSet :=
  contrib_scores_tracks <-
    mapM (scores_track "_contrib_scores" contrib_scores) task_names ;;
  hypothetical_contribs_tracks <-
    mapM (scores_track "_hypothetical_contribs" hypothetical_contribs)
         task_names ;;
  rev_ <- reversed one_hot ;;
  let onehot_track := mkDataTrack "sequence" one_hot rev_ true in
  ret (mkTrackSet (contrib_scores_tracks ++ hypothetical_contribs_tracks
                   ++ [onehot_track])).

(** *** Seqlet creation and the attribute matrix (lines 173-194) *)

Definition per_position_contrib_scores (task_names : list string)
    (contrib_scores : list (string * list loc))
  : M (list (string * list (list Q))) :=
  pairs <- mapM (fun x =>
                   arrs <- lift (dict_get contrib_scores x) ;;
                   h <- get_heap ;;
                   s <- lift (np_sum_axis2 h arrs) ;;
                   ret (x, s)) task_names ;;
  ret (OrderedDict String.eqb pairs).

Definition task_name_to_threshold_transformer (self : TfModiscoWorkflow)
    (task_names : list string) : list (string * ThresholdTransformer) :=
  OrderedDict String.eqb
    (map (fun task_name =>
            (task_name,
             mkThresholdTransformer
               (threshold_score_transformer_factory self)
               (String.append task_name "_label")
               (String.append task_name "_contrib_scores")))
         task_names).

Definition attribute_vectors (task_names : list string)
    (seqlets : list Seqlet) : M (list (list Q)) :=
  mapM (fun x =>
          mapM (fun key =>
                  lift (seqlet_getitem x (String.append key "_label")))
               task_names)
       seqlets.

(** *** Per-metacluster dispatch (lines 201-250) *)

(** [np.sum(metacluster_idx == metacluster_indices)] *)
Definition count_eq (idx : Z) (indices : list Z) : Z :=
  Z.of_nat (List.length (filter (fun i => idx =? i) indices)).

(** Lines 223-225: the (name, sign) pairs with a nonzero sign are
    transposed by [zip] with a starred argument and the outcome is unpacked
    into two targets.  The unpacking needs exactly two items; the transpose
    of one or more pairs has two, and [zip()] of no arguments has none. *)
Definition unpack_relevant (task_names : list string) (activities : list Z)
  : result (list string * list Z) :=
  match filter (fun x => negb (snd x =? 0)) (combine task_names activities) with
  | [] => Raise (ValueError "not enough values to unpack (expected 2, got 0)")
  | l => Ok (map fst l, map snd l)
  end.

Definition process_metacluster (task_names : list string)
    (track_set : TrackSet) (seqlets : list Seqlet)
    (mr : MetaclusteringResults)
    (acc : list (Z * SubMetaclusterResults)) (p : Z * Z)
  : M (list (Z * SubMetaclusterResults)) :=
  let metacluster_idx := fst p in
  let metacluster_size := snd p in
  print (OnMetacluster metacluster_idx) ;;
  print (MetaclusterSize metacluster_size) ;;
  pattern <- lift (zdict_get (metacluster_idx_to_activity_pattern mr)
                             metacluster_idx) ;;
  metacluster_activities <-
    mapM (fun x => lift (parse_int x)) (split "," pattern) ;;
  assert (Nat.eqb (List.length seqlets)
                  (List.length (metacluster_indices mr))) "" ;;
  let metacluster_seqlets :=
    map fst (filter (fun x => snd x =? metacluster_idx)
                    (combine seqlets (metacluster_indices mr))) in
  rel <- lift (unpack_relevant task_names metacluster_activities) ;;
  let relevant_task_names := fst rel in
  let relevant_task_signs := snd rel in
  print (RelevantTasks relevant_task_names) ;;
  print (RelevantSigns relevant_task_signs) ;;
  if Nat.eqb (List.length relevant_task_names) 0
  then (print NoTasksFoundRelevantSkipping ;; ret acc)
  else
    (h <- get_heap ;;
     seqlets_to_patterns_result <-
       lift (seqlets_to_patterns
               (mkSeqletsToPatternsArgs
                  track_set "sequence"
                  (map (fun key => String.append key "_contrib_scores")
                       relevant_task_names)
                  (map (fun key => String.append key "_hypothetical_contribs")
                       relevant_task_names)
                  relevant_task_signs [])
               h metacluster_seqlets) ;;
     ret (odict_set Z.eqb acc metacluster_idx
            (mkSubMetaclusterResults metacluster_size metacluster_activities
               metacluster_seqlets seqlets_to_patterns_result))).

(** *** The whole call

    [__call__] is one method; it is cut here at its stage boundaries:
    [configure] is lines 109-146, [build_track_set] lines 148-171 and
    [discover] lines 173-259. *)

Definition configure (self : TfModiscoWorkflow) (one_hot : list loc)
  : M (CoordProducer * Metaclusterer) :=
  laplace <- derive_laplace_threshold self one_hot ;;
  print (UsingLaplaceThreshold laplace) ;;
  weak <- resolve_weak_threshold self laplace ;;
  let coord_producer :=
    mkCoordProducer (sliding_window_size self) (flank_size self) laplace
                    (verbose self) in
  set_coord_producer coord_producer ;;
  let metaclusterer :=
    mkMetaclusterer (min_cluster_size self) laplace weak in
  set_metaclusterer metaclusterer ;;
  ret (coord_producer, metaclusterer).

Definition discover (self : TfModiscoWorkflow) (task_names : list string)
    (contrib_scores : list (string * list loc)) (track_set : TrackSet)
    (coord_producer : CoordProducer) (metaclusterer : Metaclusterer)
  : M TfModiscoResults :=
  scores <- per_position_contrib_scores task_names contrib_scores ;;
  h <- get_heap ;;
  creation <- lift (multitask_seqlet_creation coord_producer track_set
                      (overlap_resolver self) h scores
                      (task_name_to_threshold_transformer self task_names)) ;;
  let seqlets := final_seqlets creation in
  vectors <- attribute_vectors task_names seqlets ;;
  mr <- lift (run_metaclusterer metaclusterer vectors) ;;
  top <- lift (max_seq (metacluster_indices mr)) ;;
  let num_metaclusters := top + 1 in
  let metacluster_sizes :=
    map (fun idx => count_eq idx (metacluster_indices mr))
        (range num_metaclusters) in
  (if verbose self
   then (print (MetaclusterSizes metacluster_sizes) ;;
         print (IdxToActivities (metacluster_idx_to_activity_pattern mr)))
   else ret tt) ;;
  results <- foldM (process_metacluster task_names track_set seqlets mr)
                   [] (sorted_by_snd (enumerate metacluster_sizes)) ;;
  ret (mkTfModiscoResults task_names creation vectors mr results).

Definition call (self : TfModiscoWorkflow) (task_names : list string)
    (contrib_scores hypothetical_contribs : list (string * list loc))
    (one_hot : list loc) : M TfModiscoResults :=
  made <- configure self one_hot ;;
  track_set <- build_track_set task_names contrib_scores
                               hypothetical_contribs one_hot ;;
  discover self task_names contrib_scores track_set (fst made) (snd made).

End Workflow.

(* ================================================================== *)
(** ** Persistence: the two [save_hdf5] methods *)
(* ================================================================== *)

Module H5.

Definition name_taken (g : h5group) (n : string) : bool :=
  (existsb (fun kv => String.eqb n (fst kv)) (h5_datasets g)
   || existsb (fun kv => String.eqb n (fst kv)) (h5_groups g))%bool.

(** [grp.attrs[key] = value] *)
Definition set_attr (g : h5group) (key : string) (value : Z) : h5group :=
  H5Group (odict_set String.eqb (h5_attrs g) key value)
          (h5_datasets g) (h5_groups g).

(** [grp.create_dataset(name, data=...)]: the name must be free. *)
Definition create_dataset (g : h5group) (n : string) (data : h5data)
  : result h5group :=
  if name_taken g n
  then Raise (ValueError "Unable to create dataset (name already exists)")
  else Ok (H5Group (h5_attrs g) (h5_datasets g ++ [(n, data)]) (h5_groups g)).

(** [fill(grp.create_group(name))]: the name must be free; the new group
    starts empty and [fill] writes through the handle it receives. *)
Definition create_group (g : h5group) (n : string)
    (fill : h5group -> result h5group) : result h5group :=
  if name_taken g n
  then Raise (ValueError "Unable to create group (name already exists)")
  else rbind (fill empty_group)
         (fun child =>
            Ok (H5Group (h5_attrs g) (h5_datasets g)
                        (h5_groups g ++ [(n, child)]))).

(** Modelled from the spec: [util.save_string_list] and
    [util.save_seqlet_coords] are not part of the file; the layout of
    section 6 has [task_names] as an ordered string list and [seqlets] as
    an ordered coordinate list. *)
Definition save_string_list (string_list : list string) (dset_name : string)
    (grp : h5group) : result h5group :=
  create_dataset grp dset_name (H5Strings string_list).

Definition save_seqlet_coords (seqlets : list Seqlet) (dset_name : string)
    (grp : h5group) : result h5group :=
  create_dataset grp dset_name (H5Coords (map coor seqlets)).

End H5.

Section Persistence.

Context {C : Collaborators}.

(** [SubMetaclusterResults.save_hdf5] (lines 60-66) *)
Definition sub_save_hdf5 (self : SubMetaclusterResults) (grp : h5group)
  : result h5group :=
  let grp := H5.set_attr grp "size" (metacluster_size self) in
  rbind (H5.create_dataset grp "activity_pattern"
                           (H5Ints (activity_pattern self)))
    (fun grp =>
  rbind (H5.save_seqlet_coords (seqlets self) "seqlets" grp)
    (fun grp =>
  H5.create_group grp "seqlets_to_patterns_result"
    (patterns_save_hdf5 (seqlets_to_patterns_result self)))).

Definition metacluster_group_name (idx : Z) : string :=
  String.append "metacluster" (str_int idx).

(** The loop of lines 45-48 over the keys of the ordered mapping. *)
Fixpoint save_submetaclusters (entries : list (Z * SubMetaclusterResults))
    (grp : h5group) : result h5group :=
  match entries with
  | [] => Ok grp
  | (idx, r) :: rest =>
      rbind (H5.create_group grp (metacluster_group_name idx)
                             (sub_save_hdf5 r))
            (save_submetaclusters rest)
  end.

(** [TfModiscoResults.save_hdf5] (lines 35-48) *)
Definition save_hdf5 (self : TfModiscoResults) (grp : h5group)
  : result h5group :=
  rbind (H5.save_string_list (task_names self) "task_names" grp)
    (fun grp =>
  rbind (H5.create_group grp "multitask_seqlet_creation_results"
           (seqlet_creation_save_hdf5
              (multitask_seqlet_creation_results self)))
    (fun grp =>
  rbind (H5.create_group grp "metaclustering_results"
           (metaclustering_save_hdf5 (metaclustering_results self)))
    (fun grp =>
  H5.create_group grp "metacluster_idx_to_submetacluster_results"
    (save_submetaclusters
       (metacluster_idx_to_submetacluster_results self))))).

(** Modelled from the spec: the file has no reader.  Reloading the
    structural shape follows the layout of section 6: the [task_names]
    dataset, and one entry per subgroup of
    [metacluster_idx_to_submetacluster_results], keyed by the index in the
    group name, with the [size] attribute and the [activity_pattern]
    dataset. *)
Fixpoint strip_prefix (p s : string) : option string :=
  match p, s with
  | EmptyString, _ => Some s
  | String a p', String b s' =>
      if Ascii.eqb a b then strip_prefix p' s' else None
  | _, _ => None
  end.

Definition find_by_name {V} (l : list (string * V)) (n : string) : option V :=
  option_map snd (find (fun kv => String.eqb n (fst kv)) l).

Definition index_of_group_name (n : string) : option Z :=
  match strip_prefix "metacluster" n with
  | Some digits => option_map Z.of_int (NilZero.int_of_string digits)
  | None => None
  end.

Definition load_submetacluster (m : string * h5group)
  : option (Z * (Z * list Z)) :=
  match index_of_group_name (fst m),
        find_by_name (h5_attrs (snd m)) "size",
        find_by_name (h5_datasets (snd m)) "activity_pattern" with
  | Some idx, Some size, Some (H5Ints pattern) => Some (idx, (size, pattern))
  | _, _, _ => None
  end.

Fixpoint load_all {A B} (f : A -> option B) (l : list A) : option (list B) :=
  match l with
  | [] => Some []
  | x :: l' =>
      match f x, load_all f l' with
      | Some y, Some ys => Some (y :: ys)
      | _, _ => None
      end
  end.

Definition load_structure (root : h5group)
  : option (list string * list (Z * (Z * list Z))) :=
  match find_by_name (h5_datasets root) "task_names",
        find_by_name (h5_groups root)
                     "metacluster_idx_to_submetacluster_results" with
  | Some (H5Strings names), Some container =>
      option_map (fun entries => (names, entries))
                 (load_all load_submetacluster (h5_groups container))
  | _, _ => None
  end.

End Persistence.

(* ================================================================== *)
(** ** The specification's wording of the window count and threshold *)
(* ================================================================== *)

(** Section 4.1 of the specification: every sequence contributes
    [max(0, 1 + sequence_length - window_size)] windows. *)
Definition spec_total_windows (window : Z) (h : heap) (one_hot : list loc)
  : Z :=
  fold_right Z.add 0 (map (fun x => Z.max 0 (1 + len h x - window)) one_hot).

(** Section 4.1: [max(min(0.99, 1 - min_cluster_size/T), 1 - 500/T)]. *)
Definition spec_auto_threshold (mcs T : Z) : Q :=
  Qmax (Qmin 0.99 (1 - inject_Z mcs / inject_Z T)) (1 - inject_Z 500 / inject_Z T).

(** The seqlets of one metacluster, in the words of the claim: the
    elements of [seqlets] whose index in [indices] is [idx], in the order
    in which they occur. *)
Fixpoint select_by_index (idx : Z) (seqlets : list Seqlet)
    (indices : list Z) : list Seqlet :=
  match seqlets, indices with
  | s :: seqlets', i :: indices' =>
      if i =? idx then s :: select_by_index idx seqlets' indices'
      else select_by_index idx seqlets' indices'
  | _, _ => []
  end.

(** The metaclusters that a run has started to process, in order, as
    read off what it printed. *)
Definition visited (out : list output) : list Z :=
  flat_map (fun o => match o with OnMetacluster i => [i] | _ => [] end) out.

(* ================================================================== *)
(** ** Scripted collaborators and concrete inputs *)
(* ================================================================== *)

(** Collaborators that replay a script: seqlet creation returns the given
    seqlets, the metaclusterer the given indices and activity patterns,
    pattern discovery hands back the seqlets it received, and the opaque
    results persist nothing. *)
Module Scripted.

Record script : Type := mkScript {
  script_seqlets : list Seqlet;
  script_indices : list Z;
  script_patterns : list (Z * string)
}.

Definition channel_sums (h : heap) (arrs : list loc)
  : result (list (list Q)) :=
  Ok (map (fun x => map (fun row => fold_right Qplus 0%Q row) (deref h x))
          arrs).

Definition collaborators (s : script) : Collaborators := {|
  SeqletCreationResults := list Seqlet;
  final_seqlets := fun r => r;
  MetaclusteringResults := list Z * list (Z * string);
  metacluster_indices := fst;
  metacluster_idx_to_activity_pattern := snd;
  PatternsResult := list Seqlet;
  np_sum_axis2 := channel_sums;
  multitask_seqlet_creation := fun _ _ _ _ _ _ => Ok (script_seqlets s);
  run_metaclusterer := fun _ _ => Ok (script_indices s, script_patterns s);
  seqlets_to_patterns := fun _ _ seqs => Ok seqs;
  seqlet_creation_save_hdf5 := fun _ g => Ok g;
  metaclustering_save_hdf5 := fun _ g => Ok g;
  patterns_save_hdf5 := fun _ g => Ok g
|}.

(** An array of [n] positions over four channels. *)
Definition track (n : nat) : array :=
  map (fun i => [inject_Z (Z.of_nat i); 0%Q; 0%Q; 2%Q]) (seq 1 n).

Definition seqlet_at (i s : Z) (labels : list (string * Q)) : Seqlet :=
  mkSeqlet (mkCoor i s (s + 3) false 1%Q) labels.

(** A fresh workflow object: nothing printed, nothing assigned yet. *)
Definition fresh (h : heap) : world := mkWorld h [] None None.

(** The defaults of [__init__]: window 21, flank 10, minimum cluster
    size 100, automatic threshold, weak threshold 0.99. *)
Definition default_workflow : TfModiscoWorkflow :=
  mkWorkflow 21 10 100 10 (1 # 2) 100 Auto (Some 0.99%Q) true.

(** Ten one-hot sequences of length 50. *)
Definition ten_sequences : heap := repeat (track 50) 10.
Definition ten_one_hot : list loc := seq 0 10.

(** One task, three sequences of five positions, window 3. *)
Definition small_heap : heap :=
  [track 5; track 5; track 5; track 5; track 5; track 5;
   track 5; track 5; track 5].

Definition small_workflow (t : threshold_setting) (mcs : Z)
  : TfModiscoWorkflow :=
  mkWorkflow 3 1 100 10 (1 # 2) mcs t (Some 0.99%Q) true.

Definition small_contribs : list (string * list loc) :=
  [("task0", [0%nat; 1%nat; 2%nat])].
Definition small_hypothetical : list (string * list loc) :=
  [("task0", [3%nat; 4%nat; 5%nat])].
Definition small_one_hot : list loc := [6%nat; 7%nat; 8%nat].

(** Three seqlets; the metaclusterer puts the first and the third into
    metacluster 0 and the second into metacluster 1. *)
Definition three_seqlets : list Seqlet :=
  [seqlet_at 0 0 [("task0_label", 0.5%Q)];
   seqlet_at 1 1 [("task0_label", 0.75%Q)];
   seqlet_at 2 0 [("task0_label", (-0.5)%Q)]].

(** Both metaclusters active on the task. *)
Definition active_script : script :=
  mkScript three_seqlets [0; 1; 0] [(0, "1"); (1, "-1")].

(** Metacluster 1 has the all-zero activity pattern. *)
Definition silent_script : script :=
  mkScript three_seqlets [0; 1; 0] [(0, "1"); (1, "0")].

(** The two runs used as examples below. *)
Abbreviation active_run :=
  (@call (collaborators active_script) (small_workflow Auto 2) ["task0"]
         small_contribs small_hypothetical small_one_hot (fresh small_heap)).

Abbreviation silent_run :=
  (@call (collaborators silent_script) (small_workflow Auto 2) ["task0"]
         small_contribs small_hypothetical small_one_hot (fresh small_heap)).

(** What the first run returns. *)
Definition active_results : @TfModiscoResults (collaborators active_script) :=
  Eval vm_compute in
    match fst active_run with
    | Ok r => r
    | Raise _ =>
        @mkTfModiscoResults (collaborators active_script) [] [] [] ([], []) []
    end.

End Scripted.

(* ================================================================== *)
(** ** Vocabulary of the statements *)
(* ================================================================== *)

(** [keeps R m]: the world after [m], whether it returns or raises, is
    related to the world before by [R]. *)
Definition keeps (R : world -> world -> Prop) {A} (m : M A) : Prop :=
  forall w, R w (snd (m w)).

(** The order the loop sorts by: the second component, the size. *)
Definition by_size {A} (a b : A * Z) : Prop := snd a <= snd b.

(** What the later stages leave alone on the workflow object, and that
    they only add to what was printed. *)
Definition configured_alike (a b : world) : Prop :=
  self_coord_producer b = self_coord_producer a /\
  self_metaclusterer b = self_metaclusterer a /\
  exists more, w_stdout b = w_stdout a ++ more.

(** The only change is a block of new array objects at the end of the
    heap. *)
Definition only_allocates (a b : world) : Prop :=
  exists fresh : list array, b = grown a fresh.

(** Nothing was added to the metaclusters announced so far. *)
Definition same_visits (a b : world) : Prop :=
  visited (w_stdout b) = visited (w_stdout a).

(** A track whose reverse arrays mirror its forward arrays in heap [h]. *)
Definition mirrored (h : heap) (tr : DataTrack) : Prop :=
  Forall2 (fun x y =>
             (x < List.length h)%nat /\ (y < List.length h)%nat /\
             deref h y = reverse_both (deref h x))
          (fwd_tracks tr) (rev_tracks tr).

(** Every task name is a key of [scores], and the arrays it maps to are
    live objects of heap [h]. *)
Definition keys_resolve (h : heap) (scores : list (string * list loc))
    (task_names : list string) : Prop :=
  Forall (fun t => exists xs, dict_get scores t = Ok xs /\
                              Forall (fun x => (x < List.length h)%nat) xs)
         task_names.

(** What one comprehension over the task names builds. *)
Definition built_from (suffix : string) (scores : list (string * list loc))
    (h : heap) (t : string) (tr : DataTrack) : Prop :=
  name tr = String.append t suffix /\
  dict_get scores t = Ok (fwd_tracks tr) /\
  has_pos_axis tr = true /\
  mirrored h tr.


(** Row [i] of the matrix is seqlet [i] seen through the keys
    ["<task>_label"], in the order of the task names. *)
Definition row_of (task_names : list string) (s : Seqlet) (row : list Q)
  : Prop :=
  Forall2 (fun t v => seqlet_getitem s (String.append t "_label") = Ok v)
          task_names row.

Section Vocabulary.

Context {C : Collaborators}.

(** The sizes the loop iterates over. *)
Definition metacluster_sizes (mr : MetaclusteringResults) (top : Z) : list Z :=
  map (fun idx => count_eq idx (metacluster_indices mr)) (range (top + 1)).

(** What a metacluster leaves in the result when its step returns. *)
Definition dispatched (all_seqlets : list Seqlet)
    (mr : MetaclusteringResults) (p : Z * Z)
    (e : Z * SubMetaclusterResults) : Prop :=
  fst e = fst p /\
  metacluster_size (snd e) = snd p /\
  seqlets (snd e)
  = select_by_index (fst p) all_seqlets (metacluster_indices mr) /\
  List.length all_seqlets = List.length (metacluster_indices mr) /\
  (exists pattern,
      zdict_get (metacluster_idx_to_activity_pattern mr) (fst p) = Ok pattern /\
      Forall2 (fun token a => parse_int token = Ok a)
              (split "," pattern) (activity_pattern (snd e))) /\
  Exists (fun a => a <> 0) (activity_pattern (snd e)).

(** The group that [SubMetaclusterResults.save_hdf5] leaves behind, given
    what the pattern-discovery result wrote into its own subgroup. *)
Definition saved_submetacluster (r : SubMetaclusterResults) (g : h5group)
  : h5group :=
  H5Group [("size", metacluster_size r)]
          [("activity_pattern", H5Ints (activity_pattern r));
           ("seqlets", H5Coords (map coor (seqlets r)))]
          [("seqlets_to_patterns_result", g)].

(** The named member that one entry of the mapping becomes. *)
Definition saved_member (em : (Z * SubMetaclusterResults) * h5group)
  : string * h5group :=
  (metacluster_group_name (fst (fst em)),
   saved_submetacluster (snd (fst em)) (snd em)).

(** The structural shape of one entry. *)
Definition shape_of (e : Z * SubMetaclusterResults) : Z * (Z * list Z) :=
  (fst e, (metacluster_size (snd e), activity_pattern (snd e))).

End Vocabulary.

(** Sizes first, the metacluster index between equal sizes. *)
Definition by_size_then_index (a b : Z * Z) : Prop :=
  snd a < snd b \/ (snd a = snd b /\ fst a < fst b).

(** The names and signs that lines 223-225 select from a parsed activity
    pattern: the tasks with a nonzero sign, in task order. *)
Definition relevant_task_names (task_names : list string)
    (activities : list Z) : list string :=
  map fst (filter (fun x => negb (snd x =? 0)) (combine task_names activities)).

Definition relevant_task_signs (task_names : list string)
    (activities : list Z) : list Z :=
  map snd (filter (fun x => negb (snd x =? 0)) (combine task_names activities)).

(** The arguments of lines 234-242 for a metacluster with the given
    parsed activity pattern. *)
Definition scoped_args (track_set : TrackSet) (task_names : list string)
    (activities : list Z) : SeqletsToPatternsArgs :=
  mkSeqletsToPatternsArgs
    track_set "sequence"
    (map (fun key => String.append key "_contrib_scores")
         (relevant_task_names task_names activities))
    (map (fun key => String.append key "_hypothetical_contribs")
         (relevant_task_names task_names activities))
    (relevant_task_signs task_names activities) [].

(** Modelled from the spec: the metaclusterer is not part of the file;
    section 3 of the specification gives an activity pattern as the
    comma-separated string of the per-task signed integers. *)
Definition join_ints (l : list Z) : string :=
  String.concat "," (map str_int l).

(** The skip message of line 230 was not printed in between. *)
Definition same_skips (a b : world) : Prop :=
  In NoTasksFoundRelevantSkipping (w_stdout b) ->
  In NoTasksFoundRelevantSkipping (w_stdout a).

(** What the threshold stage prints after the threshold itself: the
    reduction of the weak threshold, when there is one. *)
Definition reduction_lines (self : TfModiscoWorkflow) (t : Q) : list output :=
  match weak_threshold_for_counting_sign self with
  | Some s => if Qlt_le_dec t s then [ReducingWeakThreshold s t] else []
  | None => []
  end.

Section Transcript_vocabulary.

Context {C : Collaborators}.

(** The four lines that the loop prints for a metacluster that ends up
    as entry [e] (lines 213-214 and 226-227). *)
Definition entry_lines (task_names : list string)
    (e : Z * SubMetaclusterResults) : list output :=
  [OnMetacluster (fst e);
   MetaclusterSize (metacluster_size (snd e));
   RelevantTasks (relevant_task_names task_names (activity_pattern (snd e)));
   RelevantSigns (relevant_task_signs task_names (activity_pattern (snd e)))].

(** The two lines of lines 205-206, printed only when [verbose] is set. *)
Definition verbose_lines (self : TfModiscoWorkflow)
    (mr : MetaclusteringResults) (top : Z) : list output :=
  if verbose self
  then [MetaclusterSizes (metacluster_sizes mr top);
        IdxToActivities (metacluster_idx_to_activity_pattern mr)]
  else [].

End Transcript_vocabulary.

(** The heap is the same. *)
Definition same_heap (a b : world) : Prop := w_heap b = w_heap a.

(** Characters that are neither blank, nor a comma, nor a plus sign. *)
Definition plain_char (c : ascii) : Prop :=
  is_space c = false /\ Ascii.eqb c "," = false /\ c <> "+"%char.

(* ================================================================== *)
(** * Properties *)
(* ================================================================== *)

Local Open Scope py_scope.

(** ** The state-and-exception monad *)

Lemma bind_ok_inv {A B} (m : M A) (k : A -> M B) w b w' :
  bind m k w = (Ok b, w') ->
  exists a w1, m w = (Ok a, w1) /\ k a w1 = (Ok b, w').
Proof.
  unfold bind. destruct (m w) as [[a | e] w1]; intros H.
  - exists a, w1. split; [reflexivity | exact H].
  - discriminate H.
Qed.

Lemma bind_raise {A B} (m : M A) (k : A -> M B) w e w' :
  m w = (Raise e, w') -> bind m k w = (Raise e, w').
Proof. unfold bind. intros ->. reflexivity. Qed.

Lemma bind_ok {A B} (m : M A) (k : A -> M B) w a w1 :
  m w = (Ok a, w1) -> bind m k w = k a w1.
Proof. unfold bind. intros ->. reflexivity. Qed.

Lemma lift_ok_inv {A} (r : result A) w a w' :
  lift r w = (Ok a, w') -> r = Ok a /\ w' = w.
Proof. unfold lift. intros H. inversion H. split; reflexivity. Qed.

Lemma assert_ok_inv b msg w u w' :
  assert b msg w = (Ok u, w') -> b = true /\ w' = w.
Proof.
  unfold assert. destruct b; cbn; intros H; inversion H. split; reflexivity.
Qed.

(** ** Arithmetic of the threshold *)

Lemma sum_fold_right (l : list Z) : Py.sum l = fold_right Z.add 0 l.
Proof.
  unfold Py.sum.
  assert (G : forall a, fold_left Z.add l a = a + fold_right Z.add 0 l).
  { induction l as [| x l IH]; intros a; cbn.
    - lia.
    - rewrite IH. lia. }
  rewrite G. lia.
Qed.

Lemma total_num_le_spec self h one_hot :
  total_num self h one_hot
  <= spec_total_windows (sliding_window_size self) h one_hot.
Proof.
  unfold total_num, spec_total_windows. rewrite sum_fold_right.
  induction one_hot as [| x l IH]; cbn [map fold_right]; lia.
Qed.

Lemma total_num_eq_spec self h one_hot :
  Forall (fun x => sliding_window_size self - 1 <= len h x) one_hot ->
  total_num self h one_hot
  = spec_total_windows (sliding_window_size self) h one_hot.
Proof.
  unfold total_num, spec_total_windows. rewrite sum_fold_right.
  induction 1 as [| x l Hx _ IH]; cbn [map fold_right].
  - reflexivity.
  - rewrite IH. lia.
Qed.

Lemma total_num_uniform self h one_hot n :
  Forall (fun x => len h x = n) one_hot ->
  total_num self h one_hot
  = Z.of_nat (List.length one_hot) * (1 + n - sliding_window_size self).
Proof.
  unfold total_num. rewrite sum_fold_right.
  induction 1 as [| x l Hx _ IH].
  - cbn. lia.
  - cbn [map fold_right List.length]. rewrite IH, Hx. lia.
Qed.

Lemma min2_Qmin a b : (min2 a b == Qmin a b)%Q.
Proof.
  unfold min2. destruct (Qlt_le_dec b a) as [H | H].
  - symmetry. apply Q.min_r. apply Qlt_le_weak. exact H.
  - symmetry. apply Q.min_l. exact H.
Qed.

Lemma max2_Qmax a b : (max2 a b == Qmax a b)%Q.
Proof.
  unfold max2. destruct (Qlt_le_dec a b) as [H | H].
  - symmetry. apply Q.max_r. apply Qlt_le_weak. exact H.
  - symmetry. apply Q.max_l. exact H.
Qed.

Lemma auto_threshold_spec mcs T :
  (auto_threshold mcs T == spec_auto_threshold mcs T)%Q.
Proof.
  unfold auto_threshold, spec_auto_threshold.
  rewrite max2_Qmax. rewrite min2_Qmin. reflexivity.
Qed.

(** ** Threshold derivation *)

Lemma derive_auto_ok self one_hot w :
  laplace_threshold_cdf self = Auto ->
  min_cluster_size self < total_num self (w_heap w) one_hot ->
  total_num self (w_heap w) one_hot <> 0 ->
  derive_laplace_threshold self one_hot w
  = (Ok (auto_threshold (min_cluster_size self)
                        (total_num self (w_heap w) one_hot)), w).
Proof.
  intros HA Hlt Hnz. unfold derive_laplace_threshold. rewrite HA.
  unfold bind, get_heap, assert. cbn.
  destruct (Z.gtb_spec (total_num self (w_heap w) one_hot)
                       (min_cluster_size self)) as [_ | Hle]; [| lia].
  cbn. destruct (Z.eqb_spec (total_num self (w_heap w) one_hot) 0); [lia |].
  reflexivity.
Qed.

Lemma derive_auto_fails self one_hot w :
  laplace_threshold_cdf self = Auto ->
  total_num self (w_heap w) one_hot <= min_cluster_size self ->
  derive_laplace_threshold self one_hot w
  = (Raise (AssertionError
              (String.append "Increase min_cluster_size "
                             (str_int (min_cluster_size self)))), w).
Proof.
  intros HA Hle. unfold derive_laplace_threshold. rewrite HA.
  unfold bind, get_heap, assert. cbn.
  destruct (Z.gtb_spec (total_num self (w_heap w) one_hot)
                       (min_cluster_size self)) as [Hgt | _]; [lia |].
  reflexivity.
Qed.

Lemma derive_given self one_hot w t :
  laplace_threshold_cdf self = Given t ->
  derive_laplace_threshold self one_hot w = (Ok t, w).
Proof.
  intros HG. unfold derive_laplace_threshold. rewrite HG. reflexivity.
Qed.

(** C2, amended.  With the automatic setting, [T] is the plain sum of
    [1 + sequence_length - window_size] over the input sequences, with no
    clamping at zero; whenever the size check passes, the derived
    threshold is [max(min(0.99, 1 - min_cluster_size/T), 1 - 500/T)].  The
    plain sum is the clamped sum of the specification as soon as no
    sequence is shorter than the window minus one, and for ten sequences
    of length 50, window 21 and minimum cluster size 100 it is 300 and the
    threshold is 2/3, that is 0.667 to three decimals. *)
Theorem auto_threshold_formula :
  forall (self : TfModiscoWorkflow) (one_hot : list loc) (w : world),
    laplace_threshold_cdf self = Auto ->
    min_cluster_size self < total_num self (w_heap w) one_hot ->
    total_num self (w_heap w) one_hot <> 0 ->
    exists t : Q,
      derive_laplace_threshold self one_hot w = (Ok t, w) /\
      (t == spec_auto_threshold (min_cluster_size self)
                                (total_num self (w_heap w) one_hot))%Q /\
      (Forall (fun x => sliding_window_size self - 1 <= len (w_heap w) x)
              one_hot ->
       total_num self (w_heap w) one_hot
       = spec_total_windows (sliding_window_size self) (w_heap w) one_hot) /\
      (sliding_window_size self = 21 -> min_cluster_size self = 100 ->
       List.length one_hot = 10%nat ->
       Forall (fun x => len (w_heap w) x = 50) one_hot ->
       total_num self (w_heap w) one_hot = 300 /\
       (t == 2 # 3)%Q /\ (0.6665 <= t)%Q /\ (t < 0.6675)%Q).
Proof.
  intros self one_hot w HA Hlt Hnz.
  exists (auto_threshold (min_cluster_size self)
                         (total_num self (w_heap w) one_hot)).
  split; [apply derive_auto_ok; assumption |].
  split; [apply auto_threshold_spec |].
  split; [apply total_num_eq_spec |].
  intros Hw Hm Hlen Hall.
  assert (HT : total_num self (w_heap w) one_hot = 300).
  { rewrite (total_num_uniform self (w_heap w) one_hot 50 Hall).
    rewrite Hlen, Hw. reflexivity. }
  rewrite HT, Hm.
  assert (E : (auto_threshold 100 300 == 2 # 3)%Q) by (vm_compute; reflexivity).
  split; [reflexivity |].
  split; [exact E |].
  rewrite E. split; [discriminate | reflexivity].
Qed.

Lemma auto_threshold_formula_witness :
  exists t : Q,
    derive_laplace_threshold Scripted.default_workflow Scripted.ten_one_hot
      (Scripted.fresh Scripted.ten_sequences)
    = (Ok t, Scripted.fresh Scripted.ten_sequences) /\
    (t == 2 # 3)%Q.
Proof.
  destruct (auto_threshold_formula Scripted.default_workflow
              Scripted.ten_one_hot (Scripted.fresh Scripted.ten_sequences))
    as (t & Hrun & _ & _ & Hex).
  - reflexivity.
  - vm_compute. reflexivity.
  - vm_compute. discriminate.
  - exists t. split; [exact Hrun |].
    apply Hex.
    + reflexivity.
    + reflexivity.
    + reflexivity.
    + repeat constructor.
Defined.

(** C2 as worded fails: a sequence shorter than the window minus one
    lowers the count the code uses.  Window 3, sequences of lengths 1 and
    30, minimum cluster size 2: the code counts 27 windows and derives
    25/27, the clamped count is 28 and would give 13/14. *)
Lemma auto_threshold_clamped_count_refuted :
  let self := Scripted.small_workflow Auto 2 in
  let w := Scripted.fresh [Scripted.track 1; Scripted.track 30] in
  let one_hot := [0%nat; 1%nat] in
  exists t : Q,
    derive_laplace_threshold self one_hot w = (Ok t, w) /\
    ~ (t == spec_auto_threshold
              (min_cluster_size self)
              (spec_total_windows (sliding_window_size self) (w_heap w)
                                  one_hot))%Q.
Proof.
  cbv zeta. exists (25 # 27)%Q. split.
  - vm_compute. reflexivity.
  - vm_compute. discriminate.
Qed.

(** ** Frame reasoning: what a stage leaves alone

    [keeps R m] says that the world after [m], whether it returns or
    raises, is related to the world before by [R].  For a reflexive and
    transitive [R] it is enough to check the primitive effects. *)

Section Frame.

Variable R : world -> world -> Prop.
Context {R_preorder : PreOrder R}.

Let R_refl : forall w, R w w := fun w => reflexivity w.
Let R_trans : forall a b c, R a b -> R b c -> R a c :=
  fun a b c => @transitivity world R _ a b c.

Lemma keeps_ret {A} (a : A) : keeps R (ret a).
Proof. intros w. apply R_refl. Qed.

Lemma keeps_raise {A} (e : exn) : keeps R (@raise A e).
Proof. intros w. apply R_refl. Qed.

Lemma keeps_lift {A} (r : result A) : keeps R (lift r).
Proof. intros w. apply R_refl. Qed.

Lemma keeps_get_heap : keeps R get_heap.
Proof. intros w. apply R_refl. Qed.

Lemma keeps_assert b msg : keeps R (assert b msg).
Proof. destruct b; [apply keeps_ret | apply keeps_raise]. Qed.

Lemma keeps_bind {A B} (m : M A) (k : A -> M B) :
  keeps R m -> (forall a, keeps R (k a)) -> keeps R (bind m k).
Proof.
  intros Hm Hk w. unfold bind. specialize (Hm w).
  destruct (m w) as [[a | e] w1]; cbn in *.
  - apply R_trans with w1; [exact Hm | apply Hk].
  - exact Hm.
Qed.

Lemma keeps_mapM {A B} (f : A -> M B) (l : list A) :
  (forall x, keeps R (f x)) -> keeps R (mapM f l).
Proof.
  intros Hf. induction l as [| x l IH]; cbn [mapM].
  - apply keeps_ret.
  - apply keeps_bind; [apply Hf | intros y].
    apply keeps_bind; [exact IH | intros ys]. apply keeps_ret.
Qed.

Lemma keeps_foldM {A S} (f : S -> A -> M S) (l : list A) :
  (forall s x, keeps R (f s x)) -> forall s, keeps R (foldM f s l).
Proof.
  intros Hf. induction l as [| x l IH]; intros s; cbn [foldM].
  - apply keeps_ret.
  - apply keeps_bind; [apply Hf | intros s']. apply IH.
Qed.

Lemma keeps_if {A} (b : bool) (m1 m2 : M A) :
  keeps R m1 -> keeps R m2 -> keeps R (if b then m1 else m2).
Proof. destruct b; intros; assumption. Qed.

(** Stages that only allocate. *)
Section Allocating.

Hypothesis R_alloc : forall a, keeps R (alloc a).

Lemma keeps_reversed xs : keeps R (reversed xs).
Proof.
  unfold reversed. apply keeps_mapM. intros x.
  apply keeps_bind; [apply keeps_get_heap | intros h]. apply R_alloc.
Qed.

Lemma keeps_scores_track suffix scores key :
  keeps R (scores_track suffix scores key).
Proof.
  unfold scores_track.
  apply keeps_bind; [apply keeps_lift | intros fwd].
  apply keeps_bind; [apply keeps_lift | intros xs].
  apply keeps_bind; [apply keeps_reversed | intros r]. apply keeps_ret.
Qed.

Lemma keeps_build_track_set task_names contrib_scores hypothetical_contribs
    one_hot :
  keeps R (build_track_set task_names contrib_scores hypothetical_contribs
                         one_hot).
Proof.
  unfold build_track_set.
  apply keeps_bind; [apply keeps_mapM; intros; apply keeps_scores_track |].
  intros t1.
  apply keeps_bind; [apply keeps_mapM; intros; apply keeps_scores_track |].
  intros t2.
  apply keeps_bind; [apply keeps_reversed | intros r]. apply keeps_ret.
Qed.

End Allocating.

(** Stages that neither allocate nor print. *)
Section Silent.

Context {C : Collaborators}.

Lemma keeps_per_position_contrib_scores task_names contrib_scores :
  keeps R (per_position_contrib_scores task_names contrib_scores).
Proof.
  unfold per_position_contrib_scores.
  apply keeps_bind; [| intros; apply keeps_ret].
  apply keeps_mapM. intros x.
  apply keeps_bind; [apply keeps_lift | intros arrs].
  apply keeps_bind; [apply keeps_get_heap | intros h].
  apply keeps_bind; [apply keeps_lift | intros s]. apply keeps_ret.
Qed.

Lemma keeps_attribute_vectors task_names seqlets :
  keeps R (attribute_vectors task_names seqlets).
Proof.
  unfold attribute_vectors. apply keeps_mapM. intros x.
  apply keeps_mapM. intros key. apply keeps_lift.
Qed.

End Silent.

(** The dispatch loop prints but does not allocate. *)
Section Printing.

Context {C : Collaborators}.
Hypothesis R_print : forall o, keeps R (print o).

Lemma keeps_process_metacluster task_names track_set seqlets mr acc p :
  keeps R (process_metacluster task_names track_set seqlets mr acc p).
Proof.
  unfold process_metacluster. cbv zeta.
  apply keeps_bind; [apply R_print | intros _].
  apply keeps_bind; [apply R_print | intros _].
  apply keeps_bind; [apply keeps_lift | intros pattern].
  apply keeps_bind; [apply keeps_mapM; intros; apply keeps_lift | intros acts].
  apply keeps_bind; [apply keeps_assert | intros _].
  apply keeps_bind; [apply keeps_lift | intros rel].
  apply keeps_bind; [apply R_print | intros _].
  apply keeps_bind; [apply R_print | intros _].
  apply keeps_if.
  - apply keeps_bind; [apply R_print | intros _]. apply keeps_ret.
  - apply keeps_bind; [apply keeps_get_heap | intros h].
    apply keeps_bind; [apply keeps_lift | intros r]. apply keeps_ret.
Qed.

Lemma keeps_discover self task_names contrib_scores track_set cp mc :
  keeps R (discover self task_names contrib_scores track_set cp mc).
Proof.
  unfold discover. cbv zeta.
  apply keeps_bind; [apply keeps_per_position_contrib_scores | intros scores].
  apply keeps_bind; [apply keeps_get_heap | intros h].
  apply keeps_bind; [apply keeps_lift | intros creation].
  apply keeps_bind; [apply keeps_attribute_vectors | intros vectors].
  apply keeps_bind; [apply keeps_lift | intros mr].
  apply keeps_bind; [apply keeps_lift | intros top].
  apply keeps_bind.
  - apply keeps_if; [| apply keeps_ret].
    apply keeps_bind; [apply R_print | intros _]. apply R_print.
  - intros _. apply keeps_bind; [| intros; apply keeps_ret].
    apply keeps_foldM. intros. apply keeps_process_metacluster.
Qed.

End Printing.

End Frame.

(** ** The size check and the weak threshold *)

(** C3, amended.  With the automatic threshold setting, an input whose
    window count [T] (clamped as in the specification, hence also the
    plain sum the code uses) is at most [min_cluster_size] makes the call
    raise an assertion error at once: the world is exactly the one before
    the call, so no array was allocated for a track, nothing was printed
    and nothing was assigned on the workflow object. *)
Theorem small_input_fails_before_tracks :
  forall {C : Collaborators} (self : TfModiscoWorkflow)
         (task_names : list string)
         (contrib_scores hypothetical_contribs : list (string * list loc))
         (one_hot : list loc) (w : world),
    laplace_threshold_cdf self = Auto ->
    spec_total_windows (sliding_window_size self) (w_heap w) one_hot
      <= min_cluster_size self ->
    exists msg : string,
      call self task_names contrib_scores hypothetical_contribs one_hot w
      = (Raise (AssertionError msg), w).
Proof.
  intros C self task_names cs hy one_hot w HA Hle.
  eexists. unfold call, configure.
  apply bind_raise. apply bind_raise.
  apply derive_auto_fails; [exact HA |].
  pose proof (total_num_le_spec self (w_heap w) one_hot). lia.
Qed.

Lemma small_input_fails_before_tracks_witness :
  exists msg : string,
    @call (Scripted.collaborators Scripted.active_script)
          (Scripted.small_workflow Auto 9) ["task0"]
          Scripted.small_contribs Scripted.small_hypothetical
          Scripted.small_one_hot (Scripted.fresh Scripted.small_heap)
    = (Raise (AssertionError msg), Scripted.fresh Scripted.small_heap).
Proof.
  apply small_input_fails_before_tracks.
  - reflexivity.
  - vm_compute. discriminate.
Defined.

(** C3 as worded fails: with an explicit threshold the window count is
    never looked at.  Three sequences of five positions and window 3 give
    nine windows, fewer than the minimum cluster size 100, and the call
    still builds the tracks (nine new arrays) and returns. *)
Lemma explicit_threshold_skips_size_check :
  let self := Scripted.small_workflow (Given 0.9%Q) 100 in
  let w := Scripted.fresh Scripted.small_heap in
  spec_total_windows (sliding_window_size self) (w_heap w)
                     Scripted.small_one_hot <= min_cluster_size self /\
  exists res w',
    @call (Scripted.collaborators Scripted.active_script) self ["task0"]
          Scripted.small_contribs Scripted.small_hypothetical
          Scripted.small_one_hot w = (Ok res, w') /\
    List.length (w_heap w') = (List.length (w_heap w) + 9)%nat.
Proof.
  cbv zeta. split.
  - vm_compute. discriminate.
  - match eval vm_compute in
          (@call (Scripted.collaborators Scripted.active_script)
                 (Scripted.small_workflow (Given 0.9%Q) 100) ["task0"]
                 Scripted.small_contribs Scripted.small_hypothetical
                 Scripted.small_one_hot (Scripted.fresh Scripted.small_heap))
    with
    | (Ok ?r, ?w1) => exists r, w1
    end.
    split; vm_compute; reflexivity.
Qed.

#[local] Instance configured_alike_preorder : PreOrder configured_alike.
Proof.
  split.
  - intros w. repeat split. exists []. rewrite app_nil_r. reflexivity.
  - intros a b c (H1 & H2 & m1 & H3) (H4 & H5 & m2 & H6).
    repeat split; try congruence.
    exists (m1 ++ m2). rewrite H6, H3, app_assoc. reflexivity.
Qed.

Lemma configured_alike_print o : keeps configured_alike (print o).
Proof.
  intros w. cbn. repeat split. exists [o]. reflexivity.
Qed.

Lemma configured_alike_alloc a : keeps configured_alike (alloc a).
Proof.
  intros w. cbn. repeat split. exists []. rewrite app_nil_r. reflexivity.
Qed.

Lemma resolve_weak_threshold_cases self laplace w :
  exists weak w1,
    resolve_weak_threshold self laplace w = (Ok weak, w1) /\
    self_coord_producer w1 = self_coord_producer w /\
    self_metaclusterer w1 = self_metaclusterer w /\
    (weak_threshold_for_counting_sign self = None ->
     weak = laplace /\ w1 = w) /\
    (forall s, weak_threshold_for_counting_sign self = Some s ->
               (laplace < s)%Q ->
               weak = laplace /\
               w_stdout w1 = w_stdout w ++ [ReducingWeakThreshold s laplace]) /\
    (forall s, weak_threshold_for_counting_sign self = Some s ->
               (s <= laplace)%Q -> weak = s /\ w1 = w) /\
    (weak <= laplace)%Q.
Proof.
  unfold resolve_weak_threshold.
  destruct (weak_threshold_for_counting_sign self) as [s |].
  - destruct (Qlt_le_dec laplace s) as [Hlt | Hle].
    + eexists. eexists. split; [reflexivity |]. cbn.
      split; [reflexivity |]. split; [reflexivity |].
      split; [discriminate |].
      split; [intros s' [= <-] _; split; reflexivity |].
      split; [intros s' [= <-] Hle; exfalso; apply (Qlt_not_le _ _ Hlt Hle) |].
      apply Qle_refl.
    + exists s, w. split; [reflexivity |].
      split; [reflexivity |]. split; [reflexivity |].
      split; [discriminate |].
      split; [intros s' [= <-] Hlt; exfalso; apply (Qlt_not_le _ _ Hlt Hle) |].
      split; [intros s' [= <-] _; split; reflexivity |].
      exact Hle.
  - destruct (Qlt_le_dec laplace laplace) as [Hlt | Hle].
    + exfalso. apply (Qlt_irrefl _ Hlt).
    + exists laplace, w. split; [reflexivity |].
      split; [reflexivity |]. split; [reflexivity |].
      split; [intros _; split; reflexivity |].
      split; [discriminate |]. split; [discriminate |].
      apply Qle_refl.
Qed.

Lemma configure_ok self one_hot w t weak w2 :
  derive_laplace_threshold self one_hot w = (Ok t, w) ->
  resolve_weak_threshold self t (snd (print (UsingLaplaceThreshold t) w))
  = (Ok weak, w2) ->
  configure self one_hot w
  = (Ok (mkCoordProducer (sliding_window_size self) (flank_size self) t
                         (verbose self),
         mkMetaclusterer (min_cluster_size self) t weak),
     mkWorld (w_heap w2) (w_stdout w2)
       (Some (mkCoordProducer (sliding_window_size self) (flank_size self) t
                              (verbose self)))
       (Some (mkMetaclusterer (min_cluster_size self) t weak))).
Proof.
  intros Hd Hr. unfold configure.
  rewrite (bind_ok _ _ _ _ _ Hd).
  unfold bind at 1. cbn [print].
  cbn [print snd] in Hr.
  rewrite (bind_ok _ _ _ _ _ Hr).
  reflexivity.
Qed.

Lemma keeps_after_configure {C : Collaborators} self task_names
    contrib_scores hypothetical_contribs one_hot made :
  keeps configured_alike
    (bind (build_track_set task_names contrib_scores hypothetical_contribs
                           one_hot)
          (fun track_set =>
             discover self task_names contrib_scores track_set
                      (fst made) (snd made))).
Proof.
  apply keeps_bind.
  - apply _.
  - apply keeps_build_track_set; [apply _ | exact configured_alike_alloc].
  - intros ts. apply keeps_discover; [apply _ | exact configured_alike_print].
Qed.

(** C4.  Whenever the primary threshold [t] has been derived, the
    metaclusterer that the call builds for the later stages carries [t]
    and an effective weak threshold that is [t] when none was supplied,
    [t] when the supplied one is greater (the reduction is printed and the
    call goes on), and the supplied value otherwise; so it is never
    greater than [t]. *)
Theorem weak_threshold_never_above_primary :
  forall {C : Collaborators} (self : TfModiscoWorkflow)
         (task_names : list string)
         (contrib_scores hypothetical_contribs : list (string * list loc))
         (one_hot : list loc) (w w' : world)
         (r : result TfModiscoResults) (t : Q),
    call self task_names contrib_scores hypothetical_contribs one_hot w
    = (r, w') ->
    derive_laplace_threshold self one_hot w = (Ok t, w) ->
    exists weak : Q,
      self_metaclusterer w'
      = Some (mkMetaclusterer (min_cluster_size self) t weak) /\
      (weak_threshold_for_counting_sign self = None -> weak = t) /\
      (forall s, weak_threshold_for_counting_sign self = Some s ->
                 (t < s)%Q ->
                 weak = t /\
                 In (ReducingWeakThreshold s t) (w_stdout w')) /\
      (forall s, weak_threshold_for_counting_sign self = Some s ->
                 (s <= t)%Q -> weak = s) /\
      (weak <= t)%Q.
Proof.
  intros C self task_names cs hy one_hot w w' r t Hcall Hd.
  destruct (resolve_weak_threshold_cases self t
              (snd (print (UsingLaplaceThreshold t) w)))
    as (weak & w2 & Hres & _ & _ & HN & HL & HG & Hle).
  unfold call in Hcall.
  rewrite (bind_ok _ _ _ _ _ (configure_ok self one_hot w t weak w2 Hd Hres))
    in Hcall.
  pose proof (keeps_after_configure self task_names cs hy one_hot
                (mkCoordProducer (sliding_window_size self) (flank_size self)
                                 t (verbose self),
                 mkMetaclusterer (min_cluster_size self) t weak)
                (mkWorld (w_heap w2) (w_stdout w2)
                   (Some (mkCoordProducer (sliding_window_size self)
                                          (flank_size self) t (verbose self)))
                   (Some (mkMetaclusterer (min_cluster_size self) t weak))))
    as K.
  rewrite Hcall in K. cbn [snd self_metaclusterer w_stdout
                           self_coord_producer] in K.
  destruct K as (_ & Hmc & more & Hout).
  exists weak.
  split; [exact Hmc |].
  split; [intros HNone; apply (HN HNone) |].
  split.
  - intros s Hs Hlt. destruct (HL s Hs Hlt) as [Hw Hprinted].
    split; [exact Hw |].
    rewrite Hout, Hprinted. apply in_or_app. left.
    apply in_or_app. right. left. reflexivity.
  - split; [intros s Hs Hge; apply (HG s Hs Hge) | exact Hle].
Qed.

Lemma weak_threshold_never_above_primary_witness :
  exists weak : Q,
    self_metaclusterer
      (snd (@call (Scripted.collaborators Scripted.active_script)
              (Scripted.small_workflow Auto 2) ["task0"]
              Scripted.small_contribs Scripted.small_hypothetical
              Scripted.small_one_hot (Scripted.fresh Scripted.small_heap)))
    = Some (mkMetaclusterer 2 (7 # 9) weak) /\
    (weak <= 7 # 9)%Q.
Proof.
  destruct (weak_threshold_never_above_primary
              (C := Scripted.collaborators Scripted.active_script)
              (Scripted.small_workflow Auto 2) ["task0"]
              Scripted.small_contribs Scripted.small_hypothetical
              Scripted.small_one_hot (Scripted.fresh Scripted.small_heap)
              (snd (@call (Scripted.collaborators Scripted.active_script)
                      (Scripted.small_workflow Auto 2) ["task0"]
                      Scripted.small_contribs Scripted.small_hypothetical
                      Scripted.small_one_hot
                      (Scripted.fresh Scripted.small_heap)))
              (fst (@call (Scripted.collaborators Scripted.active_script)
                      (Scripted.small_workflow Auto 2) ["task0"]
                      Scripted.small_contribs Scripted.small_hypothetical
                      Scripted.small_one_hot
                      (Scripted.fresh Scripted.small_heap)))
              (7 # 9)%Q)
    as (weak & Hmc & _ & _ & _ & Hle).
  - apply surjective_pairing.
  - vm_compute. reflexivity.
  - exists weak. split; [exact Hmc | exact Hle].
Defined.

(** ** Track construction *)

#[local] Instance only_allocates_preorder : PreOrder only_allocates.
Proof.
  split.
  - intros [h o c m]. exists []. unfold grown. cbn.
    rewrite app_nil_r. reflexivity.
  - intros a b c [f1 ->] [f2 ->]. exists (f1 ++ f2). unfold grown. cbn.
    rewrite app_assoc. reflexivity.
Qed.

Lemma only_allocates_alloc a : keeps only_allocates (alloc a).
Proof. intros w. exists [a]. reflexivity. Qed.

Lemma deref_app_old (h more : heap) (x : loc) :
  (x < List.length h)%nat -> deref (h ++ more) x = deref h x.
Proof. intros Hx. unfold deref. apply app_nth1. exact Hx. Qed.

Lemma deref_app_new (h more : heap) (i : nat) :
  deref (h ++ more) (List.length h + i)%nat = nth i more [].
Proof.
  unfold deref. rewrite app_nth2 by lia.
  f_equal. lia.
Qed.

Lemma reversed_spec xs w :
  Forall (fun x => (x < List.length (w_heap w))%nat) xs ->
  reversed xs w
  = (Ok (seq (List.length (w_heap w)) (List.length xs)),
     grown w (map (fun x => reverse_both (deref (w_heap w) x)) xs)).
Proof.
  unfold reversed, grown. revert w.
  induction xs as [| x xs IH]; intros w Hv.
  - destruct w as [h o c m]. cbn. rewrite app_nil_r. reflexivity.
  - inversion Hv as [| ? ? Hx Hxs]; subst.
    cbn [mapM]. unfold bind at 1. unfold bind at 1.
    cbn [get_heap alloc].
    unfold bind at 1. rewrite IH.
    + cbn [ret w_heap w_stdout self_coord_producer self_metaclusterer
           List.length seq map].
      rewrite length_app. cbn [List.length].
      replace (List.length (w_heap w) + 1)%nat
        with (S (List.length (w_heap w))) by lia.
      rewrite <- app_assoc. cbn [app]. unfold ret.
      assert (E : map (fun x0 : loc =>
                         reverse_both
                           (deref (w_heap w
                                   ++ [reverse_both (deref (w_heap w) x)]) x0))
                      xs
                  = map (fun x0 : loc => reverse_both (deref (w_heap w) x0))
                        xs).
      { apply map_ext_in. intros y Hy.
        rewrite Forall_forall in Hxs.
        rewrite deref_app_old by (apply Hxs; exact Hy). reflexivity. }
      rewrite E. reflexivity.
    + cbn [w_heap]. rewrite length_app. cbn [List.length].
      eapply Forall_impl; [| exact Hxs]. cbn. intros; lia.
Qed.

Lemma mirrored_grow h more tr : mirrored h tr -> mirrored (h ++ more) tr.
Proof.
  unfold mirrored. intros H.
  eapply Forall2_impl; [| exact H]. cbn.
  intros x y (Hx & Hy & E). rewrite length_app.
  repeat split; try lia.
  rewrite !deref_app_old by assumption. exact E.
Qed.

Lemma mirrored_fresh h xs name_ :
  Forall (fun x => (x < List.length h)%nat) xs ->
  mirrored (h ++ map (fun x => reverse_both (deref h x)) xs)
           (mkDataTrack name_ xs (seq (List.length h) (List.length xs)) true).
Proof.
  intros Hv. unfold mirrored. cbn [fwd_tracks rev_tracks].
  set (fresh := map (fun x => reverse_both (deref h x)) xs).
  assert (G : forall k ys,
             Forall (fun x => (x < List.length h)%nat) ys ->
             (forall i, nth (k + i)%nat fresh []
                        = nth i (map (fun x => reverse_both (deref h x)) ys) []) ->
             (k + List.length ys <= List.length fresh)%nat ->
             Forall2 (fun x y =>
                        (x < List.length (h ++ fresh))%nat /\
                        (y < List.length (h ++ fresh))%nat /\
                        deref (h ++ fresh) y
                        = reverse_both (deref (h ++ fresh) x))
                     ys (seq (List.length h + k)%nat (List.length ys))).
  { intros k ys. revert k.
    induction ys as [| y ys IH]; intros k Hys Hnth Hlen; cbn [List.length seq].
    - constructor.
    - inversion Hys as [| ? ? Hy Hys']; subst. cbn [List.length] in Hlen.
      constructor.
      + rewrite length_app. repeat split; try lia.
        rewrite deref_app_new, deref_app_old by exact Hy.
        specialize (Hnth 0%nat). rewrite Nat.add_0_r in Hnth.
        rewrite Hnth. reflexivity.
      + replace (S (List.length h + k)) with (List.length h + S k)%nat by lia.
        apply IH; [exact Hys' | | lia].
        intros i. specialize (Hnth (S i)).
        replace (S k + i)%nat with (k + S i)%nat by lia.
        rewrite Hnth. reflexivity. }
  specialize (G 0%nat xs Hv). rewrite Nat.add_0_r in G.
  apply G.
  - intros i. reflexivity.
  - unfold fresh. rewrite length_map. apply Nat.le_refl.
Qed.

Lemma grown_grown w f1 f2 : grown (grown w f1) f2 = grown w (f1 ++ f2).
Proof. unfold grown. cbn. rewrite app_assoc. reflexivity. Qed.

Lemma grown_nil w : grown w [] = w.
Proof. destruct w. unfold grown. cbn. rewrite app_nil_r. reflexivity. Qed.

Lemma keys_resolve_grow h more scores task_names :
  keys_resolve h scores task_names ->
  keys_resolve (h ++ more) scores task_names.
Proof.
  unfold keys_resolve. intros H. eapply Forall_impl; [| exact H]. cbn.
  intros t (xs & Hk & Hv). exists xs. split; [exact Hk |].
  eapply Forall_impl; [| exact Hv]. cbn. intros x Hx.
  rewrite length_app. lia.
Qed.

Lemma scores_track_spec suffix scores key xs w :
  dict_get scores key = Ok xs ->
  Forall (fun x => (x < List.length (w_heap w))%nat) xs ->
  scores_track suffix scores key w
  = (Ok (mkDataTrack (String.append key suffix) xs
                     (seq (List.length (w_heap w)) (List.length xs)) true),
     grown w (map (fun x => reverse_both (deref (w_heap w) x)) xs)).
Proof.
  intros Hk Hv. unfold scores_track. rewrite Hk.
  unfold bind at 1. cbn [lift]. unfold bind at 1. cbn [lift].
  unfold bind at 1. rewrite (reversed_spec xs w Hv). reflexivity.
Qed.

Lemma tracks_spec suffix scores task_names :
  forall w,
    keys_resolve (w_heap w) scores task_names ->
    exists tracks fresh,
      mapM (scores_track suffix scores) task_names w
      = (Ok tracks, grown w fresh) /\
      Forall2 (built_from suffix scores (w_heap w ++ fresh))
              task_names tracks.
Proof.
  induction task_names as [| t ts IH]; intros w Hk.
  - exists [], []. rewrite grown_nil. split; [reflexivity | constructor].
  - inversion Hk as [| ? ? (xs & Hget & Hv) Hk']; subst.
    set (f0 := map (fun x => reverse_both (deref (w_heap w) x)) xs).
    destruct (IH (grown w f0)) as (tracks & f1 & Hrun & Hall).
    { cbn [grown w_heap]. apply keys_resolve_grow. exact Hk'. }
    exists (mkDataTrack (String.append t suffix) xs
                        (seq (List.length (w_heap w)) (List.length xs)) true
            :: tracks), (f0 ++ f1).
    split.
    + cbn [mapM]. rewrite (bind_ok _ _ _ _ _
                             (scores_track_spec suffix scores t xs w Hget Hv)).
      fold f0. rewrite (bind_ok _ _ _ _ _ Hrun).
      unfold ret. rewrite grown_grown. reflexivity.
    + cbn [grown w_heap] in Hall. rewrite <- app_assoc in Hall.
      constructor; [| exact Hall].
      unfold built_from. cbn [name fwd_tracks has_pos_axis].
      split; [reflexivity |]. split; [exact Hget |]. split; [reflexivity |].
      rewrite app_assoc. apply mirrored_grow.
      apply mirrored_fresh. exact Hv.
Qed.


(** *** Track names never collide *)









(** [reverse_both] entry by entry: position [i], channel [j] of the
    result is position [L-1-i], channel [C-1-j] of the argument. *)
Lemma reverse_both_entry (a : array) (i j : nat) (d : Q) :
  (i < List.length a)%nat ->
  (j < List.length (nth (List.length a - S i) a []))%nat ->
  nth j (nth i (reverse_both a) []) d
  = nth (List.length (nth (List.length a - S i) a []) - S j)
        (nth (List.length a - S i) a []) d.
Proof.
  intros Hi Hj. unfold reverse_both.
  rewrite rev_nth by (rewrite length_map; exact Hi).
  rewrite length_map.
  change (@nil Q) with (rev (@nil Q)) at 1.
  rewrite map_nth. rewrite rev_nth by exact Hj. reflexivity.
Qed.


Lemma Forall2_right {A B} (P : A -> B -> Prop) (Q : B -> Prop) l1 l2 :
  Forall2 P l1 l2 -> (forall x y, P x y -> Q y) -> Forall Q l2.
Proof.
  intros H HPQ. induction H as [| x y xs ys Hxy _ IH]; constructor.
  - apply (HPQ x y Hxy).
  - exact IH.
Qed.



(** C9.  Whatever the inputs, and whether the stage returns or raises,
    track construction changes the world only by adding new array objects
    (the reverse arrays of the tracks): every array that existed before,
    the caller's contribution scores, hypothetical contributions and
    one-hot arrays among them, has its old contents afterwards; nothing is
    printed and nothing is assigned on the workflow object. *)
Theorem track_construction_leaves_inputs_alone :
  forall (task_names : list string)
         (contrib_scores hypothetical_contribs : list (string * list loc))
         (one_hot : list loc) (w : world),
    exists fresh : list array,
      snd (build_track_set task_names contrib_scores hypothetical_contribs
                           one_hot w) = grown w fresh /\
      forall x : loc,
        (x < List.length (w_heap w))%nat ->
        deref (w_heap (grown w fresh)) x = deref (w_heap w) x.
Proof.
  intros task_names cs hy one_hot w.
  destruct (keeps_build_track_set only_allocates only_allocates_alloc
              task_names cs hy one_hot w) as [fresh Hfresh].
  exists fresh. split; [exact Hfresh |].
  intros x Hx. cbn [grown w_heap]. apply deref_app_old. exact Hx.
Qed.

Lemma track_construction_leaves_inputs_alone_witness :
  exists fresh : list array,
    snd (build_track_set ["task0"] Scripted.small_contribs
           Scripted.small_hypothetical Scripted.small_one_hot
           (Scripted.fresh Scripted.small_heap))
    = grown (Scripted.fresh Scripted.small_heap) fresh /\
    deref (w_heap (grown (Scripted.fresh Scripted.small_heap) fresh)) 6%nat
    = Scripted.track 5.
Proof.
  destruct (track_construction_leaves_inputs_alone ["task0"]
              Scripted.small_contribs Scripted.small_hypothetical
              Scripted.small_one_hot (Scripted.fresh Scripted.small_heap))
    as (fresh & Hrun & Hsame).
  exists fresh. split; [exact Hrun |].
  rewrite (Hsame 6%nat); [reflexivity | cbn; lia].
Defined.

(** ** Seqlet creation, the attribute matrix and the dispatch loop *)

Ltac inv_bind H :=
  let a := fresh "a" in
  let w1 := fresh "w" in
  let H1 := fresh "Hstep" in
  apply bind_ok_inv in H; destruct H as (a & w1 & H1 & H).

(** Stages that leave the world as it is. *)
Lemma unchanged {A} (m : M A) (w w' : world) (r : result A) :
  keeps eq m -> m w = (r, w') -> w' = w.
Proof. intros K H. specialize (K w). rewrite H in K. symmetry. exact K. Qed.

Lemma mapM_lift_inv {A B} (f : A -> result B) (l : list A) w ys w' :
  mapM (fun x => lift (f x)) l w = (Ok ys, w') ->
  w' = w /\ Forall2 (fun x y => f x = Ok y) l ys.
Proof.
  revert ys w w'. induction l as [| x l IH]; intros ys w w' H; cbn [mapM] in H.
  - inversion H; subst. split; [reflexivity | constructor].
  - inv_bind H. apply lift_ok_inv in Hstep. destruct Hstep as [Hx ->].
    inv_bind H. apply IH in Hstep. destruct Hstep as [-> Hl].
    inversion H; subst. split; [reflexivity |].
    constructor; assumption.
Qed.

Lemma mapM_lift_ok {A B} (f : A -> result B) (l : list A) w ys :
  Forall2 (fun x y => f x = Ok y) l ys ->
  mapM (fun x => lift (f x)) l w = (Ok ys, w).
Proof.
  induction 1 as [| x y xs ys' Hx _ IH]; cbn [mapM].
  - reflexivity.
  - unfold bind at 1. unfold lift at 1. rewrite Hx.
    unfold bind at 1. rewrite IH. reflexivity.
Qed.

Section Discover.

Context {C : Collaborators}.

Lemma attribute_vectors_inv task_names seqlets w vectors w' :
  attribute_vectors task_names seqlets w = (Ok vectors, w') ->
  w' = w /\ Forall2 (row_of task_names) seqlets vectors.
Proof.
  unfold attribute_vectors. revert vectors w w'.
  induction seqlets as [| s l IH]; intros vectors w w' H; cbn [mapM] in H.
  - inversion H; subst. split; [reflexivity | constructor].
  - inv_bind H. apply mapM_lift_inv in Hstep. destruct Hstep as [-> Hrow].
    inv_bind H. apply IH in Hstep. destruct Hstep as [-> Hl].
    inversion H; subst. split; [reflexivity |].
    constructor; assumption.
Qed.

Lemma discover_ok_inv self task_names contrib_scores track_set cp mc w res w' :
  discover self task_names contrib_scores track_set cp mc w = (Ok res, w') ->
  exists scores creation vectors mr top results w1,
    multitask_seqlet_creation cp track_set (overlap_resolver self)
      (w_heap w) scores (task_name_to_threshold_transformer self task_names)
    = Ok creation /\
    Forall2 (row_of task_names) (final_seqlets creation) vectors /\
    run_metaclusterer mc vectors = Ok mr /\
    max_seq (metacluster_indices mr) = Ok top /\
    w1 = (if verbose self
          then mkWorld (w_heap w)
                 (w_stdout w
                  ++ [MetaclusterSizes (metacluster_sizes mr top);
                      IdxToActivities
                        (metacluster_idx_to_activity_pattern mr)])
                 (self_coord_producer w) (self_metaclusterer w)
          else w) /\
    foldM (process_metacluster task_names track_set
                               (final_seqlets creation) mr)
          [] (sorted_by_snd (enumerate (metacluster_sizes mr top))) w1
    = (Ok results, w') /\
    res = mkTfModiscoResults task_names creation vectors mr results.
Proof.
  unfold discover. intros H.
  inv_bind H. rename a into scores.
  apply (unchanged _ _ _ _
           (keeps_per_position_contrib_scores eq task_names contrib_scores))
    in Hstep. subst w0.
  inv_bind H. inversion Hstep; subst a w0. clear Hstep.
  inv_bind H. apply lift_ok_inv in Hstep. destruct Hstep as [Hcreate ->].
  rename a into creation.
  inv_bind H. apply attribute_vectors_inv in Hstep.
  destruct Hstep as [-> Hrows]. rename a into vectors.
  inv_bind H. apply lift_ok_inv in Hstep. destruct Hstep as [Hmr ->].
  rename a into mr.
  inv_bind H. apply lift_ok_inv in Hstep. destruct Hstep as [Htop ->].
  rename a into top.
  inv_bind H. rename w0 into w1.
  inv_bind H. rename a0 into results.
  inversion H; subst. clear H.
  exists scores, creation, vectors, mr, top, results, w1.
  split; [exact Hcreate |]. split; [exact Hrows |].
  split; [exact Hmr |]. split; [exact Htop |].
  split.
  - destruct (verbose self).
    + unfold bind, print in Hstep. cbn in Hstep.
      inversion Hstep; subst. rewrite <- app_assoc. reflexivity.
    + inversion Hstep; subst. reflexivity.
  - split; [exact Hstep0 | reflexivity].
Qed.

End Discover.

(** ** Sorting the metaclusters by size *)

Lemma insert_by_snd_perm {A} (x : A * Z) (l : list (A * Z)) :
  Permutation (insert_by_snd x l) (x :: l).
Proof.
  induction l as [| y l IH]; cbn [insert_by_snd].
  - apply Permutation_refl.
  - destruct (snd x <=? snd y).
    + apply Permutation_refl.
    + apply perm_trans with (y :: x :: l).
      * apply perm_skip. exact IH.
      * apply perm_swap.
Qed.

Lemma sorted_by_snd_perm {A} (l : list (A * Z)) :
  Permutation (sorted_by_snd l) l.
Proof.
  induction l as [| x l IH]; cbn [sorted_by_snd fold_right].
  - apply Permutation_refl.
  - apply perm_trans with (x :: sorted_by_snd l).
    + apply insert_by_snd_perm.
    + apply perm_skip. exact IH.
Qed.

Lemma insert_by_snd_hdrel {A} (a x : A * Z) (l : list (A * Z)) :
  HdRel by_size a l -> by_size a x -> HdRel by_size a (insert_by_snd x l).
Proof.
  intros Hl Hx. destruct l as [| y l]; cbn [insert_by_snd].
  - constructor. exact Hx.
  - destruct (snd x <=? snd y).
    + constructor. exact Hx.
    + constructor. inversion Hl; assumption.
Qed.

Lemma insert_by_snd_sorted {A} (x : A * Z) (l : list (A * Z)) :
  Sorted by_size l -> Sorted by_size (insert_by_snd x l).
Proof.
  induction 1 as [| y l Hs IH Hhd]; cbn [insert_by_snd].
  - repeat constructor.
  - destruct (Z.leb_spec (snd x) (snd y)) as [Hle | Hgt].
    + constructor.
      * constructor; assumption.
      * constructor. exact Hle.
    + constructor; [exact IH |].
      apply insert_by_snd_hdrel; [exact Hhd |]. unfold by_size. lia.
Qed.

Lemma sorted_by_snd_sorted {A} (l : list (A * Z)) :
  StronglySorted by_size (sorted_by_snd l).
Proof.
  apply Sorted_StronglySorted.
  - intros a b c. unfold by_size. lia.
  - induction l as [| x l IH]; cbn [sorted_by_snd fold_right].
    + constructor.
    + apply insert_by_snd_sorted. exact IH.
Qed.

(** Stability: among the pairs of one size the input order survives. *)
Lemma insert_by_snd_stable {A} (k : Z) (x : A * Z) (l : list (A * Z)) :
  filter (fun p => snd p =? k) (insert_by_snd x l)
  = filter (fun p => snd p =? k) (x :: l).
Proof.
  induction l as [| y l IH]; cbn [insert_by_snd].
  - reflexivity.
  - destruct (Z.leb_spec (snd x) (snd y)) as [Hle | Hgt].
    + reflexivity.
    + cbn [filter] in *. rewrite IH.
      destruct (Z.eqb_spec (snd y) k) as [Hy | Hy];
        destruct (Z.eqb_spec (snd x) k) as [Hx | Hx];
        try reflexivity.
      lia.
Qed.

Lemma sorted_by_snd_stable {A} (k : Z) (l : list (A * Z)) :
  filter (fun p => snd p =? k) (sorted_by_snd l)
  = filter (fun p => snd p =? k) l.
Proof.
  induction l as [| x l IH]; cbn [sorted_by_snd fold_right].
  - reflexivity.
  - rewrite insert_by_snd_stable. cbn [filter]. fold (sorted_by_snd l).
    rewrite IH. reflexivity.
Qed.

Lemma combine_map_seq {B} (f : Z -> B) (start n : nat) :
  combine (map Z.of_nat (seq start n))
          (map f (map Z.of_nat (seq start n)))
  = map (fun i => (i, f i)) (map Z.of_nat (seq start n)).
Proof.
  revert start. induction n as [| n IH]; intros start; cbn.
  - reflexivity.
  - rewrite IH. reflexivity.
Qed.

Lemma enumerate_map_range {B} (f : Z -> B) (n : Z) :
  enumerate (map f (range n)) = map (fun i => (i, f i)) (range n).
Proof.
  unfold enumerate, range. rewrite !length_map, length_seq.
  apply combine_map_seq.
Qed.

Lemma range_nodup (n : Z) : NoDup (range n).
Proof.
  unfold range. apply Finite.Injective_map_NoDup.
  - intros a b. apply Nat2Z.inj.
  - apply seq_NoDup.
Qed.

(** ** One step of the dispatch loop *)

Lemma filter_combine_select (idx : Z) (seqlets : list Seqlet)
    (indices : list Z) :
  map fst (filter (fun x => snd x =? idx) (combine seqlets indices))
  = select_by_index idx seqlets indices.
Proof.
  revert indices. induction seqlets as [| s l IH]; intros [| i indices];
    cbn [combine filter map select_by_index]; try reflexivity.
  cbn [snd]. destruct (i =? idx); cbn [map fst]; rewrite IH; reflexivity.
Qed.

Lemma select_by_index_count (idx : Z) (seqlets : list Seqlet)
    (indices : list Z) :
  List.length seqlets = List.length indices ->
  Z.of_nat (List.length (select_by_index idx seqlets indices))
  = count_eq idx indices.
Proof.
  unfold count_eq. intros H. f_equal. revert indices H.
  induction seqlets as [| s l IH]; intros [| i indices] H;
    cbn [select_by_index filter List.length] in *; try discriminate;
    try reflexivity.
  rewrite (Z.eqb_sym idx i).
  destruct (i =? idx); cbn [List.length]; rewrite IH by lia; reflexivity.
Qed.

Lemma unpack_relevant_ok_inv task_names activities rel :
  unpack_relevant task_names activities = Ok rel ->
  fst rel <> [] /\
  rel = (map fst (filter (fun x => negb (snd x =? 0))
                         (combine task_names activities)),
         map snd (filter (fun x => negb (snd x =? 0))
                         (combine task_names activities))).
Proof.
  unfold unpack_relevant.
  destruct (filter (fun x => negb (snd x =? 0))
                   (combine task_names activities)) as [| y l].
  - discriminate.
  - intros [= <-]. split; [discriminate | reflexivity].
Qed.

Lemma unpack_relevant_all_zero task_names activities :
  Forall (fun a => a = 0) activities ->
  unpack_relevant task_names activities
  = Raise (ValueError "not enough values to unpack (expected 2, got 0)").
Proof.
  intros Hz. unfold unpack_relevant.
  assert (E : filter (fun x : string * Z => negb (snd x =? 0))
                     (combine task_names activities) = []).
  { revert task_names. induction Hz as [| a l Ha _ IH]; intros [| t ts];
      cbn [combine filter]; try reflexivity.
    cbn [snd]. rewrite Ha. cbn. apply IH. }
  rewrite E. reflexivity.
Qed.

Lemma odict_set_fresh {V} (d : list (Z * V)) (k : Z) (v : V) :
  ~ In k (map fst d) -> odict_set Z.eqb d k v = d ++ [(k, v)].
Proof.
  induction d as [| [k' v'] d IH]; intros Hk; cbn [odict_set app].
  - reflexivity.
  - destruct (Z.eqb_spec k k') as [-> | _].
    + exfalso. apply Hk. left. reflexivity.
    + rewrite IH; [reflexivity |]. intros Hin. apply Hk. right. exact Hin.
Qed.

Section Dispatch.

Context {C : Collaborators}.

Lemma relevant_exists task_names activities rel :
  unpack_relevant task_names activities = Ok rel ->
  Exists (fun a => a <> 0) activities.
Proof.
  intros H. apply unpack_relevant_ok_inv in H. destruct H as [Hne ->].
  cbn [fst] in Hne.
  destruct (filter (fun x : string * Z => negb (snd x =? 0))
                   (combine task_names activities)) as [| y l] eqn:E.
  - exfalso. apply Hne. reflexivity.
  - assert (Hin : In y (filter (fun x : string * Z => negb (snd x =? 0))
                               (combine task_names activities)))
      by (rewrite E; left; reflexivity).
    apply filter_In in Hin. destruct Hin as [Hin Hnz].
    destruct y as [t a]. apply in_combine_r in Hin.
    apply Exists_exists. exists a. split; [exact Hin |].
    cbn [snd] in Hnz. intros ->. discriminate Hnz.
Qed.

Lemma process_metacluster_ok_inv task_names track_set all_seqlets mr acc p
    w acc' w' :
  process_metacluster task_names track_set all_seqlets mr acc p w
  = (Ok acc', w') ->
  exists sub,
    acc' = odict_set Z.eqb acc (fst p) sub /\
    dispatched all_seqlets mr p (fst p, sub) /\
    visited (w_stdout w') = visited (w_stdout w) ++ [fst p].
Proof.
  unfold process_metacluster. intros H.
  inv_bind H. inversion Hstep; subst a w0. clear Hstep.
  inv_bind H. inversion Hstep; subst a w0. clear Hstep.
  inv_bind H. apply lift_ok_inv in Hstep. destruct Hstep as [Hpat ->].
  rename a into pattern.
  inv_bind H. apply mapM_lift_inv in Hstep. destruct Hstep as [-> Hacts].
  rename a into activities.
  inv_bind H. apply assert_ok_inv in Hstep. destruct Hstep as [Hlen ->].
  apply Nat.eqb_eq in Hlen.
  inv_bind H. apply lift_ok_inv in Hstep. destruct Hstep as [Hrel ->].
  rename a0 into rel.
  inv_bind H. inversion Hstep; subst a0 w0. clear Hstep.
  inv_bind H. inversion Hstep; subst a0 w0. clear Hstep.
  destruct (unpack_relevant_ok_inv _ _ _ Hrel) as [Hne _].
  destruct (fst rel) as [| n ns] eqn:En; [exfalso; apply Hne; reflexivity |].
  cbn [List.length Nat.eqb] in H.
  inv_bind H. inversion Hstep; subst a0 w0. clear Hstep.
  inv_bind H. apply lift_ok_inv in Hstep. destruct Hstep as [Hstp ->].
  inversion H; subst acc' w'. clear H.
  eexists. split; [reflexivity |].
  split.
  - unfold dispatched. cbn [fst snd metacluster_size seqlets activity_pattern].
    split; [reflexivity |]. split; [reflexivity |].
    split; [apply filter_combine_select |].
    split; [exact Hlen |].
    split; [exists pattern; split; assumption |].
    apply (relevant_exists _ _ _ Hrel).
  - cbn [w_stdout w_heap]. unfold visited.
    rewrite <- !app_assoc. rewrite !flat_map_app. cbn. reflexivity.
Qed.

Lemma dispatch_loop_inv task_names track_set all_seqlets mr :
  forall l acc w results w',
    foldM (process_metacluster task_names track_set all_seqlets mr) acc l w
    = (Ok results, w') ->
    NoDup (map fst l) ->
    (forall k, In k (map fst l) -> ~ In k (map fst acc)) ->
    exists new,
      results = acc ++ new /\
      Forall2 (dispatched all_seqlets mr) l new /\
      visited (w_stdout w') = visited (w_stdout w) ++ map fst l.
Proof.
  induction l as [| p l IH]; intros acc w results w' H Hnd Hfresh;
    cbn [foldM] in H.
  - inversion H; subst. exists []. rewrite !app_nil_r.
    split; [reflexivity |]. split; [constructor | reflexivity].
  - inv_bind H. apply process_metacluster_ok_inv in Hstep.
    destruct Hstep as (sub & -> & Hd & Hv).
    rewrite odict_set_fresh in H by (apply Hfresh; left; reflexivity).
    inversion Hnd as [| ? ? Hp Hnd']; subst.
    apply IH in H; [| exact Hnd' |].
    + destruct H as (new & -> & Hall & Hv').
      exists ((fst p, sub) :: new). rewrite <- app_assoc.
      split; [reflexivity |].
      split; [constructor; assumption |].
      rewrite Hv', Hv, <- app_assoc. reflexivity.
    + intros k Hk. rewrite map_app. cbn [map fst]. intros Hin.
      apply in_app_or in Hin. destruct Hin as [Hin | [<- | []]].
      * apply (Hfresh k); [right; exact Hk | exact Hin].
      * apply Hp. exact Hk.
Qed.

End Dispatch.

(** ** The whole call, when it returns *)

#[local] Instance same_visits_preorder : PreOrder same_visits.
Proof.
  split.
  - intros w. reflexivity.
  - intros a b c H1 H2. unfold same_visits in *. congruence.
Qed.

Lemma visited_app (a b : list output) :
  visited (a ++ b) = visited a ++ visited b.
Proof. unfold visited. apply flat_map_app. Qed.

Lemma derive_world self one_hot w r w' :
  derive_laplace_threshold self one_hot w = (r, w') -> w' = w.
Proof.
  unfold derive_laplace_threshold.
  destruct (laplace_threshold_cdf self).
  - unfold bind, get_heap, assert. cbn.
    destruct (total_num self (w_heap w) one_hot >? min_cluster_size self); cbn.
    + destruct (total_num self (w_heap w) one_hot =? 0); cbn;
        intros H; inversion H; reflexivity.
    + intros H; inversion H; reflexivity.
  - intros H; inversion H; reflexivity.
Qed.

Lemma configure_same_visits self one_hot : keeps same_visits (configure self one_hot).
Proof.
  intros w. unfold configure, same_visits.
  unfold bind at 1.
  destruct (derive_laplace_threshold self one_hot w) as [[t | e] w0] eqn:Hd;
    apply derive_world in Hd; subst w0; [| reflexivity].
  unfold bind at 1. cbn [print].
  destruct (resolve_weak_threshold_cases self t
              (mkWorld (w_heap w) (w_stdout w ++ [UsingLaplaceThreshold t])
                       (self_coord_producer w) (self_metaclusterer w)))
    as (weak & w2 & Hres & _ & _ & _ & _ & _ & _).
  assert (Hv : visited (w_stdout w2) = visited (w_stdout w)).
  { revert Hres. unfold resolve_weak_threshold.
    destruct (Qlt_le_dec t
                match weak_threshold_for_counting_sign self with
                | Some w3 => w3
                | None => t
                end).
    - unfold bind, print, ret. cbn. intros H. inversion H; subst. cbn.
      rewrite !visited_app. cbn. rewrite !app_nil_r. reflexivity.
    - unfold ret. intros H. inversion H; subst. cbn.
      rewrite visited_app. cbn. rewrite app_nil_r. reflexivity. }
  rewrite (bind_ok _ _ _ _ _ Hres). cbn. exact Hv.
Qed.

Lemma map_fst_enumerate_sizes {B} (f : Z -> B) (n : Z) :
  map fst (enumerate (map f (range n))) = range n.
Proof.
  rewrite enumerate_map_range, map_map. cbn [fst]. apply map_id.
Qed.

Lemma strongly_sorted_map {A B} (R : B -> B -> Prop) (f : A -> B) (l : list A) :
  StronglySorted R (map f l) -> StronglySorted (fun a b => R (f a) (f b)) l.
Proof.
  induction l as [| x l IH]; cbn [map]; intros H.
  - constructor.
  - inversion H as [| ? ? Hs Hall]; subst. constructor.
    + apply IH. exact Hs.
    + apply Forall_forall. intros y Hy.
      rewrite Forall_forall in Hall. apply Hall. apply in_map. exact Hy.
Qed.

Section Completed.

Context {C : Collaborators}.

Lemma dispatched_pairs all_seqlets (mr : MetaclusteringResults) l entries :
  Forall2 (dispatched all_seqlets mr) l entries ->
  map (fun e => (fst e, metacluster_size (snd e))) entries = l.
Proof.
  induction 1 as [| p e l es (Hk & Hs & _) _ IH]; cbn [map].
  - reflexivity.
  - rewrite IH, Hk, Hs. destruct p. reflexivity.
Qed.

Lemma call_ok_inv self names contrib_scores hypothetical_contribs
    one_hot w res w' :
  call self names contrib_scores hypothetical_contribs one_hot w
  = (Ok res, w') ->
  task_names res = names /\
  Forall2 (row_of names)
          (final_seqlets (multitask_seqlet_creation_results res))
          (seqlet_attribute_vectors res) /\
  exists top,
    max_seq (metacluster_indices (metaclustering_results res)) = Ok top /\
    Forall2 (dispatched
               (final_seqlets (multitask_seqlet_creation_results res))
               (metaclustering_results res))
            (sorted_by_snd
               (enumerate (metacluster_sizes (metaclustering_results res)
                                             top)))
            (metacluster_idx_to_submetacluster_results res) /\
    visited (w_stdout w')
    = visited (w_stdout w)
      ++ map fst (metacluster_idx_to_submetacluster_results res).
Proof.
  unfold call. intros H.
  inv_bind H. rename a into made. rename w0 into w1.
  pose proof (configure_same_visits self one_hot w) as V1.
  rewrite Hstep in V1. cbn [snd] in V1. clear Hstep.
  inv_bind H. rename a into track_set. rename w0 into w2.
  destruct (keeps_build_track_set only_allocates only_allocates_alloc
              names contrib_scores hypothetical_contribs one_hot w1)
    as [fresh V2].
  rewrite Hstep in V2. cbn [snd] in V2. clear Hstep.
  apply discover_ok_inv in H.
  destruct H as (scores & creation & vectors & mr & top & results & w3
                 & _ & Hrows & _ & Htop & Hw3 & Hloop & ->).
  cbn [task_names multitask_seqlet_creation_results seqlet_attribute_vectors
       metaclustering_results metacluster_idx_to_submetacluster_results].
  split; [reflexivity |]. split; [exact Hrows |].
  exists top. split; [exact Htop |].
  apply dispatch_loop_inv in Hloop.
  - destruct Hloop as (new & Hnew & Hall & Hv). cbn [app] in Hnew. subst new.
    split; [exact Hall |].
    rewrite Hv.
    assert (E : visited (w_stdout w3) = visited (w_stdout w)).
    { unfold same_visits in V1. rewrite <- V1. subst w2.
      cbn [grown w_stdout] in Hw3.
      destruct (verbose self); subst w3; cbn [w_stdout grown].
      - rewrite visited_app. cbn. rewrite app_nil_r. reflexivity.
      - reflexivity. }
    rewrite E. f_equal.
    rewrite <- (dispatched_pairs _ _ _ _ Hall) at 1.
    rewrite map_map. reflexivity.
  - apply (Permutation_NoDup (l := range (top + 1))); [| apply range_nodup].
    apply Permutation_sym.
    rewrite <- (map_fst_enumerate_sizes
                  (fun idx => count_eq idx (metacluster_indices mr))).
    apply Permutation_map. apply sorted_by_snd_perm.
  - intros k _ [].
Qed.

End Completed.

Lemma Forall2_nth_error_l {A B} (P : A -> B -> Prop) l1 l2 i x :
  Forall2 P l1 l2 -> nth_error l1 i = Some x ->
  exists y, nth_error l2 i = Some y /\ P x y.
Proof.
  intros H. revert i. induction H as [| a b l1 l2 Hab _ IH]; intros [| i];
    cbn; try discriminate.
  - intros [= <-]. exists b. split; [reflexivity | exact Hab].
  - apply IH.
Qed.

Lemma Forall2_in_right {A B} (P : A -> B -> Prop) l1 l2 y :
  Forall2 P l1 l2 -> In y l2 -> exists x, In x l1 /\ P x y.
Proof.
  induction 1 as [| a b l1 l2 Hab _ IH]; intros Hin.
  - destruct Hin.
  - destruct Hin as [<- | Hin].
    + exists a. split; [left; reflexivity | exact Hab].
    + destruct (IH Hin) as (x & Hx & Hp). exists x.
      split; [right; exact Hx | exact Hp].
Qed.

Lemma active_run_returns :
  exists res w', Scripted.active_run = (Ok res, w').
Proof. eexists. eexists. vm_compute. reflexivity. Qed.

(** C5.  When a call returns, the entries of
    [metacluster_idx_to_submetacluster_results] stand in non-decreasing
    order of [metacluster_size]; they are, in that order, the metaclusters
    [0 .. max(metacluster_indices)] stably sorted by size, each with its
    size; and the order in which the run announced the metaclusters it
    worked on is the order of the entries. *)
Theorem metaclusters_by_ascending_size :
  forall {C : Collaborators} (self : TfModiscoWorkflow)
         (names : list string)
         (contrib_scores hypothetical_contribs : list (string * list loc))
         (one_hot : list loc) (w w' : world) (res : TfModiscoResults),
    call self names contrib_scores hypothetical_contribs one_hot w
    = (Ok res, w') ->
    StronglySorted
      (fun a b => metacluster_size (snd a) <= metacluster_size (snd b))
      (metacluster_idx_to_submetacluster_results res) /\
    visited (w_stdout w')
    = visited (w_stdout w)
      ++ map fst (metacluster_idx_to_submetacluster_results res) /\
    exists top,
      max_seq (metacluster_indices (metaclustering_results res)) = Ok top /\
      map (fun e => (fst e, metacluster_size (snd e)))
          (metacluster_idx_to_submetacluster_results res)
      = sorted_by_snd
          (enumerate (metacluster_sizes (metaclustering_results res) top)).
Proof.
  intros C self names cs hy one_hot w w' res Hcall.
  destruct (call_ok_inv _ _ _ _ _ _ _ _ Hcall)
    as (_ & _ & top & Htop & Hall & Hv).
  pose proof (dispatched_pairs _ _ _ _ Hall) as Hpairs.
  split.
  - apply (strongly_sorted_map by_size
             (fun e : Z * SubMetaclusterResults =>
                (fst e, metacluster_size (snd e)))).
    rewrite Hpairs. apply sorted_by_snd_sorted.
  - split; [exact Hv |]. exists top. split; [exact Htop | exact Hpairs].
Qed.

Lemma metaclusters_by_ascending_size_witness :
  exists res w',
    Scripted.active_run = (Ok res, w') /\
    StronglySorted
      (fun a b => metacluster_size (snd a) <= metacluster_size (snd b))
      (metacluster_idx_to_submetacluster_results res).
Proof.
  destruct active_run_returns as (res & w' & E).
  exists res, w'. split; [exact E |].
  exact (proj1 (metaclusters_by_ascending_size _ _ _ _ _ _ _ _ E)).
Defined.

(** C6.  When a call returns, the attribute matrix has one row per final
    seqlet, in the order of [final_seqlets]; every row has one entry per
    task, in the order of [task_names]; and entry (i, j) is what seqlet i
    holds under the key ["<task_j>_label"]. *)
Theorem attribute_matrix_rows_and_columns :
  forall {C : Collaborators} (self : TfModiscoWorkflow)
         (names : list string)
         (contrib_scores hypothetical_contribs : list (string * list loc))
         (one_hot : list loc) (w w' : world) (res : TfModiscoResults),
    call self names contrib_scores hypothetical_contribs one_hot w
    = (Ok res, w') ->
    List.length (seqlet_attribute_vectors res)
    = List.length (final_seqlets (multitask_seqlet_creation_results res)) /\
    Forall (fun row => List.length row = List.length (task_names res))
           (seqlet_attribute_vectors res) /\
    forall (i j : nat) (s : Seqlet) (t : string),
      nth_error (final_seqlets (multitask_seqlet_creation_results res)) i
      = Some s ->
      nth_error (task_names res) j = Some t ->
      exists row v,
        nth_error (seqlet_attribute_vectors res) i = Some row /\
        nth_error row j = Some v /\
        seqlet_getitem s (String.append t "_label") = Ok v.
Proof.
  intros C self names cs hy one_hot w w' res Hcall.
  destruct (call_ok_inv _ _ _ _ _ _ _ _ Hcall) as (Hn & Hrows & _).
  rewrite Hn. split; [| split].
  - symmetry. apply (Forall2_length Hrows).
  - apply (Forall2_right _ _ _ _ Hrows). intros s row Hrow.
    symmetry. apply (Forall2_length Hrow).
  - intros i j s t Hs Ht.
    destruct (Forall2_nth_error_l _ _ _ _ _ Hrows Hs) as (row & Hr & Hrow).
    destruct (Forall2_nth_error_l _ _ _ _ _ Hrow Ht) as (v & Hv & Hget).
    exists row, v. split; [exact Hr |]. split; [exact Hv | exact Hget].
Qed.

Lemma attribute_matrix_rows_and_columns_witness :
  exists res w',
    Scripted.active_run = (Ok res, w') /\
    List.length (seqlet_attribute_vectors res)
    = List.length (final_seqlets (multitask_seqlet_creation_results res)) /\
    Forall (fun row => List.length row = List.length (task_names res))
           (seqlet_attribute_vectors res).
Proof.
  destruct active_run_returns as (res & w' & E).
  exists res, w'. split; [exact E |].
  destruct (attribute_matrix_rows_and_columns _ _ _ _ _ _ _ _ E)
    as (Hlen & Hcols & _).
  split; [exact Hlen | exact Hcols].
Defined.

(** C10.  When a call returns, every entry [idx] of the result holds
    exactly the final seqlets whose metacluster index is [idx], in the
    order of [final_seqlets], and its [metacluster_size] is the length of
    that list. *)
Theorem submetacluster_holds_its_members :
  forall {C : Collaborators} (self : TfModiscoWorkflow)
         (names : list string)
         (contrib_scores hypothetical_contribs : list (string * list loc))
         (one_hot : list loc) (w w' : world) (res : TfModiscoResults)
         (idx : Z) (sub : SubMetaclusterResults),
    call self names contrib_scores hypothetical_contribs one_hot w
    = (Ok res, w') ->
    In (idx, sub) (metacluster_idx_to_submetacluster_results res) ->
    seqlets sub
    = select_by_index idx
        (final_seqlets (multitask_seqlet_creation_results res))
        (metacluster_indices (metaclustering_results res)) /\
    metacluster_size sub = Z.of_nat (List.length (seqlets sub)) /\
    List.length (final_seqlets (multitask_seqlet_creation_results res))
    = List.length (metacluster_indices (metaclustering_results res)).
Proof.
  intros C self names cs hy one_hot w w' res idx sub Hcall Hin.
  destruct (call_ok_inv _ _ _ _ _ _ _ _ Hcall)
    as (_ & _ & top & _ & Hall & _).
  destruct (Forall2_in_right _ _ _ _ Hall Hin)
    as (p & Hp & Hk & Hs & Hsel & Hlen & _).
  cbn [fst snd] in Hk, Hs, Hsel. subst idx.
  split; [exact Hsel |]. split; [| exact Hlen].
  rewrite Hs, Hsel.
  rewrite (select_by_index_count _ _ _ Hlen).
  apply (Permutation_in _ (sorted_by_snd_perm _)) in Hp.
  unfold metacluster_sizes in Hp. rewrite enumerate_map_range in Hp.
  apply in_map_iff in Hp. destruct Hp as (i & <- & _). reflexivity.
Qed.

Lemma submetacluster_holds_its_members_witness :
  exists res w',
    Scripted.active_run = (Ok res, w') /\
    forall idx sub,
      In (idx, sub) (metacluster_idx_to_submetacluster_results res) ->
      metacluster_size sub = Z.of_nat (List.length (seqlets sub)).
Proof.
  destruct active_run_returns as (res & w' & E).
  exists res, w'. split; [exact E |].
  intros idx sub Hin.
  exact (proj1 (proj2 (submetacluster_holds_its_members
                         _ _ _ _ _ _ _ _ _ _ E Hin))).
Defined.

(** ** A metacluster with no relevant task *)

Section Silent_metacluster.

Context {C : Collaborators}.

(** The step of a metacluster whose activity pattern parses to zeros
    only never reaches the skip of lines 229-232: the unpacking of line
    223 raises first. *)
Lemma all_zero_pattern_raises task_names track_set all_seqlets
    (mr : MetaclusteringResults) acc p w pattern activities :
  zdict_get (metacluster_idx_to_activity_pattern mr) (fst p) = Ok pattern ->
  Forall2 (fun token a => parse_int token = Ok a)
          (split "," pattern) activities ->
  List.length all_seqlets = List.length (metacluster_indices mr) ->
  Forall (fun a => a = 0) activities ->
  fst (process_metacluster task_names track_set all_seqlets mr acc p w)
  = Raise (ValueError "not enough values to unpack (expected 2, got 0)").
Proof.
  intros Hpat Hacts Hlen Hzero. unfold process_metacluster.
  unfold bind at 1. cbn [print]. unfold bind at 1. cbn [print].
  unfold bind at 1. unfold lift at 1. rewrite Hpat.
  unfold bind at 1. rewrite (mapM_lift_ok _ _ _ _ Hacts).
  unfold bind at 1. rewrite Hlen, Nat.eqb_refl. cbn [assert ret].
  unfold bind at 1. unfold lift at 1.
  rewrite (unpack_relevant_all_zero _ _ Hzero). reflexivity.
Qed.

(** A step that returns has always recorded an entry. *)
Lemma returning_step_records task_names track_set all_seqlets
    (mr : MetaclusteringResults) acc p w acc' w' :
  process_metacluster task_names track_set all_seqlets mr acc p w
  = (Ok acc', w') ->
  In (fst p) (map fst acc').
Proof.
  intros H. apply process_metacluster_ok_inv in H.
  destruct H as (sub & -> & _ & _).
  clear. induction acc as [| [k v] acc IH]; cbn [odict_set].
  - left. reflexivity.
  - destruct (Z.eqb_spec (fst p) k) as [-> | _].
    + left. reflexivity.
    + right. exact IH.
Qed.

End Silent_metacluster.

(** C1 is what lines 229-232 intend and what the code fails to do.  One
    task, three seqlets; the metaclusterer assigns indices [0, 1, 0] and
    the patterns "1" for metacluster 0 and "0" for metacluster 1.
    Metacluster 1, the smaller one, comes first; its pattern has no
    nonzero entry, and the call raises [ValueError] instead of skipping:
    no result is returned, the skip message is never printed, and
    metacluster 0 is never reached. *)
Theorem silent_metacluster_aborts_the_run :
  fst Scripted.silent_run
  = Raise (ValueError "not enough values to unpack (expected 2, got 0)") /\
  visited (w_stdout (snd Scripted.silent_run)) = [1] /\
  ~ In NoTasksFoundRelevantSkipping (w_stdout (snd Scripted.silent_run)).
Proof.
  split; [vm_compute; reflexivity |].
  split; [vm_compute; reflexivity |].
  vm_compute. intros H.
  repeat (destruct H as [H | H]; [discriminate H |]). exact H.
Qed.

(** ** Persistence *)

Lemma strip_prefix_append (p s : string) :
  strip_prefix p (String.append p s) = Some s.
Proof.
  induction p as [| c p IH]; cbn.
  - reflexivity.
  - rewrite Ascii.eqb_refl. exact IH.
Qed.

Lemma int_of_string_str_int (z : Z) :
  option_map Z.of_int (NilZero.int_of_string (str_int z)) = Some z.
Proof.
  unfold str_int. rewrite NilZero.isi.
  - cbn. rewrite DecimalZ.of_to. reflexivity.
  - destruct z; cbn; try discriminate.
    intros [= H]. apply (DecimalPos.Unsigned.to_uint_nonnil _ H).
  - destruct z; cbn; try discriminate.
    intros [= H]. apply (DecimalPos.Unsigned.to_uint_nonnil _ H).
Qed.

Lemma index_of_group_name_roundtrip (idx : Z) :
  index_of_group_name (metacluster_group_name idx) = Some idx.
Proof.
  unfold index_of_group_name, metacluster_group_name.
  rewrite strip_prefix_append. apply int_of_string_str_int.
Qed.

Lemma metacluster_group_name_inj (i j : Z) :
  metacluster_group_name i = metacluster_group_name j -> i = j.
Proof.
  intros H. apply (f_equal index_of_group_name) in H.
  rewrite !index_of_group_name_roundtrip in H. inversion H. reflexivity.
Qed.

Lemma existsb_name_absent {V} (n : string) (l : list (string * V)) :
  ~ In n (map fst l) ->
  existsb (fun kv => String.eqb n (fst kv)) l = false.
Proof.
  induction l as [| [k v] l IH]; cbn; intros H.
  - reflexivity.
  - destruct (String.eqb_spec n k) as [-> | _]; cbn.
    + exfalso. apply H. left. reflexivity.
    + apply IH. intros Hin. apply H. right. exact Hin.
Qed.

Lemma find_by_name_head {V} (n : string) (v : V) (l : list (string * V)) :
  find_by_name ((n, v) :: l) n = Some v.
Proof. unfold find_by_name. cbn. rewrite String.eqb_refl. reflexivity. Qed.

Section Round_trip.

Context {C : Collaborators}.

Lemma sub_save_hdf5_empty (r : SubMetaclusterResults) (g : h5group) :
  patterns_save_hdf5 (seqlets_to_patterns_result r) empty_group = Ok g ->
  sub_save_hdf5 r empty_group = Ok (saved_submetacluster r g).
Proof.
  intros H. unfold sub_save_hdf5, H5.create_group. cbn. rewrite H.
  reflexivity.
Qed.

Lemma save_submetaclusters_spec :
  forall (entries : list (Z * SubMetaclusterResults)) (saved : list h5group)
         (done : list (string * h5group)),
    Forall2 (fun e g =>
               patterns_save_hdf5 (seqlets_to_patterns_result (snd e))
                                  empty_group = Ok g)
            entries saved ->
    NoDup (map fst entries) ->
    (forall k, In k (map fst entries) ->
               ~ In (metacluster_group_name k) (map fst done)) ->
    save_submetaclusters entries (H5Group [] [] done)
    = Ok (H5Group [] [] (done ++ map saved_member (combine entries saved))).
Proof.
  intros entries saved done H. revert done.
  induction H as [| [idx r] g entries saved Hg _ IH]; intros done Hnd Hfresh.
  - cbn. rewrite app_nil_r. reflexivity.
  - cbn [save_submetaclusters]. unfold H5.create_group, H5.name_taken.
    cbn [h5_datasets h5_groups h5_attrs existsb orb].
    rewrite existsb_name_absent by (apply Hfresh; left; reflexivity).
    cbn [snd] in Hg. rewrite (sub_save_hdf5_empty r g Hg). cbn [rbind].
    inversion Hnd as [| ? ? Hidx Hnd']; subst.
    rewrite IH.
    + cbn [combine map]. rewrite <- app_assoc. reflexivity.
    + exact Hnd'.
    + intros k Hk. rewrite map_app. cbn [map fst]. intros Hin.
      apply in_app_or in Hin. destruct Hin as [Hin | [Heq | []]].
      * apply (Hfresh k); [right; exact Hk | exact Hin].
      * apply metacluster_group_name_inj in Heq. subst k.
        apply Hidx. exact Hk.
Qed.

Lemma load_saved_members (entries : list (Z * SubMetaclusterResults))
    (saved : list h5group) :
  List.length saved = List.length entries ->
  load_all load_submetacluster (map saved_member (combine entries saved))
  = Some (map shape_of entries).
Proof.
  revert saved. induction entries as [| e entries IH]; intros [| g saved] Hlen;
    cbn [List.length] in Hlen; try discriminate.
  - reflexivity.
  - cbn [combine map load_all]. rewrite IH by lia.
    unfold load_submetacluster, saved_member. cbn [fst snd].
    rewrite index_of_group_name_roundtrip.
    unfold saved_submetacluster. cbn [h5_attrs h5_datasets].
    rewrite !find_by_name_head. reflexivity.
Qed.

End Round_trip.

Section Round_trip_theorem.

Context {C : Collaborators}.


(** C8.  Persisting a result into an empty root group, with the three
    opaque results able to persist themselves, writes under
    [metacluster_idx_to_submetacluster_results] one group
    ["metacluster" + str(idx)] per entry of the mapping and no other,
    each with the entry's [size] attribute and [activity_pattern]
    dataset; and reading the structural shape back gives the task names
    and, entry by entry, the same keys, sizes and activity patterns. *)
Theorem persisted_shape_round_trips :
  forall (self : TfModiscoResults) (g1 g2 : h5group) (saved : list h5group),
    NoDup (map fst (metacluster_idx_to_submetacluster_results self)) ->
    seqlet_creation_save_hdf5 (multitask_seqlet_creation_results self)
                              empty_group = Ok g1 ->
    metaclustering_save_hdf5 (metaclustering_results self) empty_group
    = Ok g2 ->
    Forall2 (fun e g =>
               patterns_save_hdf5 (seqlets_to_patterns_result (snd e))
                                  empty_group = Ok g)
            (metacluster_idx_to_submetacluster_results self) saved ->
    exists root container,
      save_hdf5 self empty_group = Ok root /\
      find_by_name (h5_groups root)
                   "metacluster_idx_to_submetacluster_results"
      = Some container /\
      map fst (h5_groups container)
      = map (fun e => metacluster_group_name (fst e))
            (metacluster_idx_to_submetacluster_results self) /\
      Forall2 (fun e m =>
                 find_by_name (h5_attrs (snd m)) "size"
                 = Some (metacluster_size (snd e)) /\
                 find_by_name (h5_datasets (snd m)) "activity_pattern"
                 = Some (H5Ints (activity_pattern (snd e))))
              (metacluster_idx_to_submetacluster_results self)
              (h5_groups container) /\
      load_structure root
      = Some (task_names self,
              map shape_of (metacluster_idx_to_submetacluster_results self)).
Proof.
  intros self g1 g2 saved Hnd H1 H2 Hall.
  set (entries := metacluster_idx_to_submetacluster_results self) in *.
  set (members := map saved_member (combine entries saved)).
  exists (H5Group []
            [("task_names", H5Strings (task_names self))]
            [("multitask_seqlet_creation_results", g1);
             ("metaclustering_results", g2);
             ("metacluster_idx_to_submetacluster_results",
              H5Group [] [] members)]),
         (H5Group [] [] members).
  assert (Hsave : save_submetaclusters entries empty_group
                  = Ok (H5Group [] [] members)).
  { unfold empty_group.
    rewrite (save_submetaclusters_spec entries saved [] Hall Hnd).
    - reflexivity.
    - intros k _ []. }
  split.
  { unfold save_hdf5, H5.save_string_list, H5.create_dataset,
      H5.create_group. cbn. rewrite H1. cbn. rewrite H2. cbn.
    fold entries. rewrite Hsave. reflexivity. }
  split; [reflexivity |].
  cbn [h5_groups].
  assert (Hlen : List.length saved = List.length entries)
    by (symmetry; apply (Forall2_length Hall)).
  split.
  { unfold members. clear - Hlen. revert saved Hlen.
    induction entries as [| e es IH]; intros [| g saved] Hlen;
      cbn [List.length] in Hlen; try discriminate.
    - reflexivity.
    - cbn [combine map fst saved_member]. rewrite IH by lia. reflexivity. }
  split.
  { unfold members. clear - Hlen. revert saved Hlen.
    induction entries as [| e es IH]; intros [| g saved] Hlen;
      cbn [List.length] in Hlen; try discriminate.
    - constructor.
    - cbn [combine map]. constructor; [| apply IH; lia].
      unfold saved_member, saved_submetacluster.
      cbn [fst snd h5_attrs h5_datasets].
      rewrite !find_by_name_head. split; reflexivity. }
  unfold load_structure. cbn [h5_datasets h5_groups].
  rewrite find_by_name_head.
  unfold find_by_name at 1. cbn.
  unfold members. rewrite (load_saved_members entries saved Hlen).
  reflexivity.
Qed.

End Round_trip_theorem.

Lemma persisted_shape_round_trips_witness :
  exists root container,
    save_hdf5 Scripted.active_results empty_group = Ok root /\
    find_by_name (h5_groups root)
                 "metacluster_idx_to_submetacluster_results"
    = Some container /\
    map fst (h5_groups container) = ["metacluster1"; "metacluster0"] /\
    load_structure root = Some (["task0"], [(1, (1, [-1])); (0, (2, [1]))]).
Proof.
  destruct (persisted_shape_round_trips
              (C := Scripted.collaborators Scripted.active_script)
              Scripted.active_results empty_group empty_group
              [empty_group; empty_group])
    as (root & container & Hsave & Hfind & Hnames & _ & Hload).
  - cbn. repeat constructor; cbn; intuition discriminate.
  - reflexivity.
  - reflexivity.
  - repeat constructor.
  - exists root, container.
    split; [exact Hsave |]. split; [exact Hfind |].
    split; [exact Hnames | exact Hload].
Defined.

(* ================================================================== *)
(** * Further properties of the code *)
(* ================================================================== *)

(** ** The automatic threshold *)

Lemma window_fractions (m T : Z) :
  0 <= m -> m < T ->
  (0 < inject_Z T /\
   0 <= inject_Z m / inject_Z T /\
   inject_Z m / inject_Z T < 1 /\
   0 < inject_Z 500 / inject_Z T /\
   (inject_Z m / inject_Z T) * inject_Z T == inject_Z m /\
   (inject_Z 500 / inject_Z T) * inject_Z T == 500)%Q.
Proof.
  intros Hm HT.
  assert (HTq : (0 < inject_Z T)%Q)
    by (change (inject_Z 0 < inject_Z T)%Q; rewrite <- Zlt_Qlt; lia).
  assert (Hmq : (0 <= inject_Z m)%Q)
    by (change (inject_Z 0 <= inject_Z m)%Q; rewrite <- Zle_Qle; lia).
  assert (HmT : (inject_Z m < inject_Z T)%Q) by (rewrite <- Zlt_Qlt; lia).
  assert (Hnz : ~ (inject_Z T == 0)%Q).
  { intros E. rewrite E in HTq. discriminate. }
  split; [exact HTq |].
  split. { apply Qle_shift_div_l; [exact HTq |]. rewrite Qmult_0_l. exact Hmq. }
  split. { apply Qlt_shift_div_r; [exact HTq |]. rewrite Qmult_1_l. exact HmT. }
  split. { apply Qlt_shift_div_l; [exact HTq |]. rewrite Qmult_0_l. reflexivity. }
  split; field; exact Hnz.
Qed.




(** X2.  The 0.99 in the formula is not a cap: with the automatic setting
    and [0 <= min_cluster_size < T], the derived threshold is above 0.99
    exactly when there are more than 50000 windows. *)
Theorem auto_threshold_above_099_iff_many_windows :
  forall (self : TfModiscoWorkflow) (one_hot : list loc) (w : world),
    laplace_threshold_cdf self = Auto ->
    0 <= min_cluster_size self ->
    min_cluster_size self < total_num self (w_heap w) one_hot ->
    exists t : Q,
      derive_laplace_threshold self one_hot w = (Ok t, w) /\
      ((0.99 < t)%Q <-> 50000 < total_num self (w_heap w) one_hot).
Proof.
  intros self one_hot w HA Hm HT.
  exists (auto_threshold (min_cluster_size self)
                         (total_num self (w_heap w) one_hot)).
  split; [apply derive_auto_ok; [exact HA | exact HT | lia] |].
  destruct (window_fractions _ _ Hm HT) as (HTq & Hx0 & Hx1 & Hy & Hxm & Hym).
  rewrite (Zlt_Qlt 50000 (total_num self (w_heap w) one_hot)).
  change (inject_Z 50000) with 50000%Q.
  unfold auto_threshold, max2, min2.
  change (inject_Z 500) with 500%Q in *.
  set (x := (inject_Z (min_cluster_size self)
             / inject_Z (total_num self (w_heap w) one_hot))%Q) in *.
  set (y := (500 / inject_Z (total_num self (w_heap w) one_hot))%Q) in *.
  set (Tq := inject_Z (total_num self (w_heap w) one_hot)) in *.
  clearbody x y Tq.
  destruct (Qlt_le_dec (1 - x) 0.99); destruct (Qlt_le_dec _ (1 - y));
    split; intros H; try lra; try nra.
Qed.

Lemma auto_threshold_above_099_iff_many_windows_witness :
  exists t : Q,
    derive_laplace_threshold Scripted.default_workflow Scripted.ten_one_hot
      (Scripted.fresh Scripted.ten_sequences)
    = (Ok t, Scripted.fresh Scripted.ten_sequences) /\
    ~ (0.99 < t)%Q.
Proof.
  destruct (auto_threshold_above_099_iff_many_windows
              Scripted.default_workflow Scripted.ten_one_hot
              (Scripted.fresh Scripted.ten_sequences))
    as (t & Hrun & Hiff).
  - reflexivity.
  - vm_compute. discriminate.
  - vm_compute. reflexivity.
  - exists t. split; [exact Hrun |].
    intros H. apply Hiff in H. vm_compute in H. discriminate H.
Defined.

(** ** Missing keys in the score mappings *)

Lemma dict_get_missing {V} (d : list (string * V)) (k : string) :
  ~ In k (map fst d) -> dict_get d k = Raise (KeyError k).
Proof.
  induction d as [| [k' v] d IH]; cbn; intros H.
  - reflexivity.
  - destruct (String.eqb_spec k k') as [-> | _].
    + exfalso. apply H. left. reflexivity.
    + apply IH. intros Hin. apply H. right. exact Hin.
Qed.

Lemma mapM_raises_at {A B} (f : A -> M B) (pre post : list A) (x : A)
    w ys w1 e w2 :
  mapM f pre w = (Ok ys, w1) ->
  f x w1 = (Raise e, w2) ->
  mapM f (pre ++ x :: post) w = (Raise e, w2).
Proof.
  revert w ys. induction pre as [| a pre IH]; intros w ys Hpre Hx.
  - cbn in Hpre. inversion Hpre; subst. cbn [app mapM].
    apply bind_raise. exact Hx.
  - cbn [mapM] in Hpre. inv_bind Hpre. inv_bind Hpre.
    inversion Hpre; subst.
    cbn [app mapM]. rewrite (bind_ok _ _ _ _ _ Hstep).
    apply bind_raise. apply (IH _ _ Hstep0 Hx).
Qed.

Lemma scores_track_missing suffix scores key w :
  ~ In key (map fst scores) ->
  scores_track suffix scores key w = (Raise (KeyError key), w).
Proof.
  intros H. unfold scores_track. apply bind_raise.
  unfold lift. rewrite (dict_get_missing _ _ H). reflexivity.
Qed.

(** X3.  Track construction reports the first task name, in the order of
    [task_names], that is not a key of [contrib_scores] by a [KeyError]
    for that name; when every task is a key of [contrib_scores], it
    reports the first one missing from [hypothetical_contribs].  The
    reverse arrays of the tracks built before are the only change. *)
Theorem first_missing_score_key_raises :
  forall (pre post : list string) (t : string)
         (contrib_scores hypothetical_contribs : list (string * list loc))
         (one_hot : list loc) (w : world),
    (keys_resolve (w_heap w) contrib_scores pre ->
     ~ In t (map fst contrib_scores) ->
     exists fresh,
       build_track_set (pre ++ t :: post) contrib_scores
                       hypothetical_contribs one_hot w
       = (Raise (KeyError t), grown w fresh)) /\
    (keys_resolve (w_heap w) contrib_scores (pre ++ t :: post) ->
     keys_resolve (w_heap w) hypothetical_contribs pre ->
     ~ In t (map fst hypothetical_contribs) ->
     exists fresh,
       build_track_set (pre ++ t :: post) contrib_scores
                       hypothetical_contribs one_hot w
       = (Raise (KeyError t), grown w fresh)).
Proof.
  intros pre post t cs hy one_hot w. split.
  - intros Hpre Hmiss.
    destruct (tracks_spec "_contrib_scores" cs pre w Hpre)
      as (tracks & fresh & Hrun & _).
    exists fresh. unfold build_track_set. apply bind_raise.
    apply (mapM_raises_at _ _ _ _ _ _ _ _ _ Hrun).
    apply scores_track_missing. exact Hmiss.
  - intros Hall Hpre Hmiss.
    destruct (tracks_spec "_contrib_scores" cs (pre ++ t :: post) w Hall)
      as (tracks & f1 & Hrun1 & _).
    destruct (tracks_spec "_hypothetical_contribs" hy pre (grown w f1))
      as (htracks & f2 & Hrun2 & _).
    { cbn [grown w_heap]. apply keys_resolve_grow. exact Hpre. }
    exists (f1 ++ f2). unfold build_track_set.
    rewrite (bind_ok _ _ _ _ _ Hrun1). apply bind_raise.
    rewrite <- grown_grown.
    apply (mapM_raises_at _ _ _ _ _ _ _ _ _ Hrun2).
    apply scores_track_missing. exact Hmiss.
Qed.

Lemma first_missing_score_key_raises_witness :
  exists fresh,
    build_track_set ["task0"; "task1"] Scripted.small_contribs
      Scripted.small_hypothetical Scripted.small_one_hot
      (Scripted.fresh Scripted.small_heap)
    = (Raise (KeyError "task1"),
       grown (Scripted.fresh Scripted.small_heap) fresh).
Proof.
  apply (proj1 (first_missing_score_key_raises ["task0"] [] "task1"
                  Scripted.small_contribs Scripted.small_hypothetical
                  Scripted.small_one_hot
                  (Scripted.fresh Scripted.small_heap))).
  - constructor; [| constructor].
    exists [0; 1; 2]%nat. split; [reflexivity |].
    repeat (constructor; [cbn; lia |]). constructor.
  - cbn. intros [H | []]. discriminate H.
Defined.

(** ** The entries of a returned result *)

Lemma in_range (i n : Z) : In i (range n) <-> 0 <= i < n.
Proof.
  unfold range. rewrite in_map_iff. split.
  - intros (k & <- & Hk). apply in_seq in Hk. lia.
  - intros H. exists (Z.to_nat i). split; [lia |]. apply in_seq. lia.
Qed.

Lemma fold_left_max_spec (l : list Z) (a : Z) :
  (fold_left Z.max l a = a \/ In (fold_left Z.max l a) l) /\
  a <= fold_left Z.max l a /\
  Forall (fun x => x <= fold_left Z.max l a) l.
Proof.
  revert a. induction l as [| x l IH]; intros a; cbn [fold_left].
  - split; [left; reflexivity |]. split; [lia | constructor].
  - destruct (IH (Z.max a x)) as (Hin & Hle & Hall).
    split; [| split].
    + destruct Hin as [E | Hin].
      * rewrite E. destruct (Z.max_spec a x) as [[_ ->] | [_ ->]].
        -- right. left. reflexivity.
        -- left. reflexivity.
      * right. right. exact Hin.
    + lia.
    + constructor; [lia | exact Hall].
Qed.

Lemma max_seq_spec (l : list Z) (top : Z) :
  max_seq l = Ok top -> In top l /\ Forall (fun x => x <= top) l.
Proof.
  destruct l as [| x l]; cbn [max_seq]; [discriminate |].
  intros [= <-].
  destruct (fold_left_max_spec l x) as (Hin & Hle & Hall).
  split.
  - destruct Hin as [-> | Hin]; [left; reflexivity | right; exact Hin].
  - constructor; assumption.
Qed.

Section Entries.

Context {C : Collaborators}.

Lemma returned_keys_permutation self names contrib_scores
    hypothetical_contribs one_hot w res w' top :
  call self names contrib_scores hypothetical_contribs one_hot w
  = (Ok res, w') ->
  max_seq (metacluster_indices (metaclustering_results res)) = Ok top ->
  Permutation (map fst (metacluster_idx_to_submetacluster_results res))
              (range (top + 1)).
Proof.
  intros H Htop. destruct (call_ok_inv _ _ _ _ _ _ _ _ H)
    as (_ & _ & top' & Htop' & Hall & _).
  rewrite Htop in Htop'. inversion Htop'; subst top'. clear Htop'.
  pose proof (dispatched_pairs _ _ _ _ Hall) as Hp.
  assert (E : map fst (metacluster_idx_to_submetacluster_results res)
              = map fst
                  (map (fun e : Z * SubMetaclusterResults =>
                          (fst e, metacluster_size (snd e)))
                       (metacluster_idx_to_submetacluster_results res))).
  { rewrite map_map. apply map_ext. intros e. reflexivity. }
  rewrite E, Hp.
  apply perm_trans
    with (map fst (enumerate (metacluster_sizes (metaclustering_results res)
                                                top))).
  - apply Permutation_map. apply sorted_by_snd_perm.
  - unfold metacluster_sizes. rewrite map_fst_enumerate_sizes.
    apply Permutation_refl.
Qed.

(** X4.  The keys of a returned result are exactly the indices
    [0 .. max(metacluster_indices)], each once: no metacluster in that
    range is left out, and one that no seqlet belongs to is recorded with
    size 0 and no seqlets. *)
Theorem every_index_up_to_max_is_a_key :
  forall (self : TfModiscoWorkflow) (names : list string)
         (contrib_scores hypothetical_contribs : list (string * list loc))
         (one_hot : list loc) (w w' : world) (res : TfModiscoResults),
    call self names contrib_scores hypothetical_contribs one_hot w
    = (Ok res, w') ->
    exists top,
      max_seq (metacluster_indices (metaclustering_results res)) = Ok top /\
      In top (metacluster_indices (metaclustering_results res)) /\
      Permutation (map fst (metacluster_idx_to_submetacluster_results res))
                  (range (top + 1)) /\
      forall idx sub,
        In (idx, sub) (metacluster_idx_to_submetacluster_results res) ->
        ~ In idx (metacluster_indices (metaclustering_results res)) ->
        metacluster_size sub = 0 /\ seqlets sub = [].
Proof.
  intros self names cs hy one_hot w w' res H.
  destruct (call_ok_inv _ _ _ _ _ _ _ _ H)
    as (_ & _ & top & Htop & Hall & _).
  exists top. split; [exact Htop |].
  split; [apply (max_seq_spec _ _ Htop) |].
  split; [apply (returned_keys_permutation _ _ _ _ _ _ _ _ _ H Htop) |].
  intros idx sub Hin Hnot.
  destruct (Forall2_in_right _ _ _ _ Hall Hin)
    as (p & Hp & Hk & Hs & Hsel & Hlen & _).
  cbn [fst snd] in Hk, Hs, Hsel. subst idx.
  assert (Hnone : select_by_index (fst p)
                    (final_seqlets (multitask_seqlet_creation_results res))
                    (metacluster_indices (metaclustering_results res)) = []).
  { revert Hnot. clear.
    generalize (final_seqlets (multitask_seqlet_creation_results res)).
    induction (metacluster_indices (metaclustering_results res))
      as [| i l IH]; intros [| s ss] Hnot; cbn [select_by_index];
      try reflexivity.
    destruct (Z.eqb_spec i (fst p)) as [-> | _].
    - exfalso. apply Hnot. left. reflexivity.
    - apply IH. intros Hin. apply Hnot. right. exact Hin. }
  split; [| rewrite Hsel; exact Hnone].
  apply (Permutation_in _ (sorted_by_snd_perm _)) in Hp.
  unfold metacluster_sizes in Hp. rewrite enumerate_map_range in Hp.
  apply in_map_iff in Hp. destruct Hp as (i & <- & _).
  cbn [fst snd] in *. rewrite Hs.
  rewrite <- (select_by_index_count _ _ _ Hlen), Hnone. reflexivity.
Qed.

(** X5.  Every entry of a returned result has an activity pattern with
    at least one nonzero sign, and that pattern is the metaclusterer's
    string for the entry's index, split at the commas and read as
    integers, every token kept. *)
Theorem every_key_has_a_nonzero_pattern :
  forall (self : TfModiscoWorkflow) (names : list string)
         (contrib_scores hypothetical_contribs : list (string * list loc))
         (one_hot : list loc) (w w' : world) (res : TfModiscoResults)
         (idx : Z) (sub : SubMetaclusterResults),
    call self names contrib_scores hypothetical_contribs one_hot w
    = (Ok res, w') ->
    In (idx, sub) (metacluster_idx_to_submetacluster_results res) ->
    Exists (fun a => a <> 0) (activity_pattern sub) /\
    exists pattern,
      zdict_get (metacluster_idx_to_activity_pattern
                   (metaclustering_results res)) idx = Ok pattern /\
      Forall2 (fun token a => parse_int token = Ok a)
              (split "," pattern) (activity_pattern sub).
Proof.
  intros self names cs hy one_hot w w' res idx sub H Hin.
  destruct (call_ok_inv _ _ _ _ _ _ _ _ H) as (_ & _ & top & _ & Hall & _).
  destruct (Forall2_in_right _ _ _ _ Hall Hin)
    as (p & _ & Hk & _ & _ & _ & Hpat & Hnz).
  cbn [fst snd] in Hk, Hpat, Hnz. subst idx.
  split; [exact Hnz | exact Hpat].
Qed.

End Entries.

Lemma every_index_up_to_max_is_a_key_witness :
  exists res w' top,
    Scripted.active_run = (Ok res, w') /\
    max_seq (metacluster_indices (metaclustering_results res)) = Ok top /\
    Permutation (map fst (metacluster_idx_to_submetacluster_results res))
                (range (top + 1)).
Proof.
  destruct active_run_returns as (res & w' & E).
  destruct (every_index_up_to_max_is_a_key _ _ _ _ _ _ _ _ E)
    as (top & Htop & _ & Hperm & _).
  exists res, w', top. split; [exact E |]. split; [exact Htop | exact Hperm].
Defined.

Lemma every_key_has_a_nonzero_pattern_witness :
  exists res w',
    Scripted.active_run = (Ok res, w') /\
    forall idx sub,
      In (idx, sub) (metacluster_idx_to_submetacluster_results res) ->
      Exists (fun a => a <> 0) (activity_pattern sub).
Proof.
  destruct active_run_returns as (res & w' & E).
  exists res, w'. split; [exact E |].
  intros idx sub Hin.
  exact (proj1 (every_key_has_a_nonzero_pattern _ _ _ _ _ _ _ _ _ _ E Hin)).
Defined.

(** ** Ties between metaclusters of one size *)

Lemma by_size_then_index_weak (a b : Z * Z) :
  by_size_then_index a b -> snd a <= snd b.
Proof. unfold by_size_then_index. lia. Qed.

Lemma insert_by_snd_lex (x : Z * Z) (s : list (Z * Z)) :
  StronglySorted by_size_then_index s ->
  Forall (fun y => fst x < fst y) s ->
  StronglySorted by_size_then_index (insert_by_snd x s).
Proof.
  induction 1 as [| y s Hs IH Hy]; intros Hx; cbn [insert_by_snd].
  - repeat constructor.
  - inversion Hx as [| ? ? Hxy Hxs]; subst.
    destruct (Z.leb_spec (snd x) (snd y)) as [Hle | Hgt].
    + constructor; [constructor; assumption |].
      constructor.
      * unfold by_size_then_index. lia.
      * rewrite Forall_forall in Hy, Hxs. apply Forall_forall.
        intros z Hz. pose proof (by_size_then_index_weak _ _ (Hy z Hz)).
        specialize (Hxs z Hz). unfold by_size_then_index. lia.
    + constructor; [apply IH; exact Hxs |].
      apply Forall_forall. intros z Hz.
      apply (Permutation_in _ (insert_by_snd_perm x s)) in Hz.
      destruct Hz as [<- | Hz].
      * unfold by_size_then_index. lia.
      * rewrite Forall_forall in Hy. apply Hy. exact Hz.
Qed.

Lemma sorted_by_snd_lex (l : list (Z * Z)) :
  StronglySorted (fun a b => fst a < fst b) l ->
  StronglySorted by_size_then_index (sorted_by_snd l).
Proof.
  induction 1 as [| x l Hs IH Hx]; cbn [sorted_by_snd fold_right].
  - constructor.
  - apply insert_by_snd_lex; [exact IH |].
    rewrite Forall_forall in Hx. apply Forall_forall. intros y Hy.
    apply Hx. apply (Permutation_in _ (sorted_by_snd_perm l)). exact Hy.
Qed.

Lemma enumerated_indices_increase (f : Z -> Z) (start n : nat) :
  StronglySorted (fun a b : Z * Z => fst a < fst b)
    (map (fun i => (i, f i)) (map Z.of_nat (seq start n))).
Proof.
  revert start. induction n as [| n IH]; intros start; cbn [seq map].
  - constructor.
  - constructor; [apply IH |].
    apply Forall_forall. intros y Hy.
    apply in_map_iff in Hy. destruct Hy as (i & <- & Hi).
    apply in_map_iff in Hi. destruct Hi as (k & <- & Hk).
    apply in_seq in Hk. cbn [fst]. lia.
Qed.

Section Ties.

Context {C : Collaborators}.

(** X6.  In a returned result the entries are ordered by size and,
    between entries of one size, by metacluster index: of two entries,
    the earlier one has the smaller size, or the same size and the
    smaller index. *)
Theorem equal_sizes_keep_index_order :
  forall (self : TfModiscoWorkflow) (names : list string)
         (contrib_scores hypothetical_contribs : list (string * list loc))
         (one_hot : list loc) (w w' : world) (res : TfModiscoResults),
    call self names contrib_scores hypothetical_contribs one_hot w
    = (Ok res, w') ->
    StronglySorted
      (fun a b : Z * SubMetaclusterResults =>
         metacluster_size (snd a) < metacluster_size (snd b) \/
         (metacluster_size (snd a) = metacluster_size (snd b) /\
          fst a < fst b))
      (metacluster_idx_to_submetacluster_results res).
Proof.
  intros self names cs hy one_hot w w' res H.
  destruct (call_ok_inv _ _ _ _ _ _ _ _ H) as (_ & _ & top & _ & Hall & _).
  pose proof (dispatched_pairs _ _ _ _ Hall) as Hp.
  apply (strongly_sorted_map by_size_then_index
           (fun e : Z * SubMetaclusterResults =>
              (fst e, metacluster_size (snd e)))).
  rewrite Hp. apply sorted_by_snd_lex.
  unfold metacluster_sizes. rewrite enumerate_map_range.
  apply enumerated_indices_increase.
Qed.

End Ties.

Lemma equal_sizes_keep_index_order_witness :
  exists res w',
    Scripted.active_run = (Ok res, w') /\
    StronglySorted
      (fun a b : Z * SubMetaclusterResults =>
         metacluster_size (snd a) < metacluster_size (snd b) \/
         (metacluster_size (snd a) = metacluster_size (snd b) /\
          fst a < fst b))
      (metacluster_idx_to_submetacluster_results res).
Proof.
  destruct active_run_returns as (res & w' & E).
  exists res, w'. split; [exact E |].
  exact (equal_sizes_keep_index_order _ _ _ _ _ _ _ _ E).
Defined.

(** ** Sizes add up *)

Lemma indicator_sum (x : Z) (start n : nat) :
  fold_right Z.add 0
    (map (fun i => if i =? x then 1 else 0) (map Z.of_nat (seq start n)))
  = if ((Z.of_nat start <=? x) && (x <? Z.of_nat (start + n)))%bool
    then 1 else 0.
Proof.
  revert start. induction n as [| n IH]; intros start; cbn [seq map fold_right].
  - destruct (Z.leb_spec (Z.of_nat start) x);
      destruct (Z.ltb_spec x (Z.of_nat (start + 0))); cbn; lia.
  - rewrite IH.
    destruct (Z.eqb_spec (Z.of_nat start) x);
      destruct (Z.leb_spec (Z.of_nat (S start)) x);
      destruct (Z.ltb_spec x (Z.of_nat (S start + n)));
      destruct (Z.leb_spec (Z.of_nat start) x);
      destruct (Z.ltb_spec x (Z.of_nat (start + S n))); cbn; lia.
Qed.

Lemma fold_right_add_map2 {A} (f g : A -> Z) (l : list A) :
  fold_right Z.add 0 (map (fun i => f i + g i) l)
  = fold_right Z.add 0 (map f l) + fold_right Z.add 0 (map g l).
Proof.
  induction l as [| x l IH]; cbn [map fold_right]; lia.
Qed.

Lemma counts_partition (l : list Z) (n : Z) :
  Forall (fun x => 0 <= x < n) l ->
  fold_right Z.add 0 (map (fun i => count_eq i l) (range n))
  = Z.of_nat (List.length l).
Proof.
  induction 1 as [| x l Hx _ IH].
  - unfold count_eq. cbn [filter List.length].
    induction (range n) as [| i r IHr]; cbn [map fold_right]; lia.
  - assert (E : map (fun i => count_eq i (x :: l)) (range n)
                = map (fun i => (if i =? x then 1 else 0) + count_eq i l)
                      (range n)).
    { apply map_ext. intros i. unfold count_eq. cbn [filter].
      destruct (i =? x); cbn [List.length]; lia. }
    rewrite E, fold_right_add_map2, IH.
    unfold range. rewrite indicator_sum.
    destruct (Z.leb_spec (Z.of_nat 0) x);
      destruct (Z.ltb_spec x (Z.of_nat (0 + Z.to_nat n)));
      cbn [andb List.length]; lia.
Qed.

Lemma fold_right_add_perm (l1 l2 : list Z) :
  Permutation l1 l2 -> fold_right Z.add 0 l1 = fold_right Z.add 0 l2.
Proof.
  induction 1; cbn [fold_right]; lia.
Qed.

Lemma map_snd_enumerate_sizes (f : Z -> Z) (n : Z) :
  map snd (enumerate (map f (range n))) = map f (range n).
Proof.
  rewrite enumerate_map_range, map_map. reflexivity.
Qed.

Section Sizes.

Context {C : Collaborators}.

(** With some index that is not negative, the loop runs at least once,
    so the assertion of line 219 has been checked. *)
Lemma returned_lengths_agree self names contrib_scores hypothetical_contribs
    one_hot w res w' :
  call self names contrib_scores hypothetical_contribs one_hot w
  = (Ok res, w') ->
  Exists (fun i => 0 <= i) (metacluster_indices (metaclustering_results res)) ->
  List.length (final_seqlets (multitask_seqlet_creation_results res))
  = List.length (metacluster_indices (metaclustering_results res)).
Proof.
  intros H Hex.
  destruct (call_ok_inv _ _ _ _ _ _ _ _ H) as (_ & _ & top & Htop & Hall & _).
  pose proof (returned_keys_permutation _ _ _ _ _ _ _ _ _ H Htop) as Hperm.
  destruct (max_seq_spec _ _ Htop) as [_ Hmax].
  assert (H0 : In 0 (range (top + 1))).
  { apply in_range. apply Exists_exists in Hex.
    destruct Hex as (i & Hi & Hge).
    rewrite Forall_forall in Hmax. specialize (Hmax i Hi). lia. }
  apply (Permutation_in _ (Permutation_sym Hperm)) in H0.
  apply in_map_iff in H0. destruct H0 as (e & _ & He).
  destruct (Forall2_in_right _ _ _ _ Hall He) as (p & _ & _ & _ & _ & Hlen & _).
  exact Hlen.
Qed.

(** X7.  When no metacluster index is negative, the sizes recorded in a
    returned result add up to the number of final seqlets: every seqlet
    is counted in exactly one entry. *)
Theorem recorded_sizes_add_up_to_seqlet_count :
  forall (self : TfModiscoWorkflow) (names : list string)
         (contrib_scores hypothetical_contribs : list (string * list loc))
         (one_hot : list loc) (w w' : world) (res : TfModiscoResults),
    call self names contrib_scores hypothetical_contribs one_hot w
    = (Ok res, w') ->
    Forall (fun i => 0 <= i)
           (metacluster_indices (metaclustering_results res)) ->
    Py.sum (map (fun e => metacluster_size (snd e))
                (metacluster_idx_to_submetacluster_results res))
    = Z.of_nat (List.length
                  (final_seqlets (multitask_seqlet_creation_results res))).
Proof.
  intros self names cs hy one_hot w w' res H Hnn.
  destruct (call_ok_inv _ _ _ _ _ _ _ _ H) as (_ & _ & top & Htop & Hall & _).
  destruct (max_seq_spec _ _ Htop) as [Hin Hmax].
  assert (Hex : Exists (fun i => 0 <= i)
                       (metacluster_indices (metaclustering_results res))).
  { apply Exists_exists. exists top. split; [exact Hin |].
    rewrite Forall_forall in Hnn. apply Hnn. exact Hin. }
  rewrite (returned_lengths_agree _ _ _ _ _ _ _ _ H Hex).
  pose proof (dispatched_pairs _ _ _ _ Hall) as Hp.
  assert (E : map (fun e : Z * SubMetaclusterResults =>
                     metacluster_size (snd e))
                  (metacluster_idx_to_submetacluster_results res)
              = map snd
                  (map (fun e : Z * SubMetaclusterResults =>
                          (fst e, metacluster_size (snd e)))
                       (metacluster_idx_to_submetacluster_results res))).
  { rewrite map_map. apply map_ext. intros e. reflexivity. }
  rewrite sum_fold_right, E, Hp.
  rewrite (fold_right_add_perm _ _
             (Permutation_map snd (sorted_by_snd_perm _))).
  unfold metacluster_sizes. rewrite map_snd_enumerate_sizes.
  apply counts_partition.
  rewrite Forall_forall in *. intros i Hi.
  specialize (Hnn i Hi). specialize (Hmax i Hi). lia.
Qed.

(** X8.  When some metacluster index is not negative, a returned result
    has as many final seqlets as metacluster indices, at least one, and
    the attribute matrix has at least one row. *)
Theorem returned_result_has_matching_lengths :
  forall (self : TfModiscoWorkflow) (names : list string)
         (contrib_scores hypothetical_contribs : list (string * list loc))
         (one_hot : list loc) (w w' : world) (res : TfModiscoResults),
    call self names contrib_scores hypothetical_contribs one_hot w
    = (Ok res, w') ->
    Exists (fun i => 0 <= i)
           (metacluster_indices (metaclustering_results res)) ->
    List.length (final_seqlets (multitask_seqlet_creation_results res))
    = List.length (metacluster_indices (metaclustering_results res)) /\
    final_seqlets (multitask_seqlet_creation_results res) <> [] /\
    seqlet_attribute_vectors res <> [].
Proof.
  intros self names cs hy one_hot w w' res H Hex.
  pose proof (returned_lengths_agree _ _ _ _ _ _ _ _ H Hex) as Hlen.
  destruct (call_ok_inv _ _ _ _ _ _ _ _ H) as (_ & Hrows & _).
  apply Forall2_length in Hrows.
  assert (Hpos : (0 < List.length
                        (metacluster_indices (metaclustering_results res)))%nat).
  { destruct Hex as [i l Hi | i l Hl]; cbn [List.length]; lia. }
  split; [exact Hlen |].
  split.
  - intros E. rewrite E in Hlen. cbn [List.length] in Hlen. lia.
  - intros E. rewrite E in Hrows. cbn [List.length] in Hrows. lia.
Qed.

End Sizes.

Lemma active_run_indices res w' :
  Scripted.active_run = (Ok res, w') ->
  metacluster_indices (metaclustering_results res) = [0; 1; 0].
Proof.
  intros E. vm_compute in E. inversion E. reflexivity.
Qed.

Lemma recorded_sizes_add_up_to_seqlet_count_witness :
  exists res w',
    Scripted.active_run = (Ok res, w') /\
    Py.sum (map (fun e => metacluster_size (snd e))
                (metacluster_idx_to_submetacluster_results res))
    = Z.of_nat (List.length
                  (final_seqlets (multitask_seqlet_creation_results res))).
Proof.
  destruct active_run_returns as (res & w' & E).
  exists res, w'. split; [exact E |].
  apply (recorded_sizes_add_up_to_seqlet_count _ _ _ _ _ _ _ _ E).
  rewrite (active_run_indices res w' E).
  repeat (constructor; [lia |]). constructor.
Defined.

Lemma returned_result_has_matching_lengths_witness :
  exists res w',
    Scripted.active_run = (Ok res, w') /\
    List.length (final_seqlets (multitask_seqlet_creation_results res))
    = List.length (metacluster_indices (metaclustering_results res)) /\
    seqlet_attribute_vectors res <> [].
Proof.
  destruct active_run_returns as (res & w' & E).
  exists res, w'. split; [exact E |].
  destruct (returned_result_has_matching_lengths _ _ _ _ _ _ _ _ E)
    as (Hlen & _ & Hrows).
  - rewrite (active_run_indices res w' E). left. lia.
  - split; [exact Hlen | exact Hrows].
Defined.

(** ** What pattern discovery is given *)

#[local] Instance same_heap_preorder : PreOrder same_heap.
Proof.
  split.
  - intros w. reflexivity.
  - intros a b c H1 H2. unfold same_heap in *. congruence.
Qed.

Lemma same_heap_print o : keeps same_heap (print o).
Proof. intros w. reflexivity. Qed.

(** What the threshold stage prints, and that it leaves the heap alone. *)
Lemma configure_effects self one_hot w r w1 :
  configure self one_hot w = (r, w1) ->
  w_heap w1 = w_heap w /\
  exists more,
    w_stdout w1 = w_stdout w ++ more /\
    Forall (fun o => (exists t, o = UsingLaplaceThreshold t) \/
                     (exists s t, o = ReducingWeakThreshold s t)) more.
Proof.
  unfold configure. unfold bind at 1.
  destruct (derive_laplace_threshold self one_hot w) as [[t | e] w0] eqn:Hd;
    apply derive_world in Hd; subst w0.
  - unfold bind at 1. cbn [print].
    unfold resolve_weak_threshold.
    destruct (Qlt_le_dec t
                match weak_threshold_for_counting_sign self with
                | Some w3 => w3
                | None => t
                end).
    + unfold bind, print, ret, set_coord_producer, set_metaclusterer. cbn.
      intros H. inversion H; subst. cbn. split; [reflexivity |].
      eexists. rewrite <- app_assoc. split; [reflexivity |].
      constructor; [left; eexists; reflexivity |].
      constructor; [right; eexists; eexists; reflexivity | constructor].
    + unfold bind, print, ret, set_coord_producer, set_metaclusterer. cbn.
      intros H. inversion H; subst. cbn. split; [reflexivity |].
      eexists. split; [reflexivity |].
      constructor; [left; eexists; reflexivity | constructor].
  - intros H. inversion H; subst. split; [reflexivity |].
    exists []. rewrite app_nil_r. split; [reflexivity | constructor].
Qed.

Section Scoped.

Context {C : Collaborators}.

Lemma call_ok_stages self names contrib_scores hypothetical_contribs one_hot
    w res w' :
  call self names contrib_scores hypothetical_contribs one_hot w
  = (Ok res, w') ->
  exists made w1 track_set w2,
    configure self one_hot w = (Ok made, w1) /\
    build_track_set names contrib_scores hypothetical_contribs one_hot w1
    = (Ok track_set, w2) /\
    discover self names contrib_scores track_set (fst made) (snd made) w2
    = (Ok res, w').
Proof.
  unfold call. intros H. inv_bind H. inv_bind H.
  eexists. eexists. eexists. eexists.
  split; [exact Hstep |]. split; [exact Hstep0 | exact H].
Qed.

Lemma process_metacluster_ok_scoped task_names track_set all_seqlets mr acc
    p w acc' w' :
  process_metacluster task_names track_set all_seqlets mr acc p w
  = (Ok acc', w') ->
  exists sub,
    acc' = odict_set Z.eqb acc (fst p) sub /\
    seqlets_to_patterns
      (scoped_args track_set task_names (activity_pattern sub))
      (w_heap w) (seqlets sub)
    = Ok (seqlets_to_patterns_result sub) /\
    relevant_task_names task_names (activity_pattern sub) <> [].
Proof.
  unfold process_metacluster. intros H.
  inv_bind H. inversion Hstep; subst a w0. clear Hstep.
  inv_bind H. inversion Hstep; subst a w0. clear Hstep.
  inv_bind H. apply lift_ok_inv in Hstep. destruct Hstep as [Hpat ->].
  inv_bind H. apply mapM_lift_inv in Hstep. destruct Hstep as [-> Hacts].
  rename a0 into activities.
  inv_bind H. apply assert_ok_inv in Hstep. destruct Hstep as [Hlen ->].
  inv_bind H. apply lift_ok_inv in Hstep. destruct Hstep as [Hrel ->].
  rename a1 into rel.
  inv_bind H. inversion Hstep; subst a1 w0. clear Hstep.
  inv_bind H. inversion Hstep; subst a1 w0. clear Hstep.
  destruct (unpack_relevant_ok_inv _ _ _ Hrel) as [Hne Erel].
  destruct (fst rel) as [| n ns] eqn:En; [exfalso; apply Hne; reflexivity |].
  cbn [List.length Nat.eqb] in H.
  inv_bind H. inversion Hstep; subst a1 w0. clear Hstep.
  inv_bind H. apply lift_ok_inv in Hstep. destruct Hstep as [Hstp ->].
  inversion H; subst acc' w'. clear H.
  eexists. split; [reflexivity |].
  cbn [activity_pattern seqlets seqlets_to_patterns_result w_heap] in *.
  assert (E1 : relevant_task_names task_names activities = n :: ns).
  { unfold relevant_task_names. rewrite <- En, Erel. reflexivity. }
  assert (E2 : relevant_task_signs task_names activities = snd rel).
  { unfold relevant_task_signs. rewrite Erel. reflexivity. }
  split.
  - unfold scoped_args. rewrite E1, E2. exact Hstp.
  - rewrite E1. discriminate.
Qed.

Lemma dispatch_loop_scoped task_names track_set all_seqlets mr :
  forall l acc w results w',
    foldM (process_metacluster task_names track_set all_seqlets mr) acc l w
    = (Ok results, w') ->
    NoDup (map fst l) ->
    (forall k, In k (map fst l) -> ~ In k (map fst acc)) ->
    exists new,
      results = acc ++ new /\
      Forall (fun e =>
                seqlets_to_patterns
                  (scoped_args track_set task_names
                               (activity_pattern (snd e)))
                  (w_heap w) (seqlets (snd e))
                = Ok (seqlets_to_patterns_result (snd e)) /\
                relevant_task_names task_names (activity_pattern (snd e))
                <> [])
             new.
Proof.
  induction l as [| p l IH]; intros acc w results w' H Hnd Hfresh;
    cbn [foldM] in H.
  - inversion H; subst. exists []. rewrite app_nil_r.
    split; [reflexivity | constructor].
  - inv_bind H.
    pose proof (keeps_process_metacluster same_heap same_heap_print
                  task_names track_set all_seqlets mr acc p w) as Hheap.
    rewrite Hstep in Hheap. unfold same_heap in Hheap. cbn [snd] in Hheap.
    apply process_metacluster_ok_scoped in Hstep.
    destruct Hstep as (sub & -> & Hcall & Hne).
    rewrite odict_set_fresh in H by (apply Hfresh; left; reflexivity).
    inversion Hnd as [| ? ? Hp Hnd']; subst.
    apply IH in H; [| exact Hnd' |].
    + destruct H as (new & -> & Hall).
      exists ((fst p, sub) :: new). rewrite <- app_assoc.
      split; [reflexivity |].
      constructor; [split; assumption |].
      rewrite Hheap in Hall. exact Hall.
    + intros k Hk. rewrite map_app. cbn [map fst]. intros Hin.
      apply in_app_or in Hin. destruct Hin as [Hin | [<- | []]].
      * apply (Hfresh k); [right; exact Hk | exact Hin].
      * apply Hp. exact Hk.
Qed.

(** X9.  For every entry of a returned result, the stored
    pattern-discovery result is what the engine returned when it was
    built over the track set of this call, with the one-hot track
    ["sequence"], the contribution and hypothetical-contribution tracks
    of exactly the tasks whose sign in the entry's activity pattern is
    nonzero, in task order, those signs, and no other comparison track,
    and was run on the entry's seqlets.  There is at least one such
    task. *)
Theorem pattern_discovery_is_scoped_to_relevant_tasks :
  forall (self : TfModiscoWorkflow) (names : list string)
         (contrib_scores hypothetical_contribs : list (string * list loc))
         (one_hot : list loc) (w w' : world) (res : TfModiscoResults),
    call self names contrib_scores hypothetical_contribs one_hot w
    = (Ok res, w') ->
    exists (track_set : TrackSet) (w1 w2 : world),
      w_heap w1 = w_heap w /\
      build_track_set names contrib_scores hypothetical_contribs one_hot w1
      = (Ok track_set, w2) /\
      w_heap w' = w_heap w2 /\
      forall idx sub,
        In (idx, sub) (metacluster_idx_to_submetacluster_results res) ->
        seqlets_to_patterns
          (scoped_args track_set names (activity_pattern sub))
          (w_heap w') (seqlets sub)
        = Ok (seqlets_to_patterns_result sub) /\
        relevant_task_names names (activity_pattern sub) <> [].
Proof.
  intros self names cs hy one_hot w w' res H.
  destruct (call_ok_stages _ _ _ _ _ _ _ _ H)
    as (made & w1 & ts & w2 & Hcfg & Hbuild & Hdisc).
  exists ts, w1, w2.
  split; [apply (proj1 (configure_effects _ _ _ _ _ Hcfg)) |].
  split; [exact Hbuild |].
  pose proof (keeps_discover same_heap same_heap_print self names cs ts
                (fst made) (snd made) w2) as Hheap.
  rewrite Hdisc in Hheap. unfold same_heap in Hheap. cbn [snd] in Hheap.
  split; [exact Hheap |].
  apply discover_ok_inv in Hdisc.
  destruct Hdisc as (scores & creation & vectors & mr & top & results & w3
                     & _ & _ & _ & Htop & Hw3 & Hloop & ->).
  cbn [metacluster_idx_to_submetacluster_results].
  apply dispatch_loop_scoped in Hloop.
  - destruct Hloop as (new & Hnew & Hall). cbn [app] in Hnew. subst new.
    assert (E : w_heap w3 = w_heap w') .
    { rewrite Hheap. destruct (verbose self); subst w3; reflexivity. }
    rewrite E in Hall. rewrite Forall_forall in Hall.
    intros idx sub Hin. apply (Hall (idx, sub) Hin).
  - apply (Permutation_NoDup (l := range (top + 1))); [| apply range_nodup].
    apply Permutation_sym.
    rewrite <- (map_fst_enumerate_sizes
                  (fun idx => count_eq idx (metacluster_indices mr))).
    apply Permutation_map. apply sorted_by_snd_perm.
  - intros k _ [].
Qed.

End Scoped.

Lemma pattern_discovery_is_scoped_to_relevant_tasks_witness :
  exists res w',
    Scripted.active_run = (Ok res, w') /\
    forall idx sub,
      In (idx, sub) (metacluster_idx_to_submetacluster_results res) ->
      relevant_task_names ["task0"] (activity_pattern sub) <> [].
Proof.
  destruct active_run_returns as (res & w' & E).
  exists res, w'. split; [exact E |].
  destruct (pattern_discovery_is_scoped_to_relevant_tasks _ _ _ _ _ _ _ _ E)
    as (ts & w1 & w2 & _ & _ & _ & Hall).
  intros idx sub Hin. exact (proj2 (Hall idx sub Hin)).
Defined.

(** ** The skip of lines 229-232 is dead code *)

#[local] Instance same_skips_preorder : PreOrder same_skips.
Proof.
  split.
  - intros w H. exact H.
  - intros a b c H1 H2 H. apply H1. apply H2. exact H.
Qed.

Lemma same_skips_print o :
  o <> NoTasksFoundRelevantSkipping -> keeps same_skips (print o).
Proof.
  intros Ho w. unfold same_skips. cbn. intros H.
  apply in_app_or in H. destruct H as [H | [H | []]].
  - exact H.
  - exfalso. apply Ho. exact H.
Qed.

Lemma same_skips_alloc a : keeps same_skips (alloc a).
Proof. intros w H. exact H. Qed.

Lemma keeps_bind_lift (R : world -> world -> Prop) {A B} (r : result A)
    (k : A -> M B) :
  (forall w, R w w) ->
  (forall a, r = Ok a -> keeps R (k a)) -> keeps R (bind (lift r) k).
Proof.
  intros Hrefl Hk w. unfold bind, lift. destruct r as [a | e]; cbn.
  - apply (Hk a eq_refl).
  - apply Hrefl.
Qed.

Section Dead_skip.

Context {C : Collaborators}.

Lemma same_skips_step task_names track_set all_seqlets mr acc p :
  keeps same_skips
        (process_metacluster task_names track_set all_seqlets mr acc p).
Proof.
  unfold process_metacluster.
  apply keeps_bind; [apply _ | apply same_skips_print; discriminate |].
  intros _.
  apply keeps_bind; [apply _ | apply same_skips_print; discriminate |].
  intros _.
  apply keeps_bind; [apply _ | apply keeps_lift; apply _ |]. intros pattern.
  apply keeps_bind;
    [apply _ | apply keeps_mapM; [apply _ |]; intros; apply keeps_lift; apply _ |].
  intros activities.
  apply keeps_bind; [apply _ | apply keeps_assert; apply _ |]. intros _.
  apply keeps_bind_lift; [intros w; reflexivity |]. intros rel Hrel.
  destruct (unpack_relevant_ok_inv _ _ _ Hrel) as [Hne _].
  destruct (fst rel) as [| n ns] eqn:En; [exfalso; apply Hne; reflexivity |].
  apply keeps_bind; [apply _ | apply same_skips_print; discriminate |].
  intros _.
  apply keeps_bind; [apply _ | apply same_skips_print; discriminate |].
  intros _.
  cbn [List.length Nat.eqb].
  apply keeps_bind; [apply _ | apply keeps_get_heap; apply _ |]. intros h.
  apply keeps_bind; [apply _ | apply keeps_lift; apply _ |]. intros r.
  apply keeps_ret. apply _.
Qed.

Lemma same_skips_discover self names contrib_scores track_set cp mc :
  keeps same_skips (discover self names contrib_scores track_set cp mc).
Proof.
  unfold discover.
  apply keeps_bind;
    [apply _ | apply keeps_per_position_contrib_scores; apply _ |].
  intros scores.
  apply keeps_bind; [apply _ | apply keeps_get_heap; apply _ |]. intros h.
  apply keeps_bind; [apply _ | apply keeps_lift; apply _ |]. intros creation.
  apply keeps_bind; [apply _ | apply keeps_attribute_vectors; apply _ |].
  intros vectors.
  apply keeps_bind; [apply _ | apply keeps_lift; apply _ |]. intros mr.
  apply keeps_bind; [apply _ | apply keeps_lift; apply _ |]. intros top.
  apply keeps_bind; [apply _ | |].
  - apply keeps_if; [| apply keeps_ret; apply _].
    apply keeps_bind; [apply _ | apply same_skips_print; discriminate |].
    intros _. apply same_skips_print. discriminate.
  - intros _. apply keeps_bind; [apply _ | | intros; apply keeps_ret; apply _].
    apply keeps_foldM; [apply _ |]. intros. apply same_skips_step.
Qed.

Lemma same_skips_configure self one_hot :
  keeps same_skips (configure self one_hot).
Proof.
  intros w. destruct (configure self one_hot w) as [r w1] eqn:E.
  destruct (configure_effects _ _ _ _ _ E) as (_ & more & Hout & Hall).
  unfold same_skips. cbn [snd]. rewrite Hout. intros H.
  apply in_app_or in H. destruct H as [H | H]; [exact H |].
  rewrite Forall_forall in Hall.
  destruct (Hall _ H) as [(t & Ht) | (s & t & Ht)]; discriminate Ht.
Qed.

(** X10.  No call ever prints the message of line 230 ("No tasks found
    relevant; skipping"), whether it returns or raises: the branch that
    prints it cannot be reached. *)
Theorem skip_message_is_never_printed :
  forall (self : TfModiscoWorkflow) (names : list string)
         (contrib_scores hypothetical_contribs : list (string * list loc))
         (one_hot : list loc) (w : world),
    ~ In NoTasksFoundRelevantSkipping (w_stdout w) ->
    ~ In NoTasksFoundRelevantSkipping
         (w_stdout (snd (call self names contrib_scores hypothetical_contribs
                              one_hot w))).
Proof.
  intros self names cs hy one_hot w Hw Hin. apply Hw.
  revert Hin.
  assert (K : keeps same_skips
                (call self names cs hy one_hot)).
  { unfold call.
    apply keeps_bind; [apply _ | apply same_skips_configure |]. intros made.
    apply keeps_bind; [apply _ | |].
    - apply keeps_build_track_set; [apply _ | exact same_skips_alloc].
    - intros ts. apply same_skips_discover. }
  apply (K w).
Qed.

End Dead_skip.

Lemma skip_message_is_never_printed_witness :
  ~ In NoTasksFoundRelevantSkipping
       (w_stdout (snd Scripted.silent_run)).
Proof.
  apply skip_message_is_never_printed. cbn. intros [].
Defined.

(** ** Activity patterns of the wrong length *)

Lemma combine_extra_right {A B} (l : list A) (l' extra : list B) :
  (List.length l <= List.length l')%nat ->
  combine l (l' ++ extra) = combine l l'.
Proof.
  revert l'. induction l as [| x l IH]; intros [| y l'] H; cbn in *;
    try reflexivity; try lia.
  rewrite IH by lia. reflexivity.
Qed.

Lemma combine_extra_left {A B} (l more : list A) (l' : list B) :
  (List.length l' <= List.length l)%nat ->
  combine (l ++ more) l' = combine l l'.
Proof.
  revert l'. induction l as [| x l IH]; intros [| y l'] H; cbn in *;
    try reflexivity; try lia.
  - destruct more; reflexivity.
  - rewrite IH by lia. reflexivity.
Qed.

(** X11.  The number of tokens of an activity pattern is never checked
    against the number of tasks.  Tokens beyond the last task have no
    influence on the relevant tasks and signs, tasks beyond the last
    token are never relevant, and the relevant signs are the nonzero
    tokens that are paired with a task; a pattern whose paired tokens are
    all zero makes the unpacking fail whatever the remaining tokens
    are. *)
Theorem token_count_is_not_checked :
  forall (task_names more_tasks : list string)
         (activities extra_tokens : list Z),
    ((List.length task_names <= List.length activities)%nat ->
     unpack_relevant task_names (activities ++ extra_tokens)
     = unpack_relevant task_names activities) /\
    ((List.length activities <= List.length task_names)%nat ->
     unpack_relevant (task_names ++ more_tasks) activities
     = unpack_relevant task_names activities) /\
    Forall (fun a => a <> 0) (relevant_task_signs task_names activities) /\
    (List.length (relevant_task_names task_names activities)
     <= Nat.min (List.length task_names) (List.length activities))%nat.
Proof.
  intros task_names more_tasks activities extra_tokens.
  split; [| split; [| split]].
  - intros H. unfold unpack_relevant. rewrite combine_extra_right by exact H.
    reflexivity.
  - intros H. unfold unpack_relevant. rewrite combine_extra_left by exact H.
    reflexivity.
  - unfold relevant_task_signs. apply Forall_forall. intros a Ha.
    apply in_map_iff in Ha. destruct Ha as ([t a'] & <- & Hin).
    apply filter_In in Hin. destruct Hin as [_ Hnz]. cbn [snd] in *.
    intros ->. discriminate Hnz.
  - unfold relevant_task_names. rewrite length_map.
    etransitivity; [apply filter_length_le |].
    rewrite length_combine. apply Nat.le_refl.
Qed.

Lemma token_count_is_not_checked_witness :
  unpack_relevant ["task0"] ([0] ++ [1; -1])
  = Raise (ValueError "not enough values to unpack (expected 2, got 0)") /\
  unpack_relevant (["task0"] ++ ["task1"]) [1] = Ok (["task0"], [1]).
Proof.
  destruct (token_count_is_not_checked ["task0"] ["task1"] [0] [1; -1])
    as (H1 & _).
  destruct (token_count_is_not_checked ["task0"] ["task1"] [1] [])
    as (_ & H2 & _).
  split.
  - rewrite H1; [reflexivity | cbn; lia].
  - rewrite H2; [reflexivity | cbn; lia].
Defined.

(** ** Reading an activity pattern back *)

Lemma uint_chars_plain (d : Decimal.uint) :
  Forall plain_char (list_ascii_of_string (NilEmpty.string_of_uint d)).
Proof.
  induction d; cbn [NilEmpty.string_of_uint list_ascii_of_string];
    try constructor; try assumption;
    (split; [reflexivity | split; [reflexivity | discriminate]]).
Qed.

Lemma str_int_plain (z : Z) :
  Forall plain_char (list_ascii_of_string (str_int z)) /\
  str_int z <> EmptyString.
Proof.
  unfold str_int.
  assert (U : forall d, Forall plain_char
                          (list_ascii_of_string (NilZero.string_of_uint d)) /\
                        NilZero.string_of_uint d <> EmptyString).
  { intros d. split.
    - destruct d; try apply (uint_chars_plain _).
      cbn. constructor; [| constructor].
      split; [reflexivity | split; [reflexivity | discriminate]].
    - destruct d; cbn; discriminate. }
  destruct (Z.to_int z) as [d | d]; cbn [NilZero.string_of_int].
  - apply U.
  - split; [| discriminate].
    cbn [list_ascii_of_string]. constructor; [| apply U].
    split; [reflexivity | split; [reflexivity | discriminate]].
Qed.

Lemma rstrip_plain (s : string) :
  Forall plain_char (list_ascii_of_string s) -> rstrip s = s.
Proof.
  induction s as [| c s IH]; cbn [list_ascii_of_string rstrip]; intros H.
  - reflexivity.
  - inversion H as [| ? ? (Hc & _) Hs]; subst. rewrite (IH Hs).
    destruct s; [rewrite Hc |]; reflexivity.
Qed.

Lemma lstrip_plain (s : string) :
  Forall plain_char (list_ascii_of_string s) -> lstrip s = s.
Proof.
  destruct s as [| c s]; cbn [list_ascii_of_string lstrip]; intros H.
  - reflexivity.
  - inversion H as [| ? ? (Hc & _) _]; subst. rewrite Hc. reflexivity.
Qed.

Lemma parse_int_str_int (z : Z) : parse_int (str_int z) = Ok z.
Proof.
  destruct (str_int_plain z) as [Hplain Hne].
  unfold parse_int, strip.
  rewrite (lstrip_plain _ Hplain), (rstrip_plain _ Hplain).
  pose proof (int_of_string_str_int z) as Hrt.
  destruct (str_int z) as [| c t] eqn:E; [exfalso; apply Hne; reflexivity |].
  cbn [list_ascii_of_string] in Hplain.
  inversion Hplain as [| ? ? (_ & _ & Hplus) _]; subst.
  clear E Hplain Hne. revert Hrt Hplus.
  destruct c as [[] [] [] [] [] [] [] []]; intros Hrt Hplus;
    try (lazy beta iota; rewrite Hrt; reflexivity).
  exfalso. apply Hplus. reflexivity.
Qed.

Lemma split_plain (s : string) :
  Forall plain_char (list_ascii_of_string s) -> split "," s = [s].
Proof.
  induction s as [| c s IH]; cbn [list_ascii_of_string split]; intros H.
  - reflexivity.
  - inversion H as [| ? ? (_ & Hc & _) Hs]; subst.
    rewrite Hc, (IH Hs). reflexivity.
Qed.

Lemma split_plain_then_comma (s rest : string) :
  Forall plain_char (list_ascii_of_string s) ->
  split "," (String.append s (String "," rest)) = s :: split "," rest.
Proof.
  induction s as [| c s IH]; cbn [list_ascii_of_string String.append split];
    intros H.
  - reflexivity.
  - inversion H as [| ? ? (_ & Hc & _) Hs]; subst.
    rewrite Hc, (IH Hs). reflexivity.
Qed.

Lemma split_join_ints (l : list Z) :
  l <> [] -> split "," (join_ints l) = map str_int l.
Proof.
  unfold join_ints. induction l as [| z l IH]; intros Hne.
  - exfalso. apply Hne. reflexivity.
  - destruct l as [| z' l].
    + cbn [map String.concat]. apply split_plain. apply str_int_plain.
    + cbn [map String.concat] in *.
      change (String.append "," ?r) with (String "," r).
      rewrite split_plain_then_comma by apply str_int_plain.
      rewrite IH by discriminate. reflexivity.
Qed.

(** X12.  Lines 216-218 read back what the specified format writes: for
    a non-empty list of integers, splitting the comma-separated string of
    their decimal forms and converting each token gives the list again.
    The empty string is not a pattern: converting its single empty token
    raises [ValueError]. *)
Theorem activity_pattern_reads_back :
  forall (activities : list Z) (w : world),
    (activities <> [] ->
     mapM (fun x => lift (parse_int x)) (split "," (join_ints activities)) w
     = (Ok activities, w)) /\
    fst (mapM (fun x => lift (parse_int x)) (split "," (join_ints [])) w)
    = Raise (ValueError "invalid literal for int() with base 10: ").
Proof.
  intros activities w. split.
  - intros Hne. apply mapM_lift_ok. rewrite (split_join_ints _ Hne).
    clear Hne. induction activities as [| z l IH]; cbn [map].
    + constructor.
    + constructor; [apply parse_int_str_int | exact IH].
  - reflexivity.
Qed.

Lemma activity_pattern_reads_back_witness :
  mapM (fun x => lift (parse_int x)) (split "," "1,0,-1")
       (Scripted.fresh [])
  = (Ok [1; 0; -1], Scripted.fresh []).
Proof.
  apply (proj1 (activity_pattern_reads_back [1; 0; -1] (Scripted.fresh []))).
  discriminate.
Defined.

(** ** The threshold transformers handed to seqlet creation *)

Lemma dict_get_odict_set {V} (d : list (string * V)) (k k' : string) (v : V) :
  dict_get (odict_set String.eqb d k v) k'
  = if String.eqb k' k then Ok v else dict_get d k'.
Proof.
  induction d as [| [k0 v0] d IH]; cbn [odict_set dict_get].
  - reflexivity.
  - destruct (String.eqb_spec k k0) as [-> | Hk]; cbn [dict_get].
    + destruct (String.eqb k' k0); reflexivity.
    + rewrite IH.
      destruct (String.eqb_spec k' k0) as [E1 | _];
        destruct (String.eqb_spec k' k) as [E2 | _]; try reflexivity.
      exfalso. apply Hk. congruence.
Qed.

Lemma dict_get_ordered_dict {V} (g : string -> V) (names : list string) :
  forall (acc : list (string * V)) (k : string),
    (In k names ->
     dict_get (fold_left (fun d kv => odict_set String.eqb d (fst kv) (snd kv))
                         (map (fun t => (t, g t)) names) acc) k
     = Ok (g k)) /\
    (~ In k names ->
     dict_get (fold_left (fun d kv => odict_set String.eqb d (fst kv) (snd kv))
                         (map (fun t => (t, g t)) names) acc) k
     = dict_get acc k).
Proof.
  induction names as [| t names IH]; intros acc k; cbn [map fold_left fst snd].
  - split; [intros [] | reflexivity].
  - destruct (IH (odict_set String.eqb acc t (g t)) k) as [IH1 IH2].
    destruct (in_dec string_dec k names) as [Hin | Hnot].
    + split; [intros _; apply IH1; exact Hin |].
      intros Hn. exfalso. apply Hn. right. exact Hin.
    + rewrite (IH2 Hnot), dict_get_odict_set. split.
      * intros [-> | Hin]; [| contradiction].
        rewrite String.eqb_refl. reflexivity.
      * intros Hn. destruct (String.eqb_spec k t) as [-> | _];
          [exfalso; apply Hn; left; reflexivity | reflexivity].
Qed.

Lemma ordered_dict_nodup {V} (pairs : list (string * V)) :
  forall acc : list (string * V),
    NoDup (map fst pairs) ->
    (forall k, In k (map fst pairs) -> ~ In k (map fst acc)) ->
    fold_left (fun d kv => odict_set String.eqb d (fst kv) (snd kv)) pairs acc
    = acc ++ pairs.
Proof.
  induction pairs as [| [k v] pairs IH]; intros acc Hnd Hfresh;
    cbn [fold_left fst snd map] in *.
  - rewrite app_nil_r. reflexivity.
  - inversion Hnd as [| ? ? Hk Hnd']; subst.
    assert (E : odict_set String.eqb acc k v = acc ++ [(k, v)]).
    { assert (Hacc : ~ In k (map fst acc)) by (apply Hfresh; left; reflexivity).
      clear - Hacc. induction acc as [| [k0 v0] acc IHa]; cbn [odict_set app].
      - reflexivity.
      - destruct (String.eqb_spec k k0) as [-> | _].
        + exfalso. apply Hacc. left. reflexivity.
        + rewrite IHa; [reflexivity |].
          intros Hin. apply Hacc. right. exact Hin. }
    rewrite E, IH.
    + rewrite <- app_assoc. reflexivity.
    + exact Hnd'.
    + intros k' Hk'. rewrite map_app. cbn [map fst]. intros Hin.
      apply in_app_or in Hin. destruct Hin as [Hin | [<- | []]].
      * apply (Hfresh k'); [right; exact Hk' | exact Hin].
      * apply Hk. exact Hk'.
Qed.

(** X13.  The mapping handed to seqlet creation gives, for every task
    [t] of [task_names] whether or not names repeat, the transformer
    named ["<t>_label"] that reads the track ["<t>_contrib_scores"] and
    ignores the flank [flank_size]; a name that is not a task is not a
    key; and for distinct task names the keys stand in task order. *)
Theorem threshold_transformer_per_task :
  forall (self : TfModiscoWorkflow) (names : list string) (t : string),
    (In t names ->
     dict_get (task_name_to_threshold_transformer self names) t
     = Ok (mkThresholdTransformer
             (mkLaplaceCdfFactory (flank_size self))
             (String.append t "_label")
             (String.append t "_contrib_scores"))) /\
    (~ In t names ->
     dict_get (task_name_to_threshold_transformer self names) t
     = Raise (KeyError t)) /\
    (NoDup names ->
     map fst (task_name_to_threshold_transformer self names) = names).
Proof.
  intros self names t.
  unfold task_name_to_threshold_transformer, OrderedDict,
    threshold_score_transformer_factory.
  destruct (dict_get_ordered_dict
              (fun task_name =>
                 mkThresholdTransformer
                   (mkLaplaceCdfFactory (flank_size self))
                   (String.append task_name "_label")
                   (String.append task_name "_contrib_scores"))
              names [] t) as [H1 H2].
  split; [exact H1 |]. split; [exact H2 |].
  intros Hnd. rewrite ordered_dict_nodup.
  - cbn [app]. rewrite map_map. cbn [fst]. apply map_id.
  - rewrite map_map. cbn [fst]. rewrite map_id. exact Hnd.
  - intros k _ [].
Qed.

Lemma threshold_transformer_per_task_witness :
  dict_get (task_name_to_threshold_transformer Scripted.default_workflow
              ["a"; "b"; "a"]) "a"
  = Ok (mkThresholdTransformer (mkLaplaceCdfFactory 10) "a_label"
                               "a_contrib_scores").
Proof.
  apply (proj1 (threshold_transformer_per_task Scripted.default_workflow
                  ["a"; "b"; "a"] "a")).
  left. reflexivity.
Defined.

(** ** What a call leaves on the workflow object *)

Section Attributes.

Context {C : Collaborators}.

(** X14.  When the threshold stage raises, the call assigns nothing on
    the workflow object.  When it yields the primary threshold [t], the
    call leaves, whether the later stages return or raise, a coordinate
    producer with the window size, the flank, [t] and the verbose flag,
    and a metaclusterer with the minimum cluster size and the same
    [t]. *)
Theorem attributes_assigned_by_a_call :
  forall (self : TfModiscoWorkflow) (names : list string)
         (contrib_scores hypothetical_contribs : list (string * list loc))
         (one_hot : list loc) (w : world),
    (forall e,
        derive_laplace_threshold self one_hot w = (Raise e, w) ->
        call self names contrib_scores hypothetical_contribs one_hot w
        = (Raise e, w)) /\
    (forall t,
        derive_laplace_threshold self one_hot w = (Ok t, w) ->
        self_coord_producer
          (snd (call self names contrib_scores hypothetical_contribs
                     one_hot w))
        = Some (mkCoordProducer (sliding_window_size self) (flank_size self)
                                t (verbose self)) /\
        exists weak,
          self_metaclusterer
            (snd (call self names contrib_scores hypothetical_contribs
                       one_hot w))
          = Some (mkMetaclusterer (min_cluster_size self) t weak)).
Proof.
  intros self names cs hy one_hot w. split.
  - intros e Hd. unfold call, configure.
    apply bind_raise. apply bind_raise. exact Hd.
  - intros t Hd.
    destruct (resolve_weak_threshold_cases self t
                (snd (print (UsingLaplaceThreshold t) w)))
      as (weak & w2 & Hres & _).
    unfold call.
    rewrite (bind_ok _ _ _ _ _ (configure_ok self one_hot w t weak w2 Hd Hres)).
    match goal with
    | |- context [snd (bind ?m ?k ?w0)] =>
        pose proof (keeps_after_configure self names cs hy one_hot
                      (mkCoordProducer (sliding_window_size self)
                                       (flank_size self) t (verbose self),
                       mkMetaclusterer (min_cluster_size self) t weak)
                      w0) as K
    end.
    destruct K as (Hcp & Hmc & _).
    cbn [self_coord_producer self_metaclusterer] in Hcp, Hmc.
    split; [exact Hcp |]. exists weak. exact Hmc.
Qed.

End Attributes.

Lemma attributes_assigned_by_a_call_witness :
  self_coord_producer (snd Scripted.active_run)
  = Some (mkCoordProducer 3 1 (7 # 9) true).
Proof.
  apply (proj2 (attributes_assigned_by_a_call
                  (C := Scripted.collaborators Scripted.active_script)
                  (Scripted.small_workflow Auto 2) ["task0"]
                  Scripted.small_contribs Scripted.small_hypothetical
                  Scripted.small_one_hot
                  (Scripted.fresh Scripted.small_heap)) (7 # 9)%Q).
  vm_compute. reflexivity.
Defined.

(** ** Reversing both axes *)





(** ** Persisting what a call returns *)

Section Persist_returned.

Context {C : Collaborators}.

Lemma save_hdf5_tree (self : TfModiscoResults) (g1 g2 : h5group)
    (saved : list h5group) :
  NoDup (map fst (metacluster_idx_to_submetacluster_results self)) ->
  seqlet_creation_save_hdf5 (multitask_seqlet_creation_results self)
                            empty_group = Ok g1 ->
  metaclustering_save_hdf5 (metaclustering_results self) empty_group
  = Ok g2 ->
  Forall2 (fun e g =>
             patterns_save_hdf5 (seqlets_to_patterns_result (snd e))
                                empty_group = Ok g)
          (metacluster_idx_to_submetacluster_results self) saved ->
  save_hdf5 self empty_group
  = Ok (H5Group []
          [("task_names", H5Strings (task_names self))]
          [("multitask_seqlet_creation_results", g1);
           ("metaclustering_results", g2);
           ("metacluster_idx_to_submetacluster_results",
            H5Group [] []
              (map saved_member
                   (combine (metacluster_idx_to_submetacluster_results self)
                            saved)))]).
Proof.
  intros Hnd H1 H2 Hall.
  assert (Hsave : save_submetaclusters
                    (metacluster_idx_to_submetacluster_results self)
                    empty_group
                  = Ok (H5Group [] []
                          (map saved_member
                             (combine
                                (metacluster_idx_to_submetacluster_results self)
                                saved)))).
  { unfold empty_group.
    rewrite (save_submetaclusters_spec _ saved [] Hall Hnd).
    - reflexivity.
    - intros k _ []. }
  unfold save_hdf5, H5.save_string_list, H5.create_dataset, H5.create_group.
  cbn. rewrite H1. cbn. rewrite H2. cbn. rewrite Hsave. reflexivity.
Qed.


End Persist_returned.


(** ** No seqlet is lost *)

Lemma select_by_index_member (idx : Z) (all_seqlets : list Seqlet)
    (indices : list Z) (i : nat) (s : Seqlet) :
  nth_error all_seqlets i = Some s ->
  nth_error indices i = Some idx ->
  In s (select_by_index idx all_seqlets indices).
Proof.
  revert indices i. induction all_seqlets as [| s0 l IH];
    intros [| j indices] [| i] Hs Hi; cbn in Hs, Hi; try discriminate.
  - inversion Hs; inversion Hi; subst. cbn [select_by_index].
    rewrite Z.eqb_refl. left. reflexivity.
  - cbn [select_by_index]. destruct (j =? idx).
    + right. apply (IH _ _ Hs Hi).
    + apply (IH _ _ Hs Hi).
Qed.

Section No_seqlet_lost.

Context {C : Collaborators}.

(** X17.  In a returned result every final seqlet whose metacluster
    index is not negative is among the seqlets of the entry keyed by that
    index. *)
Theorem every_seqlet_is_in_its_entry :
  forall (self : TfModiscoWorkflow) (names : list string)
         (contrib_scores hypothetical_contribs : list (string * list loc))
         (one_hot : list loc) (w w' : world) (res : TfModiscoResults)
         (i : nat) (s : Seqlet) (idx : Z),
    call self names contrib_scores hypothetical_contribs one_hot w
    = (Ok res, w') ->
    nth_error (final_seqlets (multitask_seqlet_creation_results res)) i
    = Some s ->
    nth_error (metacluster_indices (metaclustering_results res)) i
    = Some idx ->
    0 <= idx ->
    exists sub,
      In (idx, sub) (metacluster_idx_to_submetacluster_results res) /\
      In s (seqlets sub).
Proof.
  intros self names cs hy one_hot w w' res i s idx H Hs Hi Hidx.
  destruct (call_ok_inv _ _ _ _ _ _ _ _ H) as (_ & _ & top & Htop & Hall & _).
  pose proof (returned_keys_permutation _ _ _ _ _ _ _ _ _ H Htop) as Hperm.
  destruct (max_seq_spec _ _ Htop) as [_ Hmax].
  assert (Hin : In idx (range (top + 1))).
  { apply in_range. rewrite Forall_forall in Hmax.
    specialize (Hmax idx (nth_error_In _ _ Hi)). lia. }
  apply (Permutation_in _ (Permutation_sym Hperm)) in Hin.
  apply in_map_iff in Hin. destruct Hin as ([k sub] & Hk & He).
  cbn [fst] in Hk. subst k.
  exists sub. split; [exact He |].
  destruct (Forall2_in_right _ _ _ _ Hall He)
    as (p & _ & Hkey & _ & Hsel & _).
  cbn [fst snd] in Hkey, Hsel. rewrite Hsel, <- Hkey.
  apply (select_by_index_member _ _ _ _ _ Hs Hi).
Qed.

End No_seqlet_lost.

Lemma every_seqlet_is_in_its_entry_witness :
  exists res w' s sub,
    Scripted.active_run = (Ok res, w') /\
    nth_error (final_seqlets (multitask_seqlet_creation_results res)) 1
    = Some s /\
    In (1, sub) (metacluster_idx_to_submetacluster_results res) /\
    In s (seqlets sub).
Proof.
  destruct active_run_returns as (res & w' & E).
  assert (Hs : exists s,
             nth_error (final_seqlets (multitask_seqlet_creation_results res))
                       1 = Some s).
  { clear - E. vm_compute in E. inversion E. eexists. reflexivity. }
  destruct Hs as (s & Hs).
  destruct (every_seqlet_is_in_its_entry _ _ _ _ _ _ _ _ 1%nat s 1 E Hs)
    as (sub & Hin & Hmem).
  - rewrite (active_run_indices res w' E). reflexivity.
  - lia.
  - exists res, w', s, sub.
    split; [exact E |]. split; [exact Hs |]. split; [exact Hin | exact Hmem].
Defined.

(** ** Everything a returning call prints *)

Lemma configure_ok_inv self one_hot w made w1 :
  configure self one_hot w = (Ok made, w1) ->
  exists t,
    derive_laplace_threshold self one_hot w = (Ok t, w) /\
    w_heap w1 = w_heap w /\
    w_stdout w1
    = w_stdout w ++ [UsingLaplaceThreshold t] ++ reduction_lines self t.
Proof.
  unfold configure. unfold bind at 1.
  destruct (derive_laplace_threshold self one_hot w) as [[t | e] w0] eqn:Hd;
    pose proof (derive_world _ _ _ _ _ Hd); subst w0; [| discriminate].
  intros H. exists t. split; [reflexivity |].
  revert H. unfold bind at 1. cbn [print].
  unfold resolve_weak_threshold, reduction_lines.
  destruct (weak_threshold_for_counting_sign self) as [s |].
  - destruct (Qlt_le_dec t s).
    + unfold bind, print, ret, set_coord_producer, set_metaclusterer. cbn.
      intros H. inversion H; subst. cbn. split; [reflexivity |].
      rewrite <- app_assoc. reflexivity.
    + unfold bind, print, ret, set_coord_producer, set_metaclusterer. cbn.
      intros H. inversion H; subst. cbn. split; reflexivity.
  - destruct (Qlt_le_dec t t) as [Hlt | _];
      [exfalso; apply (Qlt_irrefl _ Hlt) |].
    unfold bind, print, ret, set_coord_producer, set_metaclusterer. cbn.
    intros H. inversion H; subst. cbn. split; reflexivity.
Qed.

Section Transcript.

Context {C : Collaborators}.

Lemma process_metacluster_ok_lines task_names track_set all_seqlets mr acc p
    w acc' w' :
  process_metacluster task_names track_set all_seqlets mr acc p w
  = (Ok acc', w') ->
  exists sub,
    acc' = odict_set Z.eqb acc (fst p) sub /\
    w_stdout w' = w_stdout w ++ entry_lines task_names (fst p, sub).
Proof.
  unfold process_metacluster. intros H.
  inv_bind H. inversion Hstep; subst a w0. clear Hstep.
  inv_bind H. inversion Hstep; subst a w0. clear Hstep.
  inv_bind H. apply lift_ok_inv in Hstep. destruct Hstep as [Hpat ->].
  inv_bind H. apply mapM_lift_inv in Hstep. destruct Hstep as [-> Hacts].
  rename a0 into activities.
  inv_bind H. apply assert_ok_inv in Hstep. destruct Hstep as [Hlen ->].
  inv_bind H. apply lift_ok_inv in Hstep. destruct Hstep as [Hrel ->].
  rename a1 into rel.
  inv_bind H. inversion Hstep; subst a1 w0. clear Hstep.
  inv_bind H. inversion Hstep; subst a1 w0. clear Hstep.
  destruct (unpack_relevant_ok_inv _ _ _ Hrel) as [Hne Erel].
  destruct (fst rel) as [| n ns] eqn:En; [exfalso; apply Hne; reflexivity |].
  cbn [List.length Nat.eqb] in H.
  inv_bind H. inversion Hstep; subst a1 w0. clear Hstep.
  inv_bind H. apply lift_ok_inv in Hstep. destruct Hstep as [Hstp ->].
  inversion H; subst acc' w'. clear H.
  eexists. split; [reflexivity |].
  unfold entry_lines, relevant_task_names, relevant_task_signs.
  cbn [fst snd metacluster_size activity_pattern w_stdout].
  rewrite <- !app_assoc. cbn [app].
  rewrite <- En, Erel. reflexivity.
Qed.

Lemma dispatch_loop_lines task_names track_set all_seqlets mr :
  forall l acc w results w',
    foldM (process_metacluster task_names track_set all_seqlets mr) acc l w
    = (Ok results, w') ->
    NoDup (map fst l) ->
    (forall k, In k (map fst l) -> ~ In k (map fst acc)) ->
    exists new,
      results = acc ++ new /\
      w_stdout w' = w_stdout w ++ flat_map (entry_lines task_names) new.
Proof.
  induction l as [| p l IH]; intros acc w results w' H Hnd Hfresh;
    cbn [foldM] in H.
  - inversion H; subst. exists []. rewrite !app_nil_r.
    split; reflexivity.
  - inv_bind H. apply process_metacluster_ok_lines in Hstep.
    destruct Hstep as (sub & -> & Hout).
    rewrite odict_set_fresh in H by (apply Hfresh; left; reflexivity).
    inversion Hnd as [| ? ? Hp Hnd']; subst.
    apply IH in H; [| exact Hnd' |].
    + destruct H as (new & -> & Hout').
      exists ((fst p, sub) :: new). rewrite <- app_assoc.
      split; [reflexivity |].
      rewrite Hout', Hout. cbn [flat_map]. rewrite <- app_assoc.
      reflexivity.
    + intros k Hk. rewrite map_app. cbn [map fst]. intros Hin.
      apply in_app_or in Hin. destruct Hin as [Hin | [<- | []]].
      * apply (Hfresh k); [right; exact Hk | exact Hin].
      * apply Hp. exact Hk.
Qed.

(** X18.  A call that returns has printed, in this order and nothing
    else: the threshold line; the reduction of the weak threshold when it
    was above the threshold; when [verbose] is set, the metacluster sizes
    and the index-to-activity mapping; and for every entry of the result,
    in the order of the entries, the metacluster index, its size, the
    relevant task names and the relevant signs.  The per-metacluster
    lines do not depend on [verbose]. *)
Theorem transcript_of_a_returning_call :
  forall (self : TfModiscoWorkflow) (names : list string)
         (contrib_scores hypothetical_contribs : list (string * list loc))
         (one_hot : list loc) (w w' : world) (res : TfModiscoResults),
    call self names contrib_scores hypothetical_contribs one_hot w
    = (Ok res, w') ->
    exists t top,
      derive_laplace_threshold self one_hot w = (Ok t, w) /\
      max_seq (metacluster_indices (metaclustering_results res)) = Ok top /\
      w_stdout w'
      = w_stdout w
        ++ [UsingLaplaceThreshold t]
        ++ reduction_lines self t
        ++ verbose_lines self (metaclustering_results res) top
        ++ flat_map (entry_lines names)
                    (metacluster_idx_to_submetacluster_results res).
Proof.
  intros self names cs hy one_hot w w' res H.
  destruct (call_ok_stages _ _ _ _ _ _ _ _ H)
    as (made & w1 & ts & w2 & Hcfg & Hbuild & Hdisc).
  destruct (configure_ok_inv _ _ _ _ _ Hcfg) as (t & Hd & _ & Hout1).
  destruct (keeps_build_track_set only_allocates only_allocates_alloc
              names cs hy one_hot w1) as [fresh Hw2].
  rewrite Hbuild in Hw2. cbn [snd] in Hw2.
  apply discover_ok_inv in Hdisc.
  destruct Hdisc as (scores & creation & vectors & mr & top & results & w3
                     & _ & _ & _ & Htop & Hw3 & Hloop & ->).
  cbn [metaclustering_results metacluster_idx_to_submetacluster_results].
  exists t, top. split; [exact Hd |]. split; [exact Htop |].
  apply dispatch_loop_lines in Hloop.
  - destruct Hloop as (new & Hnew & Hout3). cbn [app] in Hnew. subst new.
    rewrite Hout3.
    assert (E : w_stdout w3
                = w_stdout w1 ++ verbose_lines self mr top).
    { unfold verbose_lines. subst w2.
      destruct (verbose self); subst w3; cbn [w_stdout grown].
      - reflexivity.
      - rewrite app_nil_r. reflexivity. }
    rewrite E, Hout1. rewrite <- !app_assoc. reflexivity.
  - apply (Permutation_NoDup (l := range (top + 1))); [| apply range_nodup].
    apply Permutation_sym.
    rewrite <- (map_fst_enumerate_sizes
                  (fun idx => count_eq idx (metacluster_indices mr))).
    apply Permutation_map. apply sorted_by_snd_perm.
  - intros k _ [].
Qed.

End Transcript.

Lemma transcript_of_a_returning_call_witness :
  exists res w' t top,
    Scripted.active_run = (Ok res, w') /\
    w_stdout w'
    = [UsingLaplaceThreshold t]
      ++ reduction_lines (Scripted.small_workflow Auto 2) t
      ++ verbose_lines (Scripted.small_workflow Auto 2)
                       (metaclustering_results res) top
      ++ flat_map (entry_lines ["task0"])
                  (metacluster_idx_to_submetacluster_results res).
Proof.
  destruct active_run_returns as (res & w' & E).
  destruct (transcript_of_a_returning_call _ _ _ _ _ _ _ _ E)
    as (t & top & _ & _ & Hout).
  exists res, w', t, top. split; [exact E | exact Hout].
Defined.

(** ** The rest of the persisted layout *)

Section Layout.

Context {C : Collaborators}.

(** X19.  Persisting into an empty root group writes the layout and
    nothing else: the root has no attribute, the one dataset
    [task_names], and three groups, in the order
    [multitask_seqlet_creation_results], [metaclustering_results],
    [metacluster_idx_to_submetacluster_results], the first two holding
    what the opaque results wrote; the third has no attribute and no
    dataset, and its member for an entry has only the [size] attribute,
    the datasets [activity_pattern] and [seqlets], the latter with the
    coordinates of the entry's seqlets in order, and the one group
    [seqlets_to_patterns_result] with what the pattern result wrote. *)
Theorem persisted_layout_is_complete :
  forall (self : TfModiscoResults) (g1 g2 : h5group) (saved : list h5group),
    NoDup (map fst (metacluster_idx_to_submetacluster_results self)) ->
    seqlet_creation_save_hdf5 (multitask_seqlet_creation_results self)
                              empty_group = Ok g1 ->
    metaclustering_save_hdf5 (metaclustering_results self) empty_group
    = Ok g2 ->
    Forall2 (fun e g =>
               patterns_save_hdf5 (seqlets_to_patterns_result (snd e))
                                  empty_group = Ok g)
            (metacluster_idx_to_submetacluster_results self) saved ->
    exists root container,
      save_hdf5 self empty_group = Ok root /\
      h5_attrs root = [] /\
      h5_datasets root = [("task_names", H5Strings (task_names self))] /\
      h5_groups root
      = [("multitask_seqlet_creation_results", g1);
         ("metaclustering_results", g2);
         ("metacluster_idx_to_submetacluster_results", container)] /\
      h5_attrs container = [] /\
      h5_datasets container = [] /\
      Forall2 (fun eg m =>
                 fst m = metacluster_group_name (fst (fst eg)) /\
                 h5_attrs (snd m)
                 = [("size", metacluster_size (snd (fst eg)))] /\
                 h5_datasets (snd m)
                 = [("activity_pattern",
                     H5Ints (activity_pattern (snd (fst eg))));
                    ("seqlets",
                     H5Coords (map coor (seqlets (snd (fst eg)))))] /\
                 h5_groups (snd m)
                 = [("seqlets_to_patterns_result", snd eg)])
              (combine (metacluster_idx_to_submetacluster_results self) saved)
              (h5_groups container).
Proof.
  intros self g1 g2 saved Hnd H1 H2 Hall.
  eexists. eexists.
  split; [apply (save_hdf5_tree self g1 g2 saved Hnd H1 H2 Hall) |].
  cbn [h5_attrs h5_datasets h5_groups].
  split; [reflexivity |]. split; [reflexivity |]. split; [reflexivity |].
  split; [reflexivity |]. split; [reflexivity |].
  induction (combine (metacluster_idx_to_submetacluster_results self) saved)
    as [| eg l IH]; cbn [map]; constructor.
  - unfold saved_member, saved_submetacluster.
    cbn [fst snd h5_attrs h5_datasets h5_groups].
    split; [reflexivity |]. split; [reflexivity |]. split; reflexivity.
  - exact IH.
Qed.

End Layout.

Lemma persisted_layout_is_complete_witness :
  exists root container,
    save_hdf5 Scripted.active_results empty_group = Ok root /\
    h5_groups root
    = [("multitask_seqlet_creation_results", empty_group);
       ("metaclustering_results", empty_group);
       ("metacluster_idx_to_submetacluster_results", container)] /\
    h5_datasets container = [].
Proof.
  destruct (persisted_layout_is_complete
              (C := Scripted.collaborators Scripted.active_script)
              Scripted.active_results empty_group empty_group
              [empty_group; empty_group])
    as (root & container & Hsave & _ & _ & Hgroups & _ & Hds & _).
  - cbn. repeat constructor; cbn; intuition discriminate.
  - reflexivity.
  - reflexivity.
  - repeat constructor.
  - exists root, container.
    split; [exact Hsave |]. split; [exact Hgroups | exact Hds].
Defined.

(** ** What the collaborators are given *)

Lemma configure_made self one_hot w made w1 :
  configure self one_hot w = (Ok made, w1) ->
  exists t weak,
    derive_laplace_threshold self one_hot w = (Ok t, w) /\
    (weak <= t)%Q /\
    made = (mkCoordProducer (sliding_window_size self) (flank_size self) t
                            (verbose self),
            mkMetaclusterer (min_cluster_size self) t weak).
Proof.
  intros H. destruct (configure_ok_inv _ _ _ _ _ H) as (t & Hd & _).
  destruct (resolve_weak_threshold_cases self t
              (snd (print (UsingLaplaceThreshold t) w)))
    as (weak & w2 & Hres & _ & _ & _ & _ & _ & Hle).
  rewrite (configure_ok self one_hot w t weak w2 Hd Hres) in H.
  inversion H; subst. exists t, weak.
  split; [exact Hd |]. split; [exact Hle | reflexivity].
Qed.

Section Data_flow.

Context {C : Collaborators}.

Lemma per_position_contrib_scores_inv names contrib_scores w scores w' :
  per_position_contrib_scores names contrib_scores w = (Ok scores, w') ->
  exists pairs,
    scores = OrderedDict String.eqb pairs /\
    Forall2 (fun t p =>
               fst p = t /\
               exists arrs,
                 dict_get contrib_scores t = Ok arrs /\
                 np_sum_axis2 (w_heap w) arrs = Ok (snd p))
            names pairs.
Proof.
  unfold per_position_contrib_scores. intros H.
  apply bind_ok_inv in H. destruct H as (pairs & w0 & Hrun & H).
  inversion H as [[Hs Hw]]. clear H Hs Hw.
  exists pairs. split; [reflexivity |].
  revert w pairs w0 Hrun. induction names as [| t names IH];
    intros w pairs w0 H; cbn [mapM] in H.
  - inversion H; subst. constructor.
  - apply bind_ok_inv in H. destruct H as (p & wa & Hp & H).
    apply bind_ok_inv in H. destruct H as (ps & wb & Hps & H).
    inversion H; subst pairs w0; clear H.
    apply bind_ok_inv in Hp. destruct Hp as (arrs & wc & Hget & Hp).
    apply lift_ok_inv in Hget. destruct Hget as [Hget ->].
    apply bind_ok_inv in Hp. destruct Hp as (h & wd & Hh & Hp).
    inversion Hh; subst h wd; clear Hh.
    apply bind_ok_inv in Hp. destruct Hp as (sm & we & Hsum & Hp).
    apply lift_ok_inv in Hsum. destruct Hsum as [Hsum ->].
    inversion Hp; subst p wa; clear Hp.
    constructor.
    + cbn [fst snd]. split; [reflexivity |].
      exists arrs. split; [exact Hget | exact Hsum].
    + apply (IH _ _ _ Hps).
Qed.

(** X20.  The parts of a returned result are what the collaborators
    returned on these inputs: seqlet creation was given a coordinate
    producer with the window size, the flank, the derived threshold [t]
    and the verbose flag, the track set of this call, an overlap resolver
    with [overlap_portion], for each task the channel sums of its
    contribution scores, and the per-task transformers; the metaclusterer
    was built with the minimum cluster size, [t] and a weak threshold not
    above [t], and was run on the stored attribute matrix. *)
Theorem returned_parts_come_from_the_collaborators :
  forall (self : TfModiscoWorkflow) (names : list string)
         (contrib_scores hypothetical_contribs : list (string * list loc))
         (one_hot : list loc) (w w' : world) (res : TfModiscoResults),
    call self names contrib_scores hypothetical_contribs one_hot w
    = (Ok res, w') ->
    exists t weak track_set w1 w2 pairs,
      derive_laplace_threshold self one_hot w = (Ok t, w) /\
      (weak <= t)%Q /\
      build_track_set names contrib_scores hypothetical_contribs one_hot w1
      = (Ok track_set, w2) /\
      w_heap w1 = w_heap w /\
      w_heap w' = w_heap w2 /\
      Forall2 (fun task p =>
                 fst p = task /\
                 exists arrs,
                   dict_get contrib_scores task = Ok arrs /\
                   np_sum_axis2 (w_heap w') arrs = Ok (snd p))
              names pairs /\
      multitask_seqlet_creation
        (mkCoordProducer (sliding_window_size self) (flank_size self) t
                         (verbose self))
        track_set (mkOverlapResolver (overlap_portion self)) (w_heap w')
        (OrderedDict String.eqb pairs)
        (task_name_to_threshold_transformer self names)
      = Ok (multitask_seqlet_creation_results res) /\
      run_metaclusterer (mkMetaclusterer (min_cluster_size self) t weak)
                        (seqlet_attribute_vectors res)
      = Ok (metaclustering_results res).
Proof.
  intros self names cs hy one_hot w w' res H.
  destruct (call_ok_stages _ _ _ _ _ _ _ _ H)
    as (made & w1 & ts & w2 & Hcfg & Hbuild & Hdisc).
  destruct (configure_made _ _ _ _ _ Hcfg) as (t & weak & Hd & Hle & ->).
  destruct (configure_ok_inv _ _ _ _ _ Hcfg) as (_ & _ & Hheap1 & _).
  destruct (keeps_build_track_set only_allocates only_allocates_alloc
              names cs hy one_hot w1) as [fresh Hw2].
  rewrite Hbuild in Hw2. cbn [snd] in Hw2.
  pose proof (keeps_discover same_heap same_heap_print self names cs ts
                (fst (mkCoordProducer (sliding_window_size self)
                                      (flank_size self) t (verbose self),
                      mkMetaclusterer (min_cluster_size self) t weak))
                (snd (mkCoordProducer (sliding_window_size self)
                                      (flank_size self) t (verbose self),
                      mkMetaclusterer (min_cluster_size self) t weak))
                w2) as Hheap.
  rewrite Hdisc in Hheap. unfold same_heap in Hheap. cbn [snd] in Hheap.
  cbn [fst snd] in Hdisc.
  unfold discover in Hdisc. inv_bind Hdisc.
  pose proof (unchanged _ _ _ _
                (keeps_per_position_contrib_scores eq names cs) Hstep) as Ew.
  subst w0.
  apply per_position_contrib_scores_inv in Hstep.
  destruct Hstep as (pairs & -> & Hpairs).
  inv_bind Hdisc. inversion Hstep; subst a w0. clear Hstep.
  inv_bind Hdisc. apply lift_ok_inv in Hstep. destruct Hstep as [Hcreate ->].
  inv_bind Hdisc. apply attribute_vectors_inv in Hstep.
  destruct Hstep as [-> _].
  inv_bind Hdisc. apply lift_ok_inv in Hstep. destruct Hstep as [Hmr ->].
  inv_bind Hdisc. apply lift_ok_inv in Hstep. destruct Hstep as [_ ->].
  inv_bind Hdisc. inv_bind Hdisc. inversion Hdisc; subst res. clear Hdisc.
  cbn [multitask_seqlet_creation_results seqlet_attribute_vectors
       metaclustering_results].
  exists t, weak, ts, w1, w2, pairs.
  split; [exact Hd |]. split; [exact Hle |].
  split; [exact Hbuild |].
  split; [exact Hheap1 |]. split; [exact Hheap |].
  rewrite Hheap.
  split; [exact Hpairs |]. split; [exact Hcreate | exact Hmr].
Qed.

End Data_flow.

Lemma returned_parts_come_from_the_collaborators_witness :
  exists res w' t weak,
    Scripted.active_run = (Ok res, w') /\
    derive_laplace_threshold (Scripted.small_workflow Auto 2)
      Scripted.small_one_hot (Scripted.fresh Scripted.small_heap)
    = (Ok t, Scripted.fresh Scripted.small_heap) /\
    (weak <= t)%Q.
Proof.
  destruct active_run_returns as (res & w' & E).
  destruct (returned_parts_come_from_the_collaborators _ _ _ _ _ _ _ _ E)
    as (t & weak & ts & w1 & w2 & pairs & Hd & Hle & _).
  exists res, w', t, weak.
  split; [exact E |]. split; [exact Hd | exact Hle].
Defined.

(** ** The thresholds of the default configuration *)

(** X21.  With the defaults of [__init__] (automatic threshold, minimum
    cluster size 100, weak threshold 0.99) and more than 100 windows, the
    threshold stage succeeds; the threshold is [1 - 100/T] up to 10000
    windows, 0.99 from 10000 to 50000 and [1 - 500/T] from 50000 on; the
    weak threshold handed to the metaclusterer is the threshold itself
    below 10000 windows, with the reduction printed, and 0.99 otherwise,
    with nothing more printed. *)
Theorem default_settings_threshold_by_size :
  forall (self : TfModiscoWorkflow) (one_hot : list loc) (w : world),
    laplace_threshold_cdf self = Auto ->
    min_cluster_size self = 100 ->
    weak_threshold_for_counting_sign self = Some 0.99%Q ->
    100 < total_num self (w_heap w) one_hot ->
    exists (t weak : Q) (w1 : world),
      configure self one_hot w
      = (Ok (mkCoordProducer (sliding_window_size self) (flank_size self) t
                             (verbose self),
             mkMetaclusterer 100 t weak), w1) /\
      (total_num self (w_heap w) one_hot <= 10000 ->
       (t == 1 - 100 / inject_Z (total_num self (w_heap w) one_hot))%Q) /\
      (10000 <= total_num self (w_heap w) one_hot <= 50000 ->
       (t == 0.99)%Q) /\
      (50000 <= total_num self (w_heap w) one_hot ->
       (t == 1 - 500 / inject_Z (total_num self (w_heap w) one_hot))%Q) /\
      (if total_num self (w_heap w) one_hot <? 10000
       then weak = t /\
            w_stdout w1
            = w_stdout w
              ++ [UsingLaplaceThreshold t; ReducingWeakThreshold 0.99 t]
       else weak = 0.99%Q /\
            w_stdout w1 = w_stdout w ++ [UsingLaplaceThreshold t]).
Proof.
  intros self one_hot w HA Hm Hweak HT.
  set (T := total_num self (w_heap w) one_hot) in *.
  assert (Hd : derive_laplace_threshold self one_hot w
               = (Ok (auto_threshold 100 T), w)).
  { rewrite <- Hm. apply derive_auto_ok; [exact HA | lia | lia]. }
  destruct (window_fractions 100 T ltac:(lia) HT)
    as (HTq & Hx0 & Hx1 & Hy & Hxm & Hym).
  destruct (resolve_weak_threshold_cases self (auto_threshold 100 T)
              (snd (print (UsingLaplaceThreshold (auto_threshold 100 T)) w)))
    as (weak & w2 & Hres & _ & _ & _ & Hlt & Hge & _).
  specialize (Hlt _ Hweak). specialize (Hge _ Hweak).
  pose proof (configure_ok self one_hot w _ weak w2 Hd Hres) as Hcfg.
  rewrite Hm in Hcfg.
  exists (auto_threshold 100 T), weak.
  eexists. split; [exact Hcfg |].
  cbn [w_stdout].
  assert (H10 : (T < 10000 <-> (inject_Z T < 10000)%Q)).
  { change 10000%Q with (inject_Z 10000). rewrite <- Zlt_Qlt. reflexivity. }
  assert (H10' : (T <= 10000 <-> (inject_Z T <= 10000)%Q)).
  { change 10000%Q with (inject_Z 10000). rewrite <- Zle_Qle. reflexivity. }
  assert (H10'' : (10000 <= T <-> (10000 <= inject_Z T)%Q)).
  { change 10000%Q with (inject_Z 10000). rewrite <- Zle_Qle. reflexivity. }
  assert (H50 : (T <= 50000 <-> (inject_Z T <= 50000)%Q)).
  { change 50000%Q with (inject_Z 50000). rewrite <- Zle_Qle. reflexivity. }
  assert (H50' : (50000 <= T <-> (50000 <= inject_Z T)%Q)).
  { change 50000%Q with (inject_Z 50000). rewrite <- Zle_Qle. reflexivity. }
  revert Hlt Hge.
  unfold auto_threshold, max2, min2.
  change (inject_Z 500) with 500%Q in *.
  change (inject_Z 100) with 100%Q in *.
  set (x := (100 / inject_Z T)%Q) in *.
  set (y := (500 / inject_Z T)%Q) in *.
  set (Tq := inject_Z T) in *.
  intros Hlt Hge.
  split.
  { intros H. apply H10' in H. clearbody x y Tq.
    destruct (Qlt_le_dec (1 - x) 0.99); destruct (Qlt_le_dec _ (1 - y));
      try lra; try nra. }
  split.
  { intros [Ha Hb]. apply H10'' in Ha. apply H50 in Hb. clearbody x y Tq.
    destruct (Qlt_le_dec (1 - x) 0.99); destruct (Qlt_le_dec _ (1 - y));
      try lra; try nra. }
  split.
  { intros H. apply H50' in H. clearbody x y Tq.
    destruct (Qlt_le_dec (1 - x) 0.99); destruct (Qlt_le_dec _ (1 - y));
      try lra; try nra. }
  destruct (Z.ltb_spec T 10000) as [Hs | Hs].
  - apply H10 in Hs.
    destruct Hlt as [-> Hout].
    { clearbody x y Tq.
      destruct (Qlt_le_dec (1 - x) 0.99); destruct (Qlt_le_dec _ (1 - y));
        try lra; try nra. }
    split; [reflexivity |].
    rewrite Hout. cbn [print snd w_stdout]. rewrite <- app_assoc. reflexivity.
  - apply H10'' in Hs.
    destruct Hge as [-> ->].
    { clearbody x y Tq.
      destruct (Qlt_le_dec (1 - x) 0.99); destruct (Qlt_le_dec _ (1 - y));
        try lra; try nra. }
    split; reflexivity.
Qed.

Lemma default_settings_threshold_by_size_witness :
  exists (t weak : Q) (w1 : world),
    configure Scripted.default_workflow Scripted.ten_one_hot
              (Scripted.fresh Scripted.ten_sequences)
    = (Ok (mkCoordProducer 21 10 t true, mkMetaclusterer 100 t weak), w1) /\
    weak = t /\
    w_stdout w1 = [UsingLaplaceThreshold t; ReducingWeakThreshold 0.99 t].
Proof.
  destruct (default_settings_threshold_by_size Scripted.default_workflow
              Scripted.ten_one_hot (Scripted.fresh Scripted.ten_sequences))
    as (t & weak & w1 & Hcfg & _ & _ & _ & Hout).
  - reflexivity.
  - reflexivity.
  - reflexivity.
  - vm_compute. reflexivity.
  - exists t, weak, w1. split; [exact Hcfg |].
    change (total_num Scripted.default_workflow
              (w_heap (Scripted.fresh Scripted.ten_sequences))
              Scripted.ten_one_hot <? 10000)
      with true in Hout.
    exact Hout.
Defined.

(** ** A window total of zero *)

(** X22.  With the automatic threshold and a window total of exactly zero
    (no sequences, or sequences one shorter than the window), a call never
    gets past line 116: it raises [AssertionError] when the minimum cluster
    size is not negative and [ZeroDivisionError] when it is, having printed
    and assigned nothing. *)
Theorem no_windows_never_returns :
  forall {C : Collaborators} (self : TfModiscoWorkflow)
         (names : list string)
         (contrib_scores hypothetical_contribs : list (string * list loc))
         (one_hot : list loc) (w : world),
    laplace_threshold_cdf self = Auto ->
    total_num self (w_heap w) one_hot = 0 ->
    call self names contrib_scores hypothetical_contribs one_hot w
    = (Raise (if 0 <=? min_cluster_size self
              then AssertionError
                     (String.append "Increase min_cluster_size "
                                    (str_int (min_cluster_size self)))
              else ZeroDivisionError), w).
Proof.
  intros C self names cs hy one_hot w HA HT.
  unfold call, configure.
  apply bind_raise. apply bind_raise.
  destruct (Z.leb_spec 0 (min_cluster_size self)) as [Hm | Hm].
  - apply derive_auto_fails; [exact HA | lia].
  - unfold derive_laplace_threshold. rewrite HA.
    unfold bind, get_heap. cbn [fst snd].
    rewrite HT.
    replace (0 >? min_cluster_size self) with true
      by (symmetry; apply Z.gtb_lt; lia).
    reflexivity.
Qed.

Lemma no_windows_never_returns_witness :
  call (C := Scripted.collaborators Scripted.active_script)
       (Scripted.small_workflow Auto (-1)) ["task0"]
       Scripted.small_contribs Scripted.small_hypothetical []
       (Scripted.fresh Scripted.small_heap)
  = (Raise ZeroDivisionError, Scripted.fresh Scripted.small_heap).
Proof.
  apply (no_windows_never_returns
           (C := Scripted.collaborators Scripted.active_script)
           (Scripted.small_workflow Auto (-1)) ["task0"]
           Scripted.small_contribs Scripted.small_hypothetical []
           (Scripted.fresh Scripted.small_heap)).
  - reflexivity.
  - reflexivity.
Defined.

(** ** Saving into a group that is already in use *)

Lemma create_dataset_ok_inv g n d g' :
  H5.create_dataset g n d = Ok g' ->
  H5.name_taken g n = false /\
  g' = H5Group (h5_attrs g) (h5_datasets g ++ [(n, d)]) (h5_groups g).
Proof.
  unfold H5.create_dataset. destruct (H5.name_taken g n); [discriminate |].
  intros H. inversion H. split; reflexivity.
Qed.

Lemma create_group_ok_inv g n fill g' :
  H5.create_group g n fill = Ok g' ->
  H5.name_taken g n = false /\
  exists child,
    fill empty_group = Ok child /\
    g' = H5Group (h5_attrs g) (h5_datasets g) (h5_groups g ++ [(n, child)]).
Proof.
  unfold H5.create_group. destruct (H5.name_taken g n); [discriminate |].
  destruct (fill empty_group) as [child | e]; cbn [rbind]; [| discriminate].
  intros H. inversion H. split; [reflexivity |].
  exists child. split; reflexivity.
Qed.

Lemma rbind_ok_inv {A B} (r : result A) (k : A -> result B) b :
  rbind r k = Ok b -> exists a, r = Ok a /\ k a = Ok b.
Proof.
  destruct r as [a | e]; cbn [rbind]; [| discriminate].
  intros H. exists a. split; [reflexivity | exact H].
Qed.

Lemma name_taken_false_mono g g' n :
  H5.name_taken g' n = false ->
  (exists d, h5_datasets g' = h5_datasets g ++ d) ->
  (exists gs, h5_groups g' = h5_groups g ++ gs) ->
  H5.name_taken g n = false.
Proof.
  unfold H5.name_taken. intros H [d Hd] [gs Hgs].
  rewrite Hd, Hgs, !existsb_app in H.
  apply orb_false_elim in H. destruct H as [H1 H2].
  apply orb_false_elim in H1. apply orb_false_elim in H2.
  destruct H1 as [-> _]. destruct H2 as [-> _]. reflexivity.
Qed.

Section Reuse.

Context {C : Collaborators}.

(** X23.  A save that succeeds needed the four names it writes to be free
    in the group, leaves everything the group held in place, and adds the
    dataset [task_names] and its three groups after it; no result can then
    be saved into the same group again: the second save raises
    [ValueError] at [task_names]. *)
Theorem saving_twice_raises :
  forall (self other : TfModiscoResults) (grp root : h5group),
    save_hdf5 self grp = Ok root ->
    Forall (fun n => H5.name_taken grp n = false)
           ["task_names"; "multitask_seqlet_creation_results";
            "metaclustering_results";
            "metacluster_idx_to_submetacluster_results"] /\
    h5_attrs root = h5_attrs grp /\
    h5_datasets root
    = h5_datasets grp ++ [("task_names", H5Strings (task_names self))] /\
    (exists g1 g2 g3,
        h5_groups root
        = h5_groups grp
          ++ [("multitask_seqlet_creation_results", g1);
              ("metaclustering_results", g2);
              ("metacluster_idx_to_submetacluster_results", g3)]) /\
    save_hdf5 other root
    = Raise (ValueError "Unable to create dataset (name already exists)").
Proof.
  intros self other grp root H.
  unfold save_hdf5 in H.
  apply rbind_ok_inv in H. destruct H as (r1 & H1 & H).
  apply rbind_ok_inv in H. destruct H as (r2 & H2 & H).
  apply rbind_ok_inv in H. destruct H as (r3 & H3 & H4).
  unfold H5.save_string_list in H1.
  apply create_dataset_ok_inv in H1. destruct H1 as [F1 ->].
  apply create_group_ok_inv in H2. destruct H2 as (F2 & g1 & _ & ->).
  apply create_group_ok_inv in H3. destruct H3 as (F3 & g2 & _ & ->).
  apply create_group_ok_inv in H4. destruct H4 as (F4 & g3 & _ & ->).
  split.
  { constructor; [exact F1 |].
    constructor.
    { apply (name_taken_false_mono _ _ _ F2); eexists;
        cbn [h5_datasets h5_groups]; rewrite <- ?app_assoc;
        try reflexivity; symmetry; apply app_nil_r. }
    constructor.
    { apply (name_taken_false_mono _ _ _ F3); eexists;
        cbn [h5_datasets h5_groups]; rewrite <- ?app_assoc; reflexivity. }
    constructor; [| constructor].
    apply (name_taken_false_mono _ _ _ F4); eexists;
      cbn [h5_datasets h5_groups]; rewrite <- ?app_assoc; reflexivity. }
  cbn [h5_attrs h5_datasets h5_groups].
  split; [reflexivity |].
  split; [reflexivity |].
  split.
  { exists g1, g2, g3. rewrite <- !app_assoc. reflexivity. }
  unfold save_hdf5, H5.save_string_list, H5.create_dataset, H5.name_taken.
  cbn [h5_attrs h5_datasets h5_groups].
  rewrite existsb_app.
  cbn [existsb fst]. rewrite String.eqb_refl.
  cbn [orb]. rewrite orb_true_r. reflexivity.
Qed.

End Reuse.

Lemma saving_twice_raises_witness :
  exists root,
    save_hdf5 Scripted.active_results empty_group = Ok root /\
    save_hdf5 Scripted.active_results root
    = Raise (ValueError "Unable to create dataset (name already exists)").
Proof.
  assert (E : exists root,
             save_hdf5 (C := Scripted.collaborators Scripted.active_script)
                       Scripted.active_results empty_group = Ok root)
    by (eexists; vm_compute; reflexivity).
  destruct E as [root E]. exists root. split; [exact E |].
  exact (proj2 (proj2 (proj2 (proj2
           (saving_twice_raises
              (C := Scripted.collaborators Scripted.active_script)
              Scripted.active_results Scripted.active_results
              empty_group root E))))).
Defined.
